(** * react-jsx-starter-kit-dev: the conversion script and its self-test

    A shallow embedding of [scripts/run-conversion.js] (class
    [UnifiedConverter]) and of the workflow self-test (class
    [WorkflowTester]).

    - JavaScript strings are lists of UTF-16 code units ([list N]); files
      hold the string that [fs.readFileSync(file, 'utf8')] returns.
    - The regular expressions of the script are written out as matchers
      that return the length of the match anchored at the head of the
      input; [String.prototype.replace] is a scan over such a matcher.
    - The file system is a tree of directories and files, addressed by the
      list of path segments below the working directory.
    - External processes ([execSync]) are parameters of the sections that
      use them. *)

From Stdlib Require Import NArith ZArith List Bool Lia Ascii String.
From stdpp Require Import base tactics option numbers list.

Local Open Scope N_scope.

(** ** JavaScript strings *)

Module JS.

Abbreviation jsstring := (list N).

(** Code units of an ASCII literal. *)
Definition js (s : string) : jsstring :=
  List.map N_of_ascii (list_ascii_of_string s).

(** [\s] of an ECMAScript regular expression, which is also the set that
    [String.prototype.trim] strips: WhiteSpace and LineTerminator. *)
Definition re_space (c : N) : bool :=
  ((9 <=? c) && (c <=? 13)) || (c =? 32) || (c =? 160) || (c =? 5760)
  || ((8192 <=? c) && (c <=? 8202)) || (c =? 8232) || (c =? 8233)
  || (c =? 8239) || (c =? 8287) || (c =? 12288) || (c =? 65279).

(** [\w] without the [u] and [i] flags: [[A-Za-z0-9_]]. *)
Definition re_word (c : N) : bool :=
  ((48 <=? c) && (c <=? 57)) || ((65 <=? c) && (c <=? 90)) || (c =? 95)
  || ((97 <=? c) && (c <=? 122)).

(** LineTerminator: what [^] looks behind for under the [m] flag. *)
Definition line_terminator (c : N) : bool :=
  (c =? 10) || (c =? 13) || (c =? 8232) || (c =? 8233).

(** [s.startsWith(p)] *)
Fixpoint startsWith (p s : jsstring) : bool :=
  match p, s with
  | [], _ => true
  | x :: p', y :: s' => (x =? y) && startsWith p' s'
  | _ :: _, [] => false
  end.

(** [s.includes(p)] *)
Fixpoint includes (p s : jsstring) : bool :=
  match s with
  | [] => startsWith p []
  | _ :: t => startsWith p s || includes p t
  end.

(** [s.endsWith(p)] *)
Definition endsWith (p s : jsstring) : bool :=
  startsWith (rev p) (rev s).

(** The longest prefix of [s] whose code units satisfy [f], and the rest:
    a greedy [[class]*]. *)
Fixpoint span (f : N -> bool) (s : jsstring) : jsstring * jsstring :=
  match s with
  | [] => ([], [])
  | c :: t =>
      if f c then let '(a, b) := span f t in (c :: a, b) else ([], s)
  end.

Definition trimStart (s : jsstring) : jsstring := snd (span re_space s).
Definition trimEnd (s : jsstring) : jsstring := rev (trimStart (rev s)).
(** [s.trim()] *)
Definition trim (s : jsstring) : jsstring := trimEnd (trimStart s).

(** [s.split(',')] for a one-unit separator: never the empty list. *)
Fixpoint split (sep : N) (s : jsstring) : list jsstring :=
  match s with
  | [] => [[]]
  | c :: t =>
      if c =? sep then [] :: split sep t
      else match split sep t with
           | [] => [[c]]
           | x :: xs => (c :: x) :: xs
           end
  end.

(** [items.join(sep)] *)
Fixpoint join (sep : jsstring) (items : list jsstring) : jsstring :=
  match items with
  | [] => []
  | [x] => x
  | x :: xs => x ++ sep ++ join sep xs
  end.

(** *** Regular expressions as anchored matchers

    A matcher is given the code unit before the current position (for
    [^]) and the rest of the input, and answers with the length of the
    match that starts here, if there is one. *)
Definition matcher := option N -> jsstring -> option nat.

(** [re.test(s)], [s.match(re)] as a truth value: some position matches. *)
Fixpoint re_test (m : matcher) (prev : option N) (s : jsstring) : bool :=
  match s with
  | [] => bool_decide (is_Some (m prev []))
  | c :: t => bool_decide (is_Some (m prev s)) || re_test m (Some c) t
  end.

(** [s.replace(re, f)] with the [g] flag: leftmost matches, not
    overlapping; the replacement is not scanned again.  [skip] counts the
    code units of the current match that are still to be dropped.  An
    empty match inserts the replacement and moves on by one unit. *)
Fixpoint gsub (m : matcher) (f : jsstring -> jsstring)
    (prev : option N) (skip : nat) (s : jsstring) : jsstring :=
  match s with
  | [] =>
      match skip, m prev [] with
      | O, Some _ => f []
      | _, _ => []
      end
  | c :: t =>
      match skip with
      | S k => gsub m f (Some c) k t
      | O =>
          match m prev s with
          | Some (S n) => f (take (S n) s) ++ gsub m f (Some c) n t
          | Some O => f [] ++ c :: gsub m f (Some c) 0 t
          | None => c :: gsub m f (Some c) 0 t
          end
      end
  end.

Definition replaceAll (m : matcher) (f : jsstring -> jsstring)
    (s : jsstring) : jsstring :=
  gsub m f None 0 s.

(** [s.replace(re, f)] without the [g] flag: the leftmost match only. *)
Fixpoint sub1 (m : matcher) (f : jsstring -> jsstring)
    (prev : option N) (s : jsstring) : jsstring :=
  match m prev s with
  | Some n => f (take n s) ++ drop n s
  | None =>
      match s with
      | [] => []
      | c :: t => c :: sub1 m f (Some c) t
      end
  end.

Definition replaceFirst (m : matcher) (f : jsstring -> jsstring)
    (s : jsstring) : jsstring :=
  sub1 m f None s.

(** A literal pattern. *)
Definition lit (p : jsstring) : matcher :=
  fun _ s => if startsWith p s then Some (length p) else None.

(** *** Notions used to reason about the scans *)

(** The leftmost match, as [re.exec(s)] finds it: the text before it,
    the matched text and the text after it. *)
Fixpoint search (m : matcher) (prev : option N) (s : jsstring)
    : option (jsstring * jsstring * jsstring) :=
  match m prev s with
  | Some n => Some ([], take n s, drop n s)
  | None =>
      match s with
      | [] => None
      | c :: t =>
          match search m (Some c) t with
          | Some (before, matched, after) => Some (c :: before, matched, after)
          | None => None
          end
      end
  end.

(** The code unit that precedes the position reached after reading [u]. *)
Definition prev_after (prev : option N) (u : jsstring) : option N :=
  match last u with Some c => Some c | None => prev end.

(** The pattern matches nowhere in [s], which follows the unit [prev]. *)
Definition nomatch (m : matcher) (prev : option N) (s : jsstring) : Prop :=
  forall a b, s = a ++ b -> m (prev_after prev a) b = None.

(** *** Replacing a literal by a literal, everywhere *)

Definition replaceLit (p r s : jsstring) : jsstring := replaceAll (lit p) (fun _ => r) s.

(** Two strings clash when neither is a prefix of the other: they differ
    at a position that both have. *)
Definition clash (p u : jsstring) : bool := negb (startsWith p u) && negb (startsWith u p).

(** The replacement [r] cannot help to form a new occurrence of [p]: its
    first unit does not occur in [p] after the first position, and every
    tail of [r] clashes with [p]. *)
Definition lit_safe (p r : jsstring) : bool :=
  match p, r with
  | _ :: p', r0 :: _ =>
      negb (existsb (N.eqb r0) p')
      && forallb (fun i => clash p (drop i r)) (seq 0 (length r))
  | _, _ => false
  end.

(** [q] and [r] cannot share a position: wherever one starts inside the
    other, the two differ at a position that both have. *)
Definition apart (q r : jsstring) : bool :=
  forallb (fun d => clash q (drop d r)) (seq 0 (length r))
  && forallb (fun d => clash (drop d q) r) (seq 1 (length q - 1)).

(** No occurrence of [p] starts inside another one. *)
Definition no_self_overlap (p : jsstring) : bool :=
  forallb (fun i => clash p (drop i p)) (seq 1 (length p - 1)).

End JS.

Import JS.

(** ** The file system

    A tree: a directory lists its entries by name, in [readdirSync] order.
    A path is the list of its segments below the working directory, which
    is the project root for the whole run ([path.resolve] and [path.join]
    only build such lists here). *)

Module FS.

Abbreviation path := (list jsstring).

#[warnings="-register-all"] Inductive node :=
| File (content : jsstring)
| Dir (entries : list (jsstring * node)).

Abbreviation entries := (list (jsstring * node)).

Fixpoint entry_lookup (x : jsstring) (es : entries) : option node :=
  match es with
  | [] => None
  | (y, n) :: es' => if decide (x = y) then Some n else entry_lookup x es'
  end.

Fixpoint entry_remove (x : jsstring) (es : entries) : entries :=
  match es with
  | [] => []
  | (y, n) :: es' =>
      if decide (x = y) then entry_remove x es' else (y, n) :: entry_remove x es'
  end.

(** Replace the entry named [x] where it stands, or add it at the end. *)
Fixpoint entry_put (x : jsstring) (n : node) (es : entries) : entries :=
  match es with
  | [] => [(x, n)]
  | (y, m) :: es' =>
      if decide (x = y) then (x, n) :: es' else (y, m) :: entry_put x n es'
  end.

Fixpoint lookup (p : path) (fs : node) : option node :=
  match p with
  | [] => Some fs
  | x :: p' =>
      match fs with
      | Dir es => entry_lookup x es ≫= lookup p'
      | File _ => None
      end
  end.

(** Put [n] at [p]; the parent of [p] has to be a directory. *)
Fixpoint put (p : path) (n : node) (fs : node) : option node :=
  match p with
  | [] => Some n
  | x :: p' =>
      match fs with
      | File _ => None
      | Dir es =>
          match p' with
          | [] => Some (Dir (entry_put x n es))
          | _ :: _ =>
              child ← entry_lookup x es;
              child' ← put p' n child;
              Some (Dir (entry_put x child' es))
          end
      end
  end.

(** Remove the subtree at [p], if there is one. *)
Fixpoint remove (p : path) (fs : node) : node :=
  match p with
  | [] => fs
  | x :: p' =>
      match fs with
      | File _ => fs
      | Dir es =>
          match p' with
          | [] => Dir (entry_remove x es)
          | _ :: _ =>
              match entry_lookup x es with
              | Some child => Dir (entry_put x (remove p' child) es)
              | None => fs
              end
          end
      end
  end.

(** [mkdir -p]: fails when a file is in the way. *)
Fixpoint mkdirp (p : path) (fs : node) : option node :=
  match fs with
  | File _ => None
  | Dir es =>
      match p with
      | [] => Some fs
      | x :: p' =>
          child' ← mkdirp p' (default (Dir []) (entry_lookup x es));
          Some (Dir (entry_put x child' es))
      end
  end.

(** *** Notions used to reason about the tree *)

(** Two paths part ways: below a common prefix they name different
    entries, so neither lies on the way to the other. *)
Fixpoint diverge (p q : path) : bool :=
  match p, q with
  | x :: p', y :: q' => if decide (x = y) then diverge p' q' else true
  | _, _ => false
  end.

(** A tree as a disk holds it: no directory lists a name twice. *)
Fixpoint wf (t : node) : bool :=
  match t with
  | File _ => true
  | Dir es => bool_decide (NoDup (List.map fst es)) && forallb (fun e => wf (snd e)) es
  end.

(** The files below a node, by their paths from it, in the order of a
    depth-first walk. *)
Fixpoint files (t : node) : list path :=
  match t with
  | File _ => [[]]
  | Dir es => flat_map (fun e => List.map (cons (fst e)) (files (snd e))) es
  end.

(** *** Effects: a state and exception monad

    The world of a script is the tree and the list of the child processes
    it has spawned with [execSync], the latest first.  A computation either
    returns a value or throws; the world it leaves behind is kept in both
    cases, as on a real disk. *)

Inductive command :=
| TscVersion              (* npx -p typescript tsc --version *)
| Tsc (permissive : bool) (* npx tsc -p tsconfig.temp.json ..., the retry
                             adds --noImplicitAny false *)
| NodeVersion             (* node --version *)
| NpmVersion              (* npm --version *)
| PrettierVersion         (* npx prettier --version *)
| GitVersion              (* git --version *)
| RunConversion           (* node scripts/run-conversion.js *)
| FindCount               (* find output/resources/js ... | wc -l *)
| GitStatus               (* git status --porcelain *)
| GitRemote               (* git remote -v *)
| NpmList.                (* npm list --depth=0 *)

Record world := World { tree : node; execs : list command }.

Inductive result (A : Type) :=
| Ok (a : A)
| Throw.
Arguments Ok {A} a.
Arguments Throw {A}.

Definition M (A : Type) : Type := world -> result A * world.

Definition ret {A} (a : A) : M A := fun w => (Ok a, w).
Definition throw {A} : M A := fun w => (Throw, w).
Definition bind {A B} (m : M A) (k : A -> M B) : M B :=
  fun w =>
    match m w with
    | (Ok a, w') => k a w'
    | (Throw, w') => (Throw, w')
    end.
(** [try { m } catch { h }] *)
Definition catch {A} (m : M A) (h : M A) : M A :=
  fun w =>
    match m w with
    | (Ok a, w') => (Ok a, w')
    | (Throw, w') => h w'
    end.

Definition get : M node := fun w => (Ok (tree w), w).
(** Replace the tree by the outcome of a partial update, or throw. *)
Definition update (f : node -> option node) : M unit :=
  fun w =>
    match f (tree w) with
    | Some t => (Ok tt, World t (execs w))
    | None => (Throw, w)
    end.

(** [execSync(cmd)]: the child process works on the tree; a non-zero exit
    status is thrown, the standard output is returned otherwise. *)
Definition execSync (spawn : command -> node -> result jsstring * node)
    (cmd : command) : M jsstring :=
  fun w =>
    let '(r, t) := spawn cmd (tree w) in (r, World t (cmd :: execs w)).

#[export] Instance M_ret : MRet M := @ret.
#[export] Instance M_bind : MBind M := fun A B k m => bind m k.

(** A computation that always returns. *)
Definition returns {A} (m : M A) : Prop := forall w, exists a w', m w = (Ok a, w').

(** A computation that, whatever its outcome, leaves what is at the
    paths that satisfy [P] as it was. *)
Definition confined {A} (P : path -> Prop) (m : M A) : Prop :=
  forall w q, P q -> lookup q (tree (m w).2) = lookup q (tree w).

(** [for (const x of xs) body(x)] *)
Definition forEach {A} (xs : list A) (body : A -> M unit) : M unit :=
  (fix each (xs : list A) : M unit :=
     match xs with
     | [] => ret tt
     | x :: xs' => body x;; each xs'
     end) xs.

Definition when (b : bool) (m : M unit) : M unit := if b then m else ret tt.

(** *** The calls of Node's [fs] module that the scripts make *)

Definition existsSync (p : path) : M bool :=
  fs ← get; ret (bool_decide (is_Some (lookup p fs))).

(** [fs.statSync(p).isDirectory()] *)
Definition isDirectory (p : path) : M bool :=
  fs ← get;
  match lookup p fs with
  | Some (Dir _) => ret true
  | Some (File _) => ret false
  | None => throw
  end.

Definition readFileSync (p : path) : M jsstring :=
  fs ← get;
  match lookup p fs with
  | Some (File c) => ret c
  | _ => throw
  end.

Definition writeFileSync (p : path) (c : jsstring) : M unit :=
  fs ← get;
  match lookup p fs with
  | Some (Dir _) => throw
  | _ => update (put p (File c))
  end.

Definition readdirSync (p : path) : M (list jsstring) :=
  fs ← get;
  match lookup p fs with
  | Some (Dir es) => ret (es.*1)
  | _ => throw
  end.

(** [fs.mkdirSync(p, { recursive: true })] *)
Definition mkdirSync (p : path) : M unit := update (mkdirp p).

(** [fs.rmSync(p, { recursive: true, force: true })] *)
Definition rmSyncRecursive (p : path) : M unit :=
  update (fun fs => Some (remove p fs)).

(** [fs.rmSync(p)]: a file that exists. *)
Definition rmSync (p : path) : M unit :=
  fs ← get;
  match lookup p fs with
  | Some (File _) => update (fun fs => Some (remove p fs))
  | _ => throw
  end.

Definition copyFileSync (src dst : path) : M unit :=
  c ← readFileSync src; writeFileSync dst c.

(** [fs.renameSync(old, new)] of a file; an existing file at [new] is
    replaced, a directory there is an error. *)
Definition renameSync (old new : path) : M unit :=
  fs ← get;
  match lookup old fs, lookup new fs with
  | Some (File c), Some (Dir _) => throw
  | Some (File c), _ => update (fun fs => put new (File c) (remove old fs))
  | _, _ => throw
  end.

End FS.

Import FS.

(** ** JSON values

    What [JSON.parse] returns.  An object lists its keys in enumeration
    order.  Numbers are doubles and stay abstract: the script only ever
    asks whether one is truthy. *)

Module Json.

#[warnings="-register-all"] Inductive json (number : Type) :=
| JNull
| JBool (b : bool)
| JNumber (x : number)
| JString (s : jsstring)
| JArray (items : list (json number))
| JObject (fields : list (jsstring * json number)).
Arguments JNull {number}.
Arguments JBool {number} b.
Arguments JNumber {number} x.
Arguments JString {number} s.
Arguments JArray {number} items.
Arguments JObject {number} fields.

Abbreviation fields number := (list (jsstring * json number)).

Section Truthy.

Context {number : Type} (number_truthy : number -> bool).

(** [obj[key]]; [None] is [undefined]. *)
Fixpoint field (key : jsstring) (fs : fields number) : option (json number) :=
  match fs with
  | [] => None
  | (k, v) :: fs' => if decide (key = k) then Some v else field key fs'
  end.

(** [obj[key] = v]: in place for a key that is there, else at the end
    (no key the script assigns is an array index). *)
Fixpoint setField (key : jsstring) (v : json number) (fs : fields number) : fields number :=
  match fs with
  | [] => [(key, v)]
  | (k, w) :: fs' =>
      if decide (key = k) then (k, v) :: fs' else (k, w) :: setField key v fs'
  end.

(** [delete obj[key]] *)
Definition deleteField (key : jsstring) (fs : fields number) : fields number :=
  List.filter (fun kv => negb (bool_decide (kv.1 = key))) fs.

(** ToBoolean *)
Definition truthy (v : option (json number)) : bool :=
  match v with
  | None | Some JNull => false
  | Some (JBool b) => b
  | Some (JNumber x) => number_truthy x
  | Some (JString s) => negb (bool_decide (s = []))
  | Some (JArray _) | Some (JObject _) => true
  end.

End Truthy.

End Json.

Import Json.

(** ** The conversion script: text rewrites *)

Module Converter.

(** *** Pieces of the regular expressions *)

(** A literal piece: the input after it. *)
Definition strip (p s : jsstring) : option jsstring :=
  if startsWith p s then Some (drop (length p) s) else None.

(** [\s*], greedy: the input after the white space. *)
Definition spaces (s : jsstring) : jsstring := snd (span re_space s).

(** [\s+] before a piece that cannot start with white space. *)
Definition spaces1 (s : jsstring) : option jsstring :=
  match s with
  | c :: t => if re_space c then Some (spaces t) else None
  | [] => None
  end.

(** [[^c]*] and then [c] itself: the text before the first [c] and the
    input after that [c]; no match when there is no [c]. *)
Definition upto (c : N) (s : jsstring) : option (jsstring * jsstring) :=
  match span (fun x => negb (x =? c)) s with
  | (u, _ :: rest) => Some (u, rest)
  | (_, []) => None
  end.

(** The length of the match, from what is left of the input after it. *)
Definition matched (s rest : jsstring) : option nat :=
  Some (length s - length rest)%nat.

Definition quote : N := 39.   (* ' *)
Definition dquote : N := 34.  (* the double quote *)
Definition newline : N := 10.

(** [/<\w[\s>/]/] in [processJavaScriptFiles]. *)
Definition re_markup : matcher := fun _ s =>
  match s with
  | c0 :: c1 :: c2 :: _ =>
      if (c0 =? 60) && re_word c1 && (re_space c2 || (c2 =? 62) || (c2 =? 47))
      then Some 3%nat else None
  | _ => None
  end.

(** [original.match(/<\w[\s>/]/)] as the condition of the [if]. *)
Definition looksLikeMarkup (original : jsstring) : bool :=
  re_test re_markup None original.

(** The markup pattern in the words of the specification, to compare with
    [looksLikeMarkup]: a [<], then a word character, then white space or
    the two units [/>]. *)
Definition worded_markup_at (s : jsstring) : bool :=
  match s with
  | c0 :: c1 :: c2 :: rest =>
      (c0 =? 60) && re_word c1
      && (re_space c2 || ((c2 =? 47) && match rest with c3 :: _ => c3 =? 62 | [] => false end))
  | _ => false
  end.

Fixpoint worded_markup (s : jsstring) : bool :=
  match s with
  | [] => false
  | _ :: t => worded_markup_at s || worded_markup t
  end.

(** [content.replace(/\.tsx/g, '.jsx')] in [updateFileReferences]. *)
Definition rewriteReferences (content : jsstring) : jsstring :=
  replaceLit (js ".tsx") (js ".jsx") content.

(** [/import\s+type\s+[^;]+;/]: after [type] the text up to the first
    semicolon has to start with white space and to go on for at least one
    more unit (which the backtracking [\s+] leaves to [[^;]+]). *)
Definition re_import_type : matcher := fun _ s =>
  s1 ← strip (js "import") s;
  s2 ← spaces1 s1;
  s3 ← strip (js "type") s2;
  match s3 with
  | c :: s4 =>
      if re_space c then
        '(u, rest) ← upto 59 s4;
        if bool_decide (u = []) then None else matched s rest
      else None
  | [] => None
  end.

(** [/import\s*\{[^}]*type[^}]*\}\s*from\s*[''][^'']+['']/]: the class
    [['']] holds the single quote only. *)
Definition re_import_braces_type : matcher := fun _ s =>
  s1 ← strip (js "import") s;
  s2 ← strip [123] (spaces s1);
  '(names, s3) ← upto 125 s2;
  if includes (js "type") names then
    s4 ← strip (js "from") (spaces s3);
    s5 ← strip [quote] (spaces s4);
    '(module, rest) ← upto quote s5;
    if bool_decide (module = []) then None else matched s rest
  else None.

(** [/^\s*\n/m]: at the start of a line, the white space up to its last
    line feed. *)
Fixpoint last_newline (w : jsstring) : option nat :=
  match w with
  | [] => None
  | c :: w' =>
      match last_newline w' with
      | Some k => Some (S k)
      | None => if c =? newline then Some 0%nat else None
      end
  end.

Definition at_line_start (prev : option N) : bool :=
  match prev with
  | None => true
  | Some c => line_terminator c
  end.

Definition re_blank_line : matcher := fun prev s =>
  if at_line_start prev then S <$> last_newline (fst (span re_space s)) else None.

(** [/(import\s+\{[^}]*\}\s+from\s+['"]node:path['"];?)/] *)
Definition is_quote (c : N) : bool := (c =? quote) || (c =? dquote).

Definition strip_if (f : N -> bool) (s : jsstring) : option jsstring :=
  match s with
  | c :: t => if f c then Some t else None
  | [] => None
  end.

Definition re_import_node_path : matcher := fun _ s =>
  s1 ← strip (js "import") s;
  s2 ← spaces1 s1;
  s3 ← strip [123] s2;
  '(_, s4) ← upto 125 s3;
  s5 ← spaces1 s4;
  s6 ← strip (js "from") s5;
  s7 ← spaces1 s6;
  s8 ← strip_if is_quote s7;
  s9 ← strip (js "node:path") s8;
  s10 ← strip_if is_quote s9;
  matched s (default s10 (strip [59] s10)).

Definition ignores_kw : jsstring := js "ignores:".

(** The pattern of [updateOutputEslintConfig]: [ignores:], [\s*], an
    opening bracket, the capture group of everything before the next
    closing bracket, and that closing bracket. *)
Definition re_ignores : matcher := fun _ s =>
  s1 ← strip (js "ignores:") s;
  s2 ← strip [91] (spaces s1);
  '(_, rest) ← upto 93 s2;
  matched s rest.

(** The blade directive of [app.blade.php]:
    [@vite(['resources/js/app.tsx',\s*"resources/js/pages/{$page['component']}.tsx"])] *)
Definition blade_head : jsstring := js "@vite(['resources/js/app.tsx',".
Definition blade_tail : jsstring :=
  dquote :: js "resources/js/pages/{$page['component']}.tsx" ++ dquote :: js "])".

Definition re_blade : matcher := fun _ s =>
  s1 ← strip blade_head s;
  s2 ← strip blade_tail (spaces s1);
  matched s s2.

Definition blade_new : jsstring :=
  js "@vite(['resources/js/app.jsx', " ++ dquote
    :: js "resources/js/pages/{$page['component']}.jsx" ++ dquote :: js "])".

Definition rewriteBlade (content : jsstring) : jsstring :=
  replaceAll re_blade (fun _ => blade_new) content.

(** *** The lint configuration: [updateOutputEslintConfig] *)

(** The filter of the replacement callback: drop empty items and items
    that contain the word output in single or in double quotes, or the
    word output right after such a quote and followed by a slash. *)
Definition keepIgnore (item : jsstring) : bool :=
  negb (bool_decide (item = []))
  && negb (includes (quote :: js "output" ++ [quote]) item)
  && negb (includes (dquote :: js "output" ++ [dquote]) item)
  && negb (includes (quote :: js "output/") item)
  && negb (includes (dquote :: js "output/") item).

(** The items of the list, as the callback sees them:
    [ignoresList.split(',').map(item => item.trim())]. *)
Definition ignoreItems (ignoresList : jsstring) : list jsstring :=
  List.map trim (split 44 ignoresList).

Definition newIgnores (ignoresList : jsstring) : jsstring :=
  join (js ", ") (List.filter keepIgnore (ignoreItems ignoresList)).

(** The capture group, read back from the matched text: what stands
    between the first opening bracket and the closing bracket that ends
    the match. *)
Definition ignoresList (matched : jsstring) : jsstring :=
  removelast (drop 1 (snd (span (fun c => negb (c =? 91)) matched))).

(** What the specification calls an entry that textually references the
    staging output directory name, to compare with [keepIgnore]. *)
Definition mentions_output (item : jsstring) : bool := includes (js "output") item.

(** The items that the callback keeps: trimmed, without a comma, and kept
    again by the filter. *)
Definition clean_item (x : jsstring) : Prop :=
  trim x = x /\ Forall (fun c => c <> 44) x /\ keepIgnore x = true.

Definition rewriteIgnores (content : jsstring) : jsstring :=
  replaceFirst re_ignores
    (fun m => js "ignores: [" ++ newIgnores (ignoresList m) ++ js "]") content.

(** *** The bundler configuration: the [vite.config.ts] block of [run] *)

Definition dirname_new : jsstring :=
  js "fileURLToPath(new URL('.', import.meta.url))".

Definition url_import : jsstring :=
  newline :: js "import { fileURLToPath, URL } from 'node:url';".

(** The chain of five [replace] calls. *)
Definition stripTypes (content : jsstring) : jsstring :=
  let content := replaceAll re_import_type (fun _ => []) content in
  let content := replaceAll re_import_braces_type (fun _ => []) content in
  let content :=
    replaceLit (js "resources/js/app.tsx") (js "resources/js/app.jsx") content in
  let content :=
    replaceLit (js "resources/js/ssr.tsx") (js "resources/js/ssr.jsx") content in
  replaceAll re_blank_line (fun _ => []) content.

(** The [__dirname] fix for ESM. *)
Definition fixDirname (content : jsstring) : jsstring :=
  if includes (js "__dirname") content then
    let content :=
      if negb (includes (js "fileURLToPath") content)
      then replaceFirst re_import_node_path (fun m => m ++ url_import) content
      else content in
    replaceLit (js "__dirname") dirname_new content
  else content.

Definition rewriteViteConfig (content : jsstring) : jsstring :=
  fixDirname (stripTypes content).

(** The two source paths that [stripTypes] retargets. *)
Definition app_tsx : jsstring := js "resources/js/app.tsx".
Definition ssr_tsx : jsstring := js "resources/js/ssr.tsx".

(** The two source paths: what holds for both. *)
Definition source_path (q : jsstring) : Prop := q = app_tsx \/ q = ssr_tsx.

(** *** [convertViteConfig] and [convertBladeTemplate]

    The two methods that [run] no longer calls retarget the paths to
    [output/js]. *)

Definition convertViteText (content : jsstring) : jsstring :=
  let content := replaceAll re_import_type (fun _ => []) content in
  let content := replaceAll re_import_braces_type (fun _ => []) content in
  let content :=
    replaceLit (js "resources/js/app.tsx") (js "output/js/app.jsx") content in
  let content :=
    replaceLit (js "resources/js/ssr.tsx") (js "output/js/ssr.jsx") content in
  replaceAll re_blank_line (fun _ => []) content.

Definition blade_output : jsstring :=
  js "@vite(['output/js/app.jsx', " ++ dquote
    :: js "output/js/pages/{$page['component']}.jsx" ++ dquote :: js "])".

Definition convertBladeText (content : jsstring) : jsstring :=
  replaceAll re_blade (fun _ => blade_output) content.

(** *** The package metadata: the [package.json] block of [run] *)

Section PackageJson.

Context {number : Type} (number_truthy : number -> bool).

(** [name.replace('react-starter-kit', 'react-jsx-starter-kit')]: a string
    pattern replaces its first occurrence. *)
Definition renamePackage (name : jsstring) : jsstring :=
  replaceFirst (lit (js "react-starter-kit")) (fun _ => js "react-jsx-starter-kit") name.

Definition rewriteDescription (description : jsstring) : jsstring :=
  replaceFirst (lit (js "TypeScript")) (fun _ => js "JavaScript/JSX") description.

Definition typeDependencies : list jsstring :=
  [js "typescript"; js "@types/node"; js "@types/react"; js "@types/react-dom"].

(** The [package.json] block of [run], on the parsed value.  Calling
    [includes] or [replace] on a value that has no such method is a
    [TypeError]; an array has [includes] but no [replace]. *)
Definition updateName (fs : fields number) : result (fields number) :=
  let name := field (js "name") fs in
  if truthy number_truthy name then
    match name with
    | Some (JString s) =>
        if includes (js "react-starter-kit") s
        then Ok (setField (js "name") (JString (renamePackage s)) fs)
        else Ok fs
    | Some (JArray items) =>
        if existsb (fun v => match v with
                             | JString s => bool_decide (s = js "react-starter-kit")
                             | _ => false
                             end) items
        then Throw else Ok fs
    | _ => Throw
    end
  else Ok fs.

Definition updateDescription (fs : fields number) : result (fields number) :=
  let description := field (js "description") fs in
  if truthy number_truthy description then
    match description with
    | Some (JString s) =>
        Ok (setField (js "description") (JString (rewriteDescription s)) fs)
    | _ => Throw
    end
  else Ok fs.

Definition removeTypeDependencies (fs : fields number) : fields number :=
  match field (js "devDependencies") fs with
  | Some (JObject deps) =>
      setField (js "devDependencies")
        (JObject (fold_left (fun d k => deleteField k d) typeDependencies deps)) fs
  | _ => fs
  end.

Definition rewritePackageJson (packageJson : json number) : result (json number) :=
  match packageJson with
  | JObject fs =>
      match updateName fs with
      | Ok fs1 =>
          match updateDescription fs1 with
          | Ok fs2 => Ok (JObject (removeTypeDependencies fs2))
          | Throw => Throw
          end
      | Throw => Throw
      end
  | JNull => Throw
  | _ => Ok packageJson
  end.

(** [composerJson.name = 'aliziodev/react-jsx-starter-kit'] and
    [componentsJson.tsx = false]: an assignment to a property of [null]
    throws, one to a property of another primitive throws too (modules are
    strict code), one to an array adds a named property that
    [JSON.stringify] does not print. *)
Definition assignField (key : jsstring) (v : json number) (obj : json number)
    : result (json number) :=
  match obj with
  | JObject fs => Ok (JObject (setField key v fs))
  | JArray _ => Ok obj
  | _ => Throw
  end.

(** The name and the description have nothing left to replace. *)
Definition settled (fs : fields number) : Prop :=
  (forall s, field (js "name") fs = Some (JString s) ->
             includes (js "react-starter-kit") s = false) /\
  (forall s, field (js "description") fs = Some (JString s) ->
             includes (js "TypeScript") s = false).

End PackageJson.

(** ** The conversion script: [class UnifiedConverter] *)

Section UnifiedConverter.

(** The world outside the script. *)
Context {number : Type} (number_truthy : number -> bool).
(** [JSON.parse] ([None]: it throws a [SyntaxError]) and [JSON.stringify]
    with its indentation. *)
Variable JSON_parse : jsstring -> option (json number).
Variable JSON_stringify : json number -> nat -> jsstring.
(** The child processes. *)
Variable spawn : command -> node -> result jsstring * node.
(** [glob(dir + '/**/*.{js,jsx}')], on the tree as it is. *)
Variable glob : path -> node -> list path.
(** [process.cwd()], for the absolute paths in the compiler options. *)
Variable cwd : jsstring.

Definition sourceDir : path := [js "resources"; js "js"].
Definition outputDir : path := [js "output"].
Definition jsOutputDir : path := outputDir ++ [js "js"].
Definition tsconfigPath : path := [js "tsconfig.temp.json"].

(** The absolute path string of a path below the working directory. *)
Definition resolved (p : path) : jsstring :=
  fold_left (fun acc seg => acc ++ js "/" ++ seg) p cwd.

Definition ensureDirectory (dir : path) : M unit :=
  e ← existsSync dir; when (negb e) (mkdirSync dir).

Definition checkDependencies : M bool :=
  catch (execSync spawn TscVersion;; ret true) (ret false).

Definition tsconfig : json number :=
  JObject
    [ (js "compilerOptions", JObject
        [ (js "jsx", JString (js "preserve"));
          (js "target", JString (js "ES2020"));
          (js "lib", JArray [JString (js "ES2020"); JString (js "DOM");
                            JString (js "DOM.Iterable")]);
          (js "allowJs", JBool true);
          (js "skipLibCheck", JBool true);
          (js "esModuleInterop", JBool true);
          (js "allowSyntheticDefaultImports", JBool true);
          (js "strict", JBool false);
          (js "forceConsistentCasingInFileNames", JBool false);
          (js "noEmit", JBool false);
          (js "module", JString (js "ESNext"));
          (js "moduleResolution", JString (js "node"));
          (js "resolveJsonModule", JBool true);
          (js "isolatedModules", JBool true);
          (js "noEmitOnError", JBool false);
          (js "declaration", JBool false);
          (js "sourceMap", JBool false);
          (js "baseUrl", JString (js "."));
          (js "paths", JObject [(js "@/*", JArray [JString (js "./resources/js/*")])]);
          (js "outDir", JString (resolved jsOutputDir));
          (js "rootDir", JString (resolved sourceDir));
          (js "noImplicitAny", JBool false);
          (js "noImplicitReturns", JBool false);
          (js "noImplicitThis", JBool false);
          (js "noUnusedLocals", JBool false);
          (js "noUnusedParameters", JBool false) ]);
      (js "include", JArray [JString (resolved sourceDir)]);
      (js "exclude", JArray [JString (js "node_modules"); JString (js "output");
                            JString (js "**/*.d.ts")]) ].

Definition createTempTsConfig : M unit :=
  writeFileSync tsconfigPath (JSON_stringify tsconfig 2).

(** [fs.existsSync(this.jsOutputDir) &&
     fs.readdirSync(this.jsOutputDir).length > 0] *)
Definition hasOutput : M bool :=
  e ← existsSync jsOutputDir;
  if e : bool then items ← readdirSync jsOutputDir; ret (negb (bool_decide (items = [])))
  else ret false.

Definition convertTypeScriptFiles : M bool :=
  catch (execSync spawn (Tsc false);; ret true)
    (outputExists ← hasOutput;
     if outputExists : bool then ret true
     else
       catch (execSync spawn (Tsc true);; ret true)
         (retryOutputExists ← hasOutput;
          if retryOutputExists : bool then ret true else ret false)).

(** What the compiler left in its output directory: nothing (no
    directory, or an empty one), or something. *)
Definition no_output (t : node) : Prop :=
  lookup jsOutputDir t = None \/ lookup jsOutputDir t = Some (Dir []).
Definition some_output (t : node) : Prop :=
  exists e es, lookup jsOutputDir t = Some (Dir (e :: es)).

Definition is_tsc (cmd : command) : Prop :=
  match cmd with Tsc _ => True | _ => False end.

(** [file.endsWith('.js')]: a path string ends the way its last segment
    does, since the suffix holds no separator. *)
Definition pathEndsWith (suffix : jsstring) (file : path) : bool :=
  match last file with
  | Some name => endsWith suffix name
  | None => false
  end.

(** [file.replace(/\.js$/, '.jsx')] for a [file] that ends in [.js]. *)
Definition jsxName (file : path) : path :=
  match last file with
  | Some name => removelast file ++ [name ++ js "x"]
  | None => file
  end.

(** The body of the loop of [processJavaScriptFiles], with its
    [try]/[catch]. *)
Definition processJavaScriptFile (file : path) : M unit :=
  catch
    (original ← readFileSync file;
     if pathEndsWith (js ".js") file && looksLikeMarkup original
     then renameSync file (jsxName file)
     else ret tt)
    (ret tt).

Definition processJavaScriptFiles : M unit :=
  t ← get; forEach (glob jsOutputDir t) processJavaScriptFile.

(** A scanned file that the classifier is to rename: a file whose name
    ends in [.js] and whose content looks like markup. *)
Definition marked (t : node) (file : path) (original : jsstring) : Prop :=
  lookup file t = Some (File original) /\
  pathEndsWith (js ".js") file = true /\
  looksLikeMarkup original = true.

Definition entryFiles : list path :=
  [jsOutputDir ++ [js "app.jsx"]; jsOutputDir ++ [js "ssr.jsx"]].

(** The body of the loop of [updateFileReferences]. *)
Definition updateFileReference (file : path) : M unit :=
  e ← existsSync file;
  when e
    (catch
       (content ← readFileSync file;
        writeFileSync file (rewriteReferences content))
       (ret tt)).

Definition updateFileReferences : M unit :=
  forEach entryFiles updateFileReference.

Definition convertViteConfig : M bool :=
  let sourceFile := [js "vite.config.ts"] in
  let outputFile := outputDir ++ [js "vite.config.js"] in
  e ← existsSync sourceFile;
  if negb e then ret false
  else
    content ← readFileSync sourceFile;
    writeFileSync outputFile (convertViteText content);;
    ret true.

Definition convertBladeTemplate : M bool :=
  let sourceFile := [js "resources"; js "views"; js "app.blade.php"] in
  let outputViewsDir := outputDir ++ [js "views"] in
  let outputFile := outputViewsDir ++ [js "app.blade.php"] in
  e ← existsSync sourceFile;
  if negb e then ret false
  else
    ensureDirectory outputViewsDir;;
    content ← readFileSync sourceFile;
    writeFileSync outputFile (convertBladeText content);;
    ret true.

(** [glob(dir + '/**/*.{ts,tsx}')], on the tree as it is. *)
Variable globSources : path -> node -> list path.

(** The five numbers that [generateStats] prints. *)
Record stats := Stats {
  sourceFiles : nat;
  jsOutputs : nat;
  configOutputs : nat;
  viewOutputs : nat;
  totalOutputs : nat
}.

Definition generateStats : M stats :=
  t ← get;
  let sources := globSources sourceDir t in
  let jsOutputs := glob jsOutputDir t in
  c ← existsSync (outputDir ++ [js "vite.config.js"]);
  v ← existsSync (outputDir ++ [js "views"; js "app.blade.php"]);
  let configOutputs := if c : bool then 1%nat else 0%nat in
  let viewOutputs := if v : bool then 1%nat else 0%nat in
  ret (Stats (length sources) (length jsOutputs) configOutputs viewOutputs
         (length jsOutputs + configOutputs + viewOutputs)).

Definition cleanup : M unit :=
  e ← existsSync tsconfigPath; when e (rmSync tsconfigPath).

(** *** Copying the project

    The recursive copies walk the source directory as it was when the
    copy started: they write below [output] only, and the walk of
    [copyProjectFiles] never enters a directory called [output] (nor does
    the source of [copyDirectory] contain its target). *)

Definition excludeDirs : list jsstring :=
  [js "output"; js "node_modules"; js "scripts"; js "vendor"; js "templates";
   js "storage/logs"; js ".git"].
Definition excludeFiles : list jsstring :=
  [js "composer.lock"; js ".env"; js "workflow-test-report.json"].

Fixpoint copyProjectFiles (source : node) (target : path)
    (excludeDirs excludeFiles : list jsstring) : M unit :=
  match source with
  | File _ => throw
  | Dir items =>
      forEach items (fun entry =>
        let item := entry.1 in
        if bool_decide (item ∈ excludeDirs) || bool_decide (item ∈ excludeFiles)
        then ret tt
        else if bool_decide (item = js ".github") then ret tt
        else
          match entry.2 with
          | Dir _ =>
              ensureDirectory (target ++ [item]);;
              copyProjectFiles entry.2 (target ++ [item]) excludeDirs excludeFiles
          | File content => writeFileSync (target ++ [item]) content
          end)
  end.

(** The test of the loop on a name, and the tree that the copy is to
    yield: the source without the entries that fail the test, at any
    depth. *)
Definition kept (excludeDirs excludeFiles : list jsstring) (item : jsstring) : bool :=
  negb (bool_decide (item ∈ excludeDirs) || bool_decide (item ∈ excludeFiles))
  && negb (bool_decide (item = js ".github")).

Fixpoint mirror (excludeDirs excludeFiles : list jsstring) (t : node) : node :=
  match t with
  | File c => File c
  | Dir es =>
      Dir (List.filter (fun e => kept excludeDirs excludeFiles (fst e))
             (List.map (fun e => (fst e, mirror excludeDirs excludeFiles (snd e))) es))
  end.

Definition copyProjectStructure : M unit :=
  root ← get;
  copyProjectFiles root outputDir excludeDirs excludeFiles;;
  let workflowsSource := [js ".github"; js "workflows"] in
  let workflowsTarget := outputDir ++ [js ".github"; js "workflows"] in
  e ← existsSync workflowsSource;
  when e
    (ensureDirectory workflowsTarget;;
     forEach [js "lint.yml"; js "tests.yml"] (fun workflow =>
       e ← existsSync (workflowsSource ++ [workflow]);
       when e (copyFileSync (workflowsSource ++ [workflow])
                            (workflowsTarget ++ [workflow]))));;
  let templateWorkflowSource :=
    [js "templates"; js "workflows"; js "auto-release.yml"] in
  e ← existsSync templateWorkflowSource;
  when e
    (ensureDirectory workflowsTarget;;
     copyFileSync templateWorkflowSource (workflowsTarget ++ [js "auto-release.yml"])).

Fixpoint copyDirectory (source : node) (target : path) : M unit :=
  e ← existsSync target;
  when (negb e) (mkdirSync target);;
  match source with
  | File _ => throw
  | Dir items =>
      forEach items (fun entry =>
        match entry.2 with
        | Dir _ => copyDirectory entry.2 (target ++ [entry.1])
        | File content => writeFileSync (target ++ [entry.1]) content
        end)
  end.

Definition updateOutputEslintConfig : M unit :=
  let outputEslintConfig := outputDir ++ [js "eslint.config.js"] in
  e ← existsSync outputEslintConfig;
  when e
    (content ← readFileSync outputEslintConfig;
     writeFileSync outputEslintConfig (rewriteIgnores content)).

(** *** The stages of [run] after the compiler *)

Definition replaceResourcesJs : M unit :=
  let outputResourcesJs := outputDir ++ [js "resources"; js "js"] in
  e ← existsSync outputResourcesJs;
  when e (rmSyncRecursive outputResourcesJs);;
  t ← get;
  match lookup jsOutputDir t with
  | Some source => copyDirectory source outputResourcesJs
  | None =>
      (* [copyDirectory] makes its target before [readdirSync] throws *)
      e ← existsSync outputResourcesJs;
      when (negb e) (mkdirSync outputResourcesJs);;
      throw
  end.

Definition convertOutputViteConfig : M unit :=
  let outputViteConfigTs := outputDir ++ [js "vite.config.ts"] in
  let outputViteConfigJs := outputDir ++ [js "vite.config.js"] in
  e ← existsSync outputViteConfigTs;
  when e
    (content ← readFileSync outputViteConfigTs;
     writeFileSync outputViteConfigJs (rewriteViteConfig content);;
     rmSync outputViteConfigTs).

Definition updateOutputBlade : M unit :=
  let outputBladeFile :=
    outputDir ++ [js "resources"; js "views"; js "app.blade.php"] in
  e ← existsSync outputBladeFile;
  when e
    (content ← readFileSync outputBladeFile;
     writeFileSync outputBladeFile (rewriteBlade content)).

Definition removeTsConfigFiles : M unit :=
  forEach [js "tsconfig.json"; js "tsconfig.node.json"] (fun file =>
    e ← existsSync (outputDir ++ [file]);
    when e (rmSync (outputDir ++ [file]))).

Definition removeTypesDir : M unit :=
  let typesDir := outputDir ++ [js "resources"; js "js"; js "types"] in
  e ← existsSync typesDir;
  when e (rmSyncRecursive typesDir).

(** [JSON.parse(fs.readFileSync(file, 'utf8'))], an update of the value,
    and [fs.writeFileSync(file, JSON.stringify(value, null, indent))]. *)
Definition updateJsonFile (file : path)
    (f : json number -> result (json number)) (indent : nat) : M unit :=
  e ← existsSync file;
  when e
    (text ← readFileSync file;
     match JSON_parse text with
     | None => throw
     | Some value =>
         match f value with
         | Ok value' => writeFileSync file (JSON_stringify value' indent)
         | Throw => throw
         end
     end).

Definition updatePackageJson : M unit :=
  updateJsonFile (outputDir ++ [js "package.json"])
    (rewritePackageJson number_truthy) 2.

Definition updateComposerJson : M unit :=
  updateJsonFile (outputDir ++ [js "composer.json"])
    (assignField (js "name") (JString (js "aliziodev/react-jsx-starter-kit"))) 4.

Definition updateComponentsJson : M unit :=
  updateJsonFile (outputDir ++ [js "components.json"])
    (assignField (js "tsx") (JBool false)) 4.

Definition templateReadme : jsstring :=
  join [newline] [
    js "# Laravel + React JSX Starter Kit";
    [];
    js "## Introduction";
    [];
    js "Our React JSX starter kit provides a robust, modern starting point for building Laravel applications with a React frontend using [Inertia](https://inertiajs.com), using **JavaScript/JSX instead of TypeScript** for broader accessibility.";
    [];
    js "Inertia allows you to build modern, single-page React applications using classic server-side routing and controllers. This lets you enjoy the frontend power of React combined with the incredible backend productivity of Laravel and lightning-fast Vite compilation.";
    [];
    js "This React starter kit utilizes React 19, **JavaScript/JSX**, Tailwind, and the [shadcn/ui](https://ui.shadcn.com) and [radix-ui](https://www.radix-ui.com) component libraries.";
    [];
    js "> **Note:** This template is automatically generated from [aliziodev/react-jsx-starter-kit-dev](https://github.com/aliziodev/react-jsx-starter-kit-dev) based on the original Laravel React starter kit repository. The conversion process transforms TypeScript files to JavaScript/JSX for broader accessibility.";
    [];
    js "## Usage";
    [];
    js "```bash";
    js "laravel new my-app --using=aliziodev/react-jsx-starter-kit";
    js "```";
    [];
    js "## Official Documentation";
    [];
    js "Documentation for all Laravel starter kits can be found on the [Laravel website](https://laravel.com/docs/starter-kits).";
    [];
    js "## Contributing";
    [];
    js "Thank you for considering contributing to our starter kit! The contribution guide can be found in the [Laravel documentation](https://laravel.com/docs/contributions).";
    [];
    js "## Code of Conduct";
    [];
    js "In order to ensure that the Laravel community is welcoming to all, please review and abide by the [Code of Conduct](https://laravel.com/docs/contributions#code-of-conduct).";
    [];
    js "## License";
    [];
    js "The Laravel + React JSX starter kit is open-sourced software licensed under the MIT license.";
    [] ].

Definition updateReadme : M unit :=
  let outputReadme := outputDir ++ [js "README.md"] in
  e ← existsSync outputReadme;
  when e (writeFileSync outputReadme templateReadme).

Definition removeTempFiles : M unit :=
  forEach [outputDir ++ [js "tsconfig.temp.json"]; outputDir ++ [js "js"]]
    (fun tempFile =>
       e ← existsSync tempFile;
       when e
         (d ← isDirectory tempFile;
          if d : bool then rmSyncRecursive tempFile else rmSync tempFile)).

(** Everything that [run] does once [convertTypeScriptFiles] has returned
    [true].  [generateStats] only reads and prints. *)
Definition downstream : M unit :=
  processJavaScriptFiles;;
  updateFileReferences;;
  replaceResourcesJs;;
  convertOutputViteConfig;;
  updateOutputBlade;;
  removeTsConfigFiles;;
  removeTypesDir;;
  updatePackageJson;;
  updateComposerJson;;
  updateComponentsJson;;
  updateReadme;;
  removeTempFiles;;
  cleanup.

(** *** [run] *)

(** The staging tree, the compiler's own output directory left aside. *)
Definition staging_besides_js (t : node) : option node :=
  lookup outputDir (remove jsOutputDir t).

(** The staging directory as [cleanOutput] leaves it: empty but for the
    empty directory that awaits the compiler. *)
Definition fresh_staging : node := Dir [(js "js", Dir [])].

(** "Setup - Clean output directory completely" *)
Definition cleanOutput : M unit :=
  e ← existsSync outputDir;
  when e (rmSyncRecursive outputDir);;
  ensureDirectory outputDir;;
  ensureDirectory jsOutputDir.

(** What [run] does with the clean staging directory. *)
Definition convert : M unit :=
  copyProjectStructure;;
  updateOutputEslintConfig;;
  createTempTsConfig;;
  converted ← convertTypeScriptFiles;
  if negb converted then ret tt else downstream.

Definition run : M unit :=
  deps ← checkDependencies;
  if negb deps then ret tt
  else
    e ← existsSync sourceDir;
    if negb e then ret tt
    else cleanOutput;; convert.

End UnifiedConverter.

End Converter.

(** ** The self-test: [class WorkflowTester] *)

Module Tester.

(** [parseInt(s)] with no radix; [None] is [NaN].  Leading white space, a
    sign, a [0x] prefix, then the longest run of digits. *)
Definition digit (radix : N) (c : N) : option N :=
  let d :=
    if (48 <=? c) && (c <=? 57) then Some (c - 48)
    else if (97 <=? c) && (c <=? 122) then Some (c - 87)
    else if (65 <=? c) && (c <=? 90) then Some (c - 55)
    else None in
  d ≫= fun v => if v <? radix then Some v else None.

Definition digits (radix : N) (s : jsstring) : option N :=
  let run := fst (span (fun c => bool_decide (is_Some (digit radix c))) s) in
  match run with
  | [] => None
  | _ => Some (fold_left (fun acc c => acc * radix + default 0 (digit radix c)) run 0)
  end.

Definition parseInt (s : jsstring) : option Z :=
  let s := trimStart s in
  let '(negative, s) :=
    match s with
    | 45 :: t => (true, t)
    | 43 :: t => (false, t)
    | _ => (false, s)
    end in
  let '(radix, s) :=
    match s with
    | 48 :: 120 :: t | 48 :: 88 :: t => (16, t)
    | _ => (10, s)
    end in
  (fun n => if negative : bool then (- Z.of_N n)%Z else Z.of_N n) <$> digits radix s.

(** The validator of the Node.js check:
    [parseInt(version.replace('v', '').split('.')[0]) >= 18]; a comparison
    with [NaN] is false. *)
Definition nodeVersionOk (output : jsstring) : bool :=
  let version := trim output in
  let major :=
    parseInt (default [] (head (split 46 (replaceFirst (lit (js "v")) (fun _ => []) version)))) in
  match major with
  | Some m => (18 <=? m)%Z
  | None => false
  end.

Section WorkflowTester.

Context {number : Type}.
Variable JSON_stringify : json number -> nat -> jsstring.
Variable spawn : command -> node -> result jsstring * node.
(** [new Date().toISOString()] when the report is made. *)
Variable now : jsstring.

Definition outputDir : path := [js "output"].

(** [{ success: true, output }] or [{ success: false, error }]: the
    callers read [success] only. *)
Definition runCommand (cmd : command) : M bool :=
  catch (execSync spawn cmd;; ret true) (ret false).

Definition prerequisites : list (command * option (jsstring -> bool)) :=
  [ (NodeVersion, Some nodeVersionOk);
    (NpmVersion, None);
    (TscVersion, None);
    (PrettierVersion, None);
    (GitVersion, None) ].

(** One round of the loop of [checkPrerequisites]: whether the check
    passed. *)
Definition checkPrerequisite (check : command * option (jsstring -> bool)) : M bool :=
  catch
    (result ← execSync spawn check.1;
     match check.2 with
     | Some validator => ret (validator result)
     | None => ret true
     end)
    (ret false).

(** A loop that clears a flag whenever a round fails. *)
Definition allOf {A} (xs : list A) (round : A -> M bool) : M bool :=
  (fix each (xs : list A) (flag : bool) : M bool :=
     match xs with
     | [] => ret flag
     | x :: xs' => ok ← round x; each xs' (if ok : bool then flag else false)
     end) xs true.

Definition checkPrerequisites : M bool := allOf prerequisites checkPrerequisite.

Definition requiredFiles : list path :=
  [ [js "package.json"];
    [js "resources"; js "js"; js "app.tsx"];
    [js "resources"; js "js"; js "ssr.tsx"];
    [js "vite.config.ts"];
    [js "resources"; js "views"; js "app.blade.php"];
    [js "scripts"; js "run-conversion.js"] ].

Definition requiredDirs : list path :=
  [ [js "resources"; js "js"; js "components"];
    [js "resources"; js "js"; js "pages"];
    [js "resources"; js "js"; js "layouts"];
    [js "resources"; js "js"; js "hooks"] ].

(** [fs.existsSync(p) && fs.statSync(p).isDirectory()] *)
Definition isExistingDirectory (p : path) : M bool :=
  e ← existsSync p; if e : bool then isDirectory p else ret false.

(** The two loops of [checkProjectStructure] and of
    [verifyConversionOutput]. *)
Definition allPresent (files dirs : list path) : M bool :=
  f ← allOf files existsSync;
  d ← allOf dirs isExistingDirectory;
  ret (f && d).

Definition checkProjectStructure : M bool := allPresent requiredFiles requiredDirs.

Definition requiredOutputFiles : list path :=
  [ [js "output"; js "resources"; js "js"; js "app.jsx"];
    [js "output"; js "resources"; js "js"; js "ssr.jsx"];
    [js "output"; js "vite.config.js"];
    [js "output"; js "resources"; js "views"; js "app.blade.php"];
    [js "output"; js "package.json"] ].

Definition requiredOutputDirs : list path :=
  [ [js "output"; js "resources"; js "js"; js "components"];
    [js "output"; js "resources"; js "js"; js "pages"];
    [js "output"; js "resources"; js "js"; js "layouts"];
    [js "output"; js "resources"; js "js"; js "hooks"] ].

(** The counting of the converted files, the look at [package.json] and
    at the [types] directory only print warnings; of these only the
    [find] pipeline is a child process. *)
Definition verifyConversionOutput : M bool :=
  allValid ← allPresent requiredOutputFiles requiredOutputDirs;
  catch (execSync spawn FindCount;; ret tt) (ret tt);;
  ret allValid.

(** [countFilesRecursive], the fallback of the count where [find] is
    missing: the walk below a directory that exists. *)
Fixpoint countBelow (extensions : list jsstring) (t : node) : nat :=
  match t with
  | File _ => 0%nat
  | Dir items =>
      fold_left (fun count entry =>
        match snd entry with
        | Dir _ => (count + countBelow extensions (snd entry))%nat
        | File _ =>
            if existsb (fun ext => endsWith ext (fst entry)) extensions
            then S count else count
        end) items 0%nat
  end.

Definition countFilesRecursive (dir : path) (extensions : list jsstring) : M nat :=
  e ← existsSync dir;
  if negb e then ret 0%nat
  else
    t ← get;
    match lookup dir t with
    | Some (Dir items) => ret (countBelow extensions (Dir items))
    | _ => throw
    end.

Definition testConversion : M bool :=
  e ← existsSync outputDir;
  when e (rmSyncRecursive outputDir);;
  success ← runCommand RunConversion;
  if negb success then ret false else verifyConversionOutput.

Definition testWorkflowComponents : M bool :=
  forEach [GitStatus; GitRemote] (fun test => runCommand test;; ret tt);;
  runCommand NpmList;;
  ret true.

Definition report : json number :=
  JObject
    [ (js "timestamp", JString now);
      (js "project", JString (js "react-jsx-starter-kit-dev"));
      (js "workflow", JString (js "sync-and-deploy"));
      (js "status", JString (js "completed"));
      (js "summary", JObject
        [ (js "prerequisites", JString (js "passed"));
          (js "structure", JString (js "passed"));
          (js "conversion", JString (js "passed"));
          (js "components", JString (js "passed")) ]) ].

Definition reportPath : path := [js "workflow-test-report.json"].

(** The report can be written: the working directory is a directory and
    no directory has the name of the report. *)
Definition report_writable (t : node) : Prop :=
  exists es, t = Dir es /\
    forall es', entry_lookup (js "workflow-test-report.json") es <> Some (Dir es').

Definition generateReport : M (json number) :=
  writeFileSync reportPath (JSON_stringify report 2);;
  ret report.

(** [run], up to the [process.exit(code)] that ends it: the exit code. *)
Definition run : M Z :=
  let allTestsPassed := true in
  prerequisites ← checkPrerequisites;
  let allTestsPassed := if negb prerequisites then false else allTestsPassed in
  structure ← checkProjectStructure;
  let allTestsPassed := if negb structure then false else allTestsPassed in
  conversion ← testConversion;
  let allTestsPassed := if negb conversion then false else allTestsPassed in
  components ← testWorkflowComponents;
  let allTestsPassed := if negb components then false else allTestsPassed in
  generateReport;;
  if allTestsPassed then ret 0%Z else ret 1%Z.

(** [tester.run().catch(error => { ...; process.exit(1) })]: the exit code
    of the process and the world it leaves. *)
Definition main (w : world) : Z * world :=
  match run w with
  | (Ok code, w') => (code, w')
  | (Throw, w') => (1%Z, w')
  end.

End WorkflowTester.

End Tester.

(** ** Sample inputs *)

Import Converter.

Definition entry_world : world :=
  World
    (Dir [(js "output", Dir [(js "js", Dir
       [(js "app.jsx", File (js "import './pages/welcome.tsx';"))])])])
    [].

Definition classifier_world : world :=
  World
    (Dir [(js "output", Dir [(js "js", Dir
       [(js "Button.js", File (js "export const b = <b>ok</b>;"));
        (js "utils.js", File (js "export const cn = (a, b) => a + b;"))])])])
    [].

Definition example_package : fields Z :=
  [ (js "name", JString (js "vendor/react-starter-kit"));
    (js "description", JString (js "A TypeScript starter kit"));
    (js "private", JBool true);
    (js "devDependencies", JObject
      [ (js "@types/node", JString (js "^22.13.5"));
        (js "eslint", JString (js "^9.17.0"));
        (js "typescript", JString (js "^5.7.2"));
        (js "vite", JString (js "^6.0")) ]) ].

Definition truthyZ (z : Z) : bool := negb (z =? 0)%Z.

Definition example_eslint : jsstring :=
  js "export default [{ ignores: ['vendor', 'node_modules', 'output', 'public'] }];".

Definition example_vite : jsstring :=
  js "import { defineConfig } from 'vite';" ++ newline
  :: js "import type { UserConfig } from 'vite';" ++ newline
  :: js "import { resolve } from 'node:path';" ++ newline
  :: newline
  :: js "export default defineConfig({ input: ['resources/js/app.tsx']," ++ newline
  :: js "  ssr: 'resources/js/ssr.tsx', root: resolve(__dirname, 'resources') });"
  ++ [newline].

(** A small project, a compiler that fails, and no compiler. *)

Definition project : node :=
  Dir [ (js "resources", Dir [(js "js", Dir
          [(js "app.tsx", File (js "import './pages/welcome.tsx';"))])]);
        (js "eslint.config.js",
           File (js "export default [{ ignores: ['vendor', 'output'] }];"));
        (js "package.json", File (js "{}"));
        (js "output", Dir [(js "stale.txt", File (js "left by an earlier run"))]) ].

(** The compiler is installed and fails on every project, writing
    nothing. *)
Definition failing_tsc (cmd : command) (t : node) : result jsstring * node :=
  match cmd with
  | TscVersion => (Ok (js "Version 5.7.2"), t)
  | _ => (Throw, t)
  end.

(** Nothing is installed. *)
Definition no_tools (cmd : command) (t : node) : result jsstring * node := (Throw, t).

Definition no_json (text : jsstring) : option (json Z) := None.
Definition flat_json (value : json Z) (indent : nat) : jsstring := js "{}".
Definition no_glob (dir : path) (t : node) : list path := [].

Definition run_failing_tsc : M unit :=
  run truthyZ no_json flat_json failing_tsc no_glob (js "/app").
Definition run_no_tools : M unit :=
  run truthyZ no_json flat_json no_tools no_glob (js "/app").

Definition project_copy : world :=
  Eval vm_compute in
    ((cleanOutput ≫= fun _ => copyProjectStructure) (World project [TscVersion])).2.
Definition project_lint : world :=
  Eval vm_compute in (updateOutputEslintConfig project_copy).2.
Definition project_cfg : world :=
  Eval vm_compute in (createTempTsConfig flat_json (js "/app") project_lint).2.

(** A project that passes the self-test. *)

Definition tester_project : node :=
  Dir [ (js "package.json", File (js "{}"));
        (js "vite.config.ts", File (js "export default {};"));
        (js "resources", Dir
          [ (js "js", Dir
              [ (js "app.tsx", File (js "import './pages/welcome.tsx';"));
                (js "ssr.tsx", File (js "import './pages/welcome.tsx';"));
                (js "components", Dir []); (js "pages", Dir []);
                (js "layouts", Dir []); (js "hooks", Dir []) ]);
            (js "views", Dir [(js "app.blade.php", File (js "@vite"))]) ]);
        (js "scripts", Dir [(js "run-conversion.js", File (js "run();"))]) ].

Definition converted_output : node :=
  Dir [ (js "package.json", File (js "{}"));
        (js "vite.config.js", File (js "export default {};"));
        (js "resources", Dir
          [ (js "js", Dir
              [ (js "app.jsx", File (js "import './pages/welcome.jsx';"));
                (js "ssr.jsx", File (js "import './pages/welcome.jsx';"));
                (js "components", Dir []); (js "pages", Dir []);
                (js "layouts", Dir []); (js "hooks", Dir []) ]);
            (js "views", Dir [(js "app.blade.php", File (js "@vite"))]) ]) ].

(** Every tool is there, Node.js is recent, and the conversion script
    leaves a complete staging tree. *)
Definition healthy (cmd : command) (t : node) : result jsstring * node :=
  match cmd with
  | NodeVersion => (Ok (js "v20.11.0" ++ [newline]), t)
  | RunConversion =>
      (Ok [], match t with
              | Dir es => Dir (entry_put (js "output") converted_output es)
              | File _ => t
              end)
  | _ => (Ok [], t)
  end.

Definition report_time : jsstring := js "2025-01-01T00:00:00.000Z".

(** A parser that knows the empty object only, a [glob] for the scripts
    below a directory, and a staging tree as the compiler leaves it. *)

Definition braces_json (text : jsstring) : option (json Z) :=
  if bool_decide (text = js "{}") then Some (JObject []) else None.

Definition glob_scripts (dir : path) (t : node) : list path :=
  match lookup dir t with
  | Some (Dir es) =>
      List.map (app dir)
        (List.filter
           (fun p => pathEndsWith (js ".js") p || pathEndsWith (js ".jsx") p)
           (files (Dir es)))
  | _ => []
  end.

Definition compiled_world : world :=
  World
    (default (Dir [])
       (put (jsOutputDir ++ [js "app.js"]) (File (js "export const a = <b>ok</b>;"))
          (tree project_cfg)))
    (execs project_cfg).

(** A compiler that writes one script, and tools that change nothing. *)
Definition writing_tsc (cmd : command) (t : node) : result jsstring * node :=
  match cmd with
  | Tsc _ =>
      (Ok [], default t (put (jsOutputDir ++ [js "app.js"])
                           (File (js "export const a = <b>ok</b>;")) t))
  | _ => (Ok [], t)
  end.

(** A project with workflows, a template, a bundler configuration and a
    view, and an empty staging directory. *)
Definition staged_items : entries :=
  [ (js ".github", Dir [(js "workflows", Dir
       [ (js "deploy.yml", File (js "name: deploy"));
         (js "lint.yml", File (js "name: lint")) ])]);
    (js "templates", Dir [(js "workflows", Dir
       [(js "auto-release.yml", File (js "name: release"))])]);
    (js "package.json", File (js "{}"));
    (js "vite.config.ts", File example_vite);
    (js "resources", Dir [(js "views", Dir
       [(js "app.blade.php", File (js "<title>app</title>"))])]);
    (js "output", Dir [(js "js", Dir [])]) ].

Definition staged_world : world := World (Dir staged_items) [].

Definition staged_copy : world :=
  Eval vm_compute in (copyProjectStructure staged_world).2.

Definition converted_world : world :=
  Eval vm_compute in
    (downstream truthyZ braces_json flat_json glob_scripts compiled_world).2.

(** A project in which a directory has the name of the report of the
    self-test. *)
Definition blocked_project : node :=
  default tester_project (put [js "workflow-test-report.json"] (Dir []) tester_project).

(** A package whose description is a number, its text, a parser that
    knows this text only, and a staging directory with it. *)
Definition numbered_package : fields Z :=
  [ (js "name", JString (js "vendor/react-starter-kit"));
    (js "description", JNumber 1%Z);
    (js "devDependencies", JObject
      [ (js "typescript", JString (js "^5.7.2"));
        (js "vite", JString (js "^6.0")) ]) ].

Definition quoted (s : jsstring) : jsstring := dquote :: s ++ [dquote].

Definition numbered_text : jsstring :=
  js "{" ++ quoted (js "name") ++ js ":" ++ quoted (js "vendor/react-starter-kit")
  ++ js "," ++ quoted (js "description") ++ js ":1,"
  ++ quoted (js "devDependencies") ++ js ":{"
  ++ quoted (js "typescript") ++ js ":" ++ quoted (js "^5.7.2") ++ js ","
  ++ quoted (js "vite") ++ js ":" ++ quoted (js "^6.0") ++ js "}}".

Definition numbered_parse (text : jsstring) : option (json Z) :=
  if bool_decide (text = numbered_text) then Some (JObject numbered_package) else None.

Definition numbered_world : world :=
  World (Dir [(js "output", Dir [(js "package.json", File numbered_text)])]) [].

(** A project with a directory [js] of its own, and where a run with the
    failing compiler leaves it. *)
Definition legacy_project : node :=
  Dir [ (js "resources", Dir [(js "js", Dir
          [(js "app.tsx", File (js "import './pages/welcome.tsx';"))])]);
        (js "js", Dir [(js "legacy.js", File (js "var legacy = 1;"))]);
        (js "package.json", File (js "{}")) ].

Definition legacy_result : world :=
  Eval vm_compute in
    (run truthyZ braces_json flat_json failing_tsc glob_scripts (js "/app")
       (World legacy_project [])).2.

(** ** Facts about the string primitives *)

Section StringFacts.

Implicit Types (p r s t u : jsstring) (c : N).

Lemma startsWith_app p s : startsWith p (p ++ s) = true.
Proof. induction p as [|x p IH]; simpl; [done|]. by rewrite N.eqb_refl. Qed.

Lemma startsWith_inv p s :
  startsWith p s = true -> s = p ++ drop (length p) s.
Proof.
  revert s. induction p as [|x p IH]; intros [|y s] H; simpl in *; try done.
  apply andb_true_iff in H as [Hxy H]. apply N.eqb_eq in Hxy as ->.
  f_equal. by apply IH.
Qed.

Lemma startsWith_length p s : startsWith p s = true -> (length p <= length s)%nat.
Proof.
  revert s. induction p as [|x p IH]; intros [|y s] H; simpl in *; try done; try lia.
  apply andb_true_iff in H as [_ H]. apply IH in H. lia.
Qed.

Lemma includes_cons p c s :
  includes p (c :: s) = startsWith p (c :: s) || includes p s.
Proof. done. Qed.

(** [includes] is: some suffix starts with the pattern. *)
Lemma includes_spec p s :
  includes p s = true <-> exists i, startsWith p (drop i s) = true.
Proof.
  induction s as [|c s IH]; simpl.
  - split; [intros H; by exists 0%nat|]. intros [i H]. by rewrite drop_nil in H.
  - rewrite orb_true_iff, IH. split.
    + intros [H|[i H]]; [by exists 0%nat | by exists (S i)].
    + intros [[|i] H]; [by left | right; by exists i].
Qed.

Lemma includes_false p s :
  includes p s = false <-> forall i, startsWith p (drop i s) = false.
Proof.
  split.
  - intros H i. destruct (startsWith p (drop i s)) eqn:E; [|done].
    assert (includes p s = true) by (apply includes_spec; eauto). congruence.
  - intros H. destruct (includes p s) eqn:E; [|done].
    apply includes_spec in E as [i E]. by rewrite H in E.
Qed.

Lemma prev_after_cons prev c u : prev_after prev (c :: u) = prev_after (Some c) u.
Proof.
  unfold prev_after. destruct u as [|d u]; [done|].
  change (last (c :: d :: u)) with (last (d :: u)).
  destruct (last (d :: u)) eqn:E; [done|]. by apply last_None in E.
Qed.

Lemma gsub_skip m f prev k s :
  (k <= length s)%nat ->
  gsub m f prev k s = gsub m f (prev_after prev (take k s)) 0 (drop k s).
Proof.
  revert prev s. induction k as [|k IH]; intros prev s Hk.
  - by rewrite take_0, drop_0.
  - destruct s as [|c s]; simpl in Hk; [lia|].
    cbn [gsub take drop]. rewrite prev_after_cons. apply IH. lia.
Qed.

Lemma gsub_match m f prev n s :
  m prev s = Some (S n) -> (S n <= length s)%nat ->
  gsub m f prev 0 s =
    f (take (S n) s) ++ gsub m f (prev_after prev (take (S n) s)) 0 (drop (S n) s).
Proof.
  intros Hm Hn. destruct s as [|c s]; simpl in Hn; [lia|].
  cbn [gsub]. rewrite Hm. f_equal.
  rewrite gsub_skip by lia. cbn [take drop]. by rewrite prev_after_cons.
Qed.

Lemma gsub_nomatch m f prev c s :
  m prev (c :: s) = None ->
  gsub m f prev 0 (c :: s) = c :: gsub m f (Some c) 0 s.
Proof. intros Hm. cbn [gsub]. by rewrite Hm. Qed.

Lemma gsub_lit_prev p f prev prev' k s :
  gsub (lit p) f prev k s = gsub (lit p) f prev' k s.
Proof. by destruct s. Qed.

Lemma replaceLit_nil p r : p <> [] -> replaceLit p r [] = [].
Proof. by destruct p. Qed.

Lemma replaceLit_hit p r s :
  p <> [] -> startsWith p s = true ->
  replaceLit p r s = r ++ replaceLit p r (drop (length p) s).
Proof.
  intros Hp H. unfold replaceLit, replaceAll.
  destruct p as [|x p]; [done|].
  rewrite (gsub_match _ _ _ (length p)).
  - f_equal. apply gsub_lit_prev.
  - unfold lit. by rewrite H.
  - by apply startsWith_length in H.
Qed.

Lemma replaceLit_miss p r c s :
  startsWith p (c :: s) = false ->
  replaceLit p r (c :: s) = c :: replaceLit p r s.
Proof.
  intros H. unfold replaceLit, replaceAll. rewrite gsub_nomatch.
  - f_equal. apply gsub_lit_prev.
  - unfold lit. by rewrite H.
Qed.

Lemma clash_app p u s : clash p u = true -> startsWith p (u ++ s) = false.
Proof.
  unfold clash. revert u. induction p as [|x p IH]; intros [|y u]; simpl; try done.
  rewrite (N.eqb_sym y x). destruct (x =? y); simpl; [apply IH | done].
Qed.

Lemma startsWith_replaceLit (q : jsstring) p r (r0 : N) (r' : jsstring) s :
  p <> [] -> r = r0 :: r' -> existsb (N.eqb r0) q = false ->
  startsWith q (replaceLit p r s) = true -> startsWith q s = true.
Proof.
  intros Hp -> . revert s. induction q as [|x q IH]; intros s Hq H; [done|].
  simpl in Hq. apply orb_false_iff in Hq as [Hx Hq].
  destruct (startsWith p s) eqn:E.
  - rewrite replaceLit_hit in H by done. simpl in H.
    rewrite N.eqb_sym, Hx in H. done.
  - destruct s as [|c s]; [by rewrite replaceLit_nil in H|].
    rewrite replaceLit_miss in H by done. simpl in *.
    apply andb_true_iff in H as [-> H]. simpl. by apply IH.
Qed.

Lemma includes_app_safe p r s :
  forallb (fun i => clash p (drop i r)) (seq 0 (length r)) = true ->
  includes p s = false -> includes p (r ++ s) = false.
Proof.
  intros Hall Hs. apply includes_false. intros i.
  destruct (decide (i < length r)%nat) as [Hi|Hi].
  - rewrite drop_app_le by lia. apply clash_app.
    rewrite forallb_forall in Hall. apply Hall, in_seq. lia.
  - rewrite drop_app_ge by lia. by eapply includes_false in Hs.
Qed.

(** After a global literal replacement no occurrence of the pattern is
    left, when the replacement is safe for it. *)
Lemma includes_replaceLit p r s :
  lit_safe p r = true -> includes p (replaceLit p r s) = false.
Proof.
  intros Hsafe. unfold lit_safe in Hsafe.
  destruct p as [|p0 p'] eqn:Ep; [done|]. destruct r as [|r0 r'] eqn:Er; [done|].
  apply andb_true_iff in Hsafe as [Hr0 Hall]. apply negb_true_iff in Hr0.
  rewrite <- Ep, <- Er in *. assert (p <> []) as Hp by (by subst).
  induction s as [s IH] using (induction_ltof1 _ (@length N)).
  unfold ltof in IH.
  destruct (startsWith p s) eqn:E.
  - rewrite replaceLit_hit by done. apply includes_app_safe; [done|].
    apply IH. pose proof (startsWith_length _ _ E). rewrite length_drop.
    subst p. simpl in *. lia.
  - destruct s as [|c s]; [rewrite replaceLit_nil by done; by subst|].
    rewrite replaceLit_miss by done. rewrite includes_cons.
    rewrite (IH s) by (simpl; lia). rewrite orb_false_r.
    destruct (startsWith p (c :: replaceLit p r s)) eqn:E'; [|done].
    rewrite Ep in E, E'. simpl in E, E'. apply andb_true_iff in E' as [Hc E'].
    rewrite Hc in E. simpl in E.
    rewrite <- Ep in E'.
    eapply startsWith_replaceLit in E'; [|done|exact Er|done]. congruence.
Qed.

(** A replacement of the pattern's own length keeps every position in
    place: where [p] stood, [r] stands. *)
Lemma replaceLit_at p r s i :
  p <> [] -> length r = length p -> no_self_overlap p = true ->
  startsWith p (drop i s) = true ->
  startsWith r (drop i (replaceLit p r s)) = true.
Proof.
  intros Hp Hlen Hself. revert i.
  induction s as [s IH] using (induction_ltof1 _ (@length N)). unfold ltof in IH.
  intros i Hi. destruct (startsWith p s) eqn:E.
  - rewrite replaceLit_hit by done.
    destruct (decide (i < length p)%nat) as [Hlt|Hge].
    + destruct i as [|j]; [apply startsWith_app|].
      apply startsWith_inv in E. rewrite E, drop_app_le in Hi by lia.
      rewrite clash_app in Hi; [done|].
      unfold no_self_overlap in Hself. rewrite forallb_forall in Hself.
      apply Hself, in_seq. lia.
    + rewrite drop_app_ge by lia. rewrite Hlen. apply IH.
      * pose proof (startsWith_length _ _ E). rewrite length_drop.
        destruct p; [done|]. simpl in *. lia.
      * rewrite drop_drop. by replace (length p + (i - length p))%nat with i by lia.
  - destruct s as [|c s].
    { rewrite drop_nil in Hi. destruct p; [done|]. by destruct i. }
    rewrite replaceLit_miss by done.
    destruct i as [|j]; [by rewrite drop_0, E in Hi|].
    simpl. apply IH; [simpl; lia | done].
Qed.

Lemma replaceLit_length p r s :
  p <> [] -> length r = length p -> length (replaceLit p r s) = length s.
Proof.
  intros Hp Hlen.
  induction s as [s IH] using (induction_ltof1 _ (@length N)). unfold ltof in IH.
  destruct (startsWith p s) eqn:E.
  - rewrite replaceLit_hit by done. pose proof (startsWith_length _ _ E).
    rewrite length_app, IH; rewrite length_drop; destruct p; try done; simpl in *; lia.
  - destruct s as [|c s]; [by rewrite replaceLit_nil|].
    rewrite replaceLit_miss by done. simpl. rewrite IH; simpl; lia.
Qed.

(** ... and a position that lies in no occurrence of [p] keeps its unit. *)
Lemma replaceLit_elsewhere p r s i :
  p <> [] -> length r = length p ->
  (forall k, (k <= i < k + length p)%nat -> startsWith p (drop k s) = false) ->
  replaceLit p r s !! i = s !! i.
Proof.
  intros Hp Hlen. revert i.
  induction s as [s IH] using (induction_ltof1 _ (@length N)). unfold ltof in IH.
  intros i Hi. destruct (startsWith p s) eqn:E.
  - rewrite replaceLit_hit by done.
    destruct (decide (i < length p)%nat) as [Hlt|Hge].
    { specialize (Hi 0%nat). rewrite drop_0 in Hi. rewrite Hi in E by lia. done. }
    rewrite lookup_app_r by lia. rewrite Hlen, IH.
    + rewrite lookup_drop. f_equal. lia.
    + pose proof (startsWith_length _ _ E). rewrite length_drop.
      destruct p; [done|]. simpl in *. lia.
    + intros k Hk. rewrite drop_drop. apply Hi. lia.
  - destruct s as [|c s]; [by rewrite replaceLit_nil|].
    rewrite replaceLit_miss by done. destruct i as [|j]; [done|]. simpl.
    apply IH; [simpl; lia|]. intros k Hk. apply (Hi (S k)). lia.
Qed.

End StringFacts.

(** ** Facts about the file system *)

Section TreeFacts.

Implicit Types (p q : path) (t : node) (es : entries) (x y : jsstring).

Lemma entry_lookup_put_eq x n es : entry_lookup x (entry_put x n es) = Some n.
Proof.
  induction es as [|[y m] es IH]; simpl.
  - by rewrite decide_True.
  - destruct (decide (x = y)) as [->|Hne]; simpl.
    + by rewrite decide_True.
    + by rewrite decide_False.
Qed.

Lemma entry_lookup_put_ne x y n es :
  x <> y -> entry_lookup y (entry_put x n es) = entry_lookup y es.
Proof.
  intros Hne. induction es as [|[z m] es IH]; simpl.
  - by rewrite decide_False.
  - destruct (decide (x = z)) as [->|Hxz]; simpl.
    + by rewrite !decide_False.
    + destruct (decide (y = z)); [done | apply IH].
Qed.

Lemma entry_lookup_remove_eq x es : entry_lookup x (entry_remove x es) = None.
Proof.
  induction es as [|[y m] es IH]; simpl; [done|].
  destruct (decide (x = y)); simpl; [done|]. by rewrite decide_False.
Qed.

Lemma entry_lookup_remove_ne x y es :
  x <> y -> entry_lookup y (entry_remove x es) = entry_lookup y es.
Proof.
  intros Hne. induction es as [|[z m] es IH]; simpl; [done|].
  destruct (decide (x = z)) as [->|Hxz]; simpl.
  - by rewrite decide_False.
  - destruct (decide (y = z)); [done | apply IH].
Qed.

Lemma lookup_put_eq p n t t' : put p n t = Some t' -> lookup p t' = Some n.
Proof.
  revert t t'. induction p as [|x p IH]; intros t t' H.
  - simpl in H. by simplify_eq.
  - cbn [put] in H. destruct t as [|es]; [done|]. destruct p as [|x' p].
    + simplify_eq. cbn [lookup]. by rewrite entry_lookup_put_eq.
    + destruct (entry_lookup x es) as [child|]; [|done].
      cbn [mbind option_bind] in H.
      destruct (put (x' :: p) n child) as [child'|] eqn:E; [|done].
      cbn [mbind option_bind] in H. simplify_eq. cbn [lookup].
      rewrite entry_lookup_put_eq. cbn [mbind option_bind]. by eapply IH.
Qed.

Lemma lookup_put_diverge p q n t t' :
  diverge p q = true -> put p n t = Some t' -> lookup q t' = lookup q t.
Proof.
  revert q t t'. induction p as [|x p IH]; intros [|y q] t t' Hd H; try done.
  cbn [diverge] in Hd. cbn [put] in H. destruct t as [|es]; [done|].
  destruct p as [|x' p].
  - simplify_eq. destruct (decide (x = y)); [done|].
    cbn [lookup]. by rewrite entry_lookup_put_ne.
  - destruct (entry_lookup x es) as [child|] eqn:Ex; [|done].
    cbn [mbind option_bind] in H.
    destruct (put (x' :: p) n child) as [child'|] eqn:E; [|done].
    cbn [mbind option_bind] in H. simplify_eq. cbn [lookup].
    destruct (decide (x = y)) as [<-|Hne].
    + rewrite entry_lookup_put_eq, Ex. cbn [mbind option_bind]. by eapply IH.
    + by rewrite entry_lookup_put_ne.
Qed.

(** Where something is, something can be put. *)
Lemma put_is_Some p n t : p <> [] -> is_Some (lookup p t) -> is_Some (put p n t).
Proof.
  revert t. induction p as [|x p IH]; intros t Hp [m H]; [done|].
  cbn [lookup put] in *. destruct t as [|es]; [done|].
  destruct p as [|x' p]; [done|].
  destruct (entry_lookup x es) as [child|]; [|done]. cbn [mbind option_bind] in *.
  destruct (IH child) as [child' ->]; [done|by eexists|]. by eexists.
Qed.

Lemma lookup_remove_diverge p q t :
  diverge p q = true -> lookup q (remove p t) = lookup q t.
Proof.
  revert q t. induction p as [|x p IH]; intros [|y q] t Hd; try done.
  cbn [diverge] in Hd. cbn [remove]. destruct t as [|es]; [done|].
  destruct p as [|x' p].
  - destruct (decide (x = y)); [done|]. cbn [lookup].
    by rewrite entry_lookup_remove_ne.
  - destruct (entry_lookup x es) as [child|] eqn:Ex; [|done]. cbn [lookup].
    destruct (decide (x = y)) as [<-|Hne].
    + rewrite entry_lookup_put_eq, Ex. cbn [mbind option_bind]. by apply IH.
    + by rewrite entry_lookup_put_ne.
Qed.

Lemma lookup_remove_eq p t : p <> [] -> lookup p (remove p t) = None.
Proof.
  revert t. induction p as [|x p IH]; intros t Hp; [done|].
  cbn [remove]. destruct t as [|es]; [done|]. destruct p as [|x' p].
  - cbn [lookup]. by rewrite entry_lookup_remove_eq.
  - destruct (entry_lookup x es) as [child|] eqn:Ex.
    + cbn [lookup]. rewrite entry_lookup_put_eq. cbn [mbind option_bind]. by apply IH.
    + cbn [lookup]. by rewrite Ex.
Qed.

End TreeFacts.

(** ** Running the monad *)

Lemma run_bind {A B} (m : M A) (k : A -> M B) (w : world) :
  (m ≫= k) w =
    match m w with
    | (Ok a, w') => k a w'
    | (Throw, w') => (Throw, w')
    end.
Proof. done. Qed.

Lemma run_existsSync p w :
  existsSync p w = (Ok (bool_decide (is_Some (lookup p (tree w)))), w).
Proof. done. Qed.

Lemma run_existsSync_true p w :
  is_Some (lookup p (tree w)) -> existsSync p w = (Ok true, w).
Proof. intros H. by rewrite run_existsSync, bool_decide_eq_true_2. Qed.

Lemma run_existsSync_false p w :
  lookup p (tree w) = None -> existsSync p w = (Ok false, w).
Proof.
  intros H. rewrite run_existsSync, bool_decide_eq_false_2; [done|].
  rewrite H. by intros [? ?].
Qed.

Lemma run_readFileSync p w c :
  lookup p (tree w) = Some (File c) -> readFileSync p w = (Ok c, w).
Proof. intros H. unfold readFileSync. rewrite run_bind. simpl. by rewrite H. Qed.

Lemma run_readFileSync_throw p w :
  (forall c, lookup p (tree w) <> Some (File c)) -> readFileSync p w = (Throw, w).
Proof.
  intros H. unfold readFileSync. rewrite run_bind. simpl.
  destruct (lookup p (tree w)) as [[c|es]|] eqn:E; try done. by destruct (H c).
Qed.

(** Overwriting a file: the write succeeds and puts the new content. *)
Lemma run_writeFileSync_over p w c c' :
  p <> [] -> lookup p (tree w) = Some (File c) ->
  exists t', put p (File c') (tree w) = Some t' /\
             writeFileSync p c' w = (Ok tt, World t' (execs w)).
Proof.
  intros Hp H. destruct (put_is_Some p (File c') (tree w)) as [t' Ht']; [done|by eexists|].
  exists t'. split; [done|]. unfold writeFileSync. rewrite run_bind. simpl.
  rewrite H. unfold update. by rewrite Ht'.
Qed.

(** ** The reference rewrite of the entry files *)

Section ReferenceRewrite.

Lemma updateFileReference_file file w content :
  file <> [] -> lookup file (tree w) = Some (File content) ->
  exists t', put file (File (rewriteReferences content)) (tree w) = Some t' /\
             updateFileReference file w = (Ok tt, World t' (execs w)).
Proof.
  intros Hp H.
  destruct (run_writeFileSync_over file w content (rewriteReferences content))
    as (t' & Hput & Hw); [done..|].
  exists t'. split; [done|]. unfold updateFileReference.
  rewrite run_bind, run_existsSync_true by (by eexists). simpl.
  unfold catch. rewrite run_bind, (run_readFileSync _ _ content) by done.
  by rewrite Hw.
Qed.

Lemma updateFileReference_other file w :
  (forall c, lookup file (tree w) <> Some (File c)) ->
  updateFileReference file w = (Ok tt, w).
Proof.
  intros H. unfold updateFileReference. rewrite run_bind, run_existsSync.
  case_bool_decide; simpl; [|done].
  unfold catch. by rewrite run_bind, run_readFileSync_throw.
Qed.

(** A round of the loop leaves alone what lies off its file. *)
Lemma updateFileReference_frame file q w :
  file <> [] -> diverge file q = true ->
  exists w', updateFileReference file w = (Ok tt, w') /\
             lookup q (tree w') = lookup q (tree w).
Proof.
  intros Hp Hd. destruct (lookup file (tree w)) as [[c|es]|] eqn:E.
  - destruct (updateFileReference_file file w c) as (t' & Hput & ->); [done..|].
    eexists. split; [done|]. simpl. by eapply lookup_put_diverge.
  - exists w. split; [|done]. apply updateFileReference_other. by rewrite E.
  - exists w. split; [|done]. apply updateFileReference_other. by rewrite E.
Qed.

End ReferenceRewrite.

(** C5.  Whatever an entry file ([output/js/app.jsx], [output/js/ssr.jsx])
    holds, after [updateFileReferences] it holds the rewritten content,
    in which [.tsx] occurs nowhere: the content has kept its length,
    [.jsx] stands wherever [.tsx] stood, and every unit outside those
    occurrences is unchanged. *)
Theorem updateFileReferences_leaves_no_tsx (w : world) (file : path) (content : jsstring) :
  In file entryFiles ->
  lookup file (tree w) = Some (File content) ->
  exists w',
    updateFileReferences w = (Ok tt, w') /\
    lookup file (tree w') = Some (File (rewriteReferences content)) /\
    includes (js ".tsx") (rewriteReferences content) = false /\
    length (rewriteReferences content) = length content /\
    (forall i, startsWith (js ".tsx") (drop i content) = true ->
               startsWith (js ".jsx") (drop i (rewriteReferences content)) = true) /\
    (forall i, (forall k, (k <= i < k + 4)%nat ->
                          startsWith (js ".tsx") (drop k content) = false) ->
               rewriteReferences content !! i = content !! i).
Proof.
  intros Hin Hfile.
  assert (exists w', updateFileReferences w = (Ok tt, w') /\
            lookup file (tree w') = Some (File (rewriteReferences content)))
    as (w' & Hrun & Hlook).
  { unfold updateFileReferences, forEach, entryFiles in *.
    destruct Hin as [<-|[<-|[]]].
    - destruct (updateFileReference_file (jsOutputDir ++ [js "app.jsx"]) w content)
        as (t1 & Hput & H1); [done..|].
      destruct (updateFileReference_frame (jsOutputDir ++ [js "ssr.jsx"])
                  (jsOutputDir ++ [js "app.jsx"]) (World t1 (execs w)))
        as (w2 & H2 & Hsame); [done..|].
      exists w2. rewrite run_bind, H1. cbn beta iota.
      rewrite run_bind, H2. split; [done|].
      rewrite Hsame. cbn [tree]. by eapply lookup_put_eq.
    - destruct (updateFileReference_frame (jsOutputDir ++ [js "app.jsx"])
                  (jsOutputDir ++ [js "ssr.jsx"]) w)
        as (w1 & H1 & Hsame); [done..|].
      rewrite <- Hsame in Hfile.
      destruct (updateFileReference_file (jsOutputDir ++ [js "ssr.jsx"]) w1 content)
        as (t2 & Hput & H2); [done..|].
      eexists. rewrite run_bind, H1. cbn beta iota.
      rewrite run_bind, H2. split; [done|].
      cbn [tree]. by eapply lookup_put_eq. }
  exists w'. split_and!; try done.
  - by apply includes_replaceLit.
  - by apply replaceLit_length.
  - intros i. by apply replaceLit_at.
  - intros i Hi. apply replaceLit_elsewhere; [done..|]. exact Hi.
Qed.

Lemma updateFileReferences_leaves_no_tsx_witness :
  exists w',
    updateFileReferences entry_world = (Ok tt, w') /\
    lookup (jsOutputDir ++ [js "app.jsx"]) (tree w')
      = Some (File (rewriteReferences (js "import './pages/welcome.tsx';"))) /\
    includes (js ".tsx") (rewriteReferences (js "import './pages/welcome.tsx';")) = false /\
    length (rewriteReferences (js "import './pages/welcome.tsx';"))
      = length (js "import './pages/welcome.tsx';") /\
    (forall i, startsWith (js ".tsx") (drop i (js "import './pages/welcome.tsx';")) = true ->
               startsWith (js ".jsx")
                 (drop i (rewriteReferences (js "import './pages/welcome.tsx';"))) = true) /\
    (forall i, (forall k, (k <= i < k + 4)%nat ->
                          startsWith (js ".tsx") (drop k (js "import './pages/welcome.tsx';")) = false) ->
               rewriteReferences (js "import './pages/welcome.tsx';") !! i
                 = js "import './pages/welcome.tsx';" !! i).
Proof.
  apply (updateFileReferences_leaves_no_tsx entry_world (jsOutputDir ++ [js "app.jsx"])).
  - left. reflexivity.
  - vm_compute. reflexivity.
Defined.

(** ** The extension classifier *)

Section Classifier.

Lemma re_test_markup prev s :
  re_test re_markup prev s = true <->
  exists pre c1 c2 post,
    s = pre ++ 60 :: c1 :: c2 :: post /\ re_word c1 = true /\
    (re_space c2 = true \/ c2 = 62 \/ c2 = 47).
Proof.
  revert prev. induction s as [|c s IH]; intros prev.
  - change (re_test re_markup prev []) with false. split; [done|].
    intros ([|??] & ? & ? & ? & ? & _); done.
  - cbn [re_test]. rewrite orb_true_iff, IH, bool_decide_eq_true. split.
    + intros [[n Hn]|(pre & c1 & c2 & post & -> & H)].
      * destruct s as [|c1 [|c2 post]]; try done. simpl in Hn.
        destruct (c =? 60) eqn:Ec; [|done]. apply N.eqb_eq in Ec as ->.
        destruct (re_word c1) eqn:Ew; [|done]. simpl in Hn.
        exists [], c1, c2, post. split; [done|]. split; [done|].
        destruct (re_space c2); [by left|]. destruct (c2 =? 62) eqn:E2.
        { apply N.eqb_eq in E2. auto. }
        destruct (c2 =? 47) eqn:E3; [|done]. apply N.eqb_eq in E3. auto.
      * exists (c :: pre), c1, c2, post. by split.
    + intros ([|c' pre] & c1 & c2 & post & Heq & Hw & Hc); simpl in Heq; simplify_eq.
      * left. simpl. rewrite Hw. simpl.
        destruct Hc as [->|[->| ->]]; simpl; by eexists.
      * right. by exists pre, c1, c2, post.
Qed.

Lemma endsWith_jsx_not_js name :
  endsWith (js ".jsx") name = true -> endsWith (js ".js") name = false.
Proof.
  unfold endsWith. change (rev (js ".jsx")) with [120; 115; 106; 46].
  change (rev (js ".js")) with [115; 106; 46].
  destruct (rev name) as [|c r]; [done|]. cbn [startsWith].
  destruct (120 =? c) eqn:E; [|done]. apply N.eqb_eq in E as <-. done.
Qed.

Lemma pathEndsWith_jsx_not_js file :
  pathEndsWith (js ".jsx") file = true -> pathEndsWith (js ".js") file = false.
Proof.
  unfold pathEndsWith. destruct (last file); [apply endsWith_jsx_not_js | done].
Qed.

Lemma diverge_last (init : path) (a b : jsstring) :
  a <> b -> diverge (init ++ [a]) (init ++ [b]) = true.
Proof.
  intros Hne. induction init as [|x init IH]; simpl.
  - by rewrite decide_False.
  - by rewrite decide_True.
Qed.

Lemma put_sibling (init : path) (a b : jsstring) (n m : node) (t : node) :
  lookup (init ++ [a]) t = Some n ->
  is_Some (put (init ++ [b]) m (remove (init ++ [a]) t)).
Proof.
  revert t. induction init as [|x init IH]; intros t H.
  - destruct t as [|es]; [done|]. simpl. by eexists.
  - destruct t as [|es]; [done|]. cbn [app lookup] in H.
    destruct (entry_lookup x es) as [child|] eqn:Ex; [|done].
    cbn [mbind option_bind] in H. apply IH in H as [t' Ht'].
    cbn [app remove put]. rewrite Ex.
    destruct (init ++ [a]) eqn:Ea; [by destruct init|].
    destruct (init ++ [b]) eqn:Eb; [by destruct init|].
    rewrite entry_lookup_put_eq. cbn [mbind option_bind].
    rewrite Ht'. by eexists.
Qed.

Lemma last_snoc_inv (file : path) (name : jsstring) :
  last file = Some name -> file = removelast file ++ [name].
Proof.
  intros H. apply last_Some in H as [init ->]. by rewrite removelast_last.
Qed.

End Classifier.

Lemma jsxName_snoc (init : path) (name : jsstring) :
  jsxName (init ++ [name]) = init ++ [name ++ js "x"].
Proof. unfold jsxName. by rewrite last_snoc, removelast_last. Qed.

Lemma run_renameSync (init : path) (a b : jsstring) (c : jsstring) (w : world) :
  a <> b ->
  lookup (init ++ [a]) (tree w) = Some (File c) ->
  (forall es, lookup (init ++ [b]) (tree w) <> Some (Dir es)) ->
  exists w',
    renameSync (init ++ [a]) (init ++ [b]) w = (Ok tt, w') /\
    lookup (init ++ [a]) (tree w') = None /\
    lookup (init ++ [b]) (tree w') = Some (File c).
Proof.
  intros Hne Hold Hnew.
  destruct (put_sibling init a b (File c) (File c) (tree w) Hold) as [t' Ht'].
  exists (World t' (execs w)). split_and!.
  - unfold renameSync. rewrite run_bind. cbn [get tree]. rewrite Hold.
    destruct (lookup (init ++ [b]) (tree w)) as [[?|es]|] eqn:E;
      try (unfold update; by rewrite Ht').
    by destruct (Hnew es).
  - cbn [tree]. erewrite lookup_put_diverge; [|by apply diverge_last|done].
    apply lookup_remove_eq. by destruct init.
  - cbn [tree]. by eapply lookup_put_eq.
Qed.

(** C1 as the claim words it fails: [Button.js] holds [<b>], where
    neither white space nor [/>] follows the word character, and it is
    renamed all the same. *)
Lemma processJavaScriptFile_renames_unworded_markup :
  worded_markup (js "export const b = <b>ok</b>;") = false /\
  exists w',
    processJavaScriptFile (jsOutputDir ++ [js "Button.js"]) classifier_world = (Ok tt, w') /\
    lookup (jsOutputDir ++ [js "Button.js"]) (tree w') = None /\
    lookup (jsOutputDir ++ [js "Button.jsx"]) (tree w')
      = Some (File (js "export const b = <b>ok</b>;")).
Proof. split; [reflexivity|]. eexists. split_and!; reflexivity. Qed.

(** ** The compiler invoker *)

Section CompilerInvoker.

Variable spawn : command -> node -> result jsstring * node.

Lemma run_hasOutput_none w :
  no_output (tree w) -> hasOutput w = (Ok false, w).
Proof.
  intros [H|H]; unfold hasOutput; rewrite run_bind, run_existsSync, H.
  - done.
  - rewrite bool_decide_eq_true_2 by (by eexists). cbn beta iota.
    unfold readdirSync. rewrite !run_bind. cbn [get]. by rewrite H.
Qed.

Lemma run_hasOutput_some w :
  some_output (tree w) -> hasOutput w = (Ok true, w).
Proof.
  intros (e & es & H). unfold hasOutput. rewrite run_bind, run_existsSync, H.
  rewrite bool_decide_eq_true_2 by (by eexists). cbn beta iota.
  unfold readdirSync. rewrite !run_bind. cbn [get]. by rewrite H.
Qed.

Lemma run_hasOutput_file w c :
  lookup jsOutputDir (tree w) = Some (File c) -> hasOutput w = (Throw, w).
Proof.
  intros H. unfold hasOutput. rewrite run_bind, run_existsSync, H.
  rewrite bool_decide_eq_true_2 by (by eexists). cbn beta iota.
  unfold readdirSync. rewrite !run_bind. cbn [get]. by rewrite H.
Qed.

Lemma output_cases t :
  no_output t \/ some_output t \/ exists c, lookup jsOutputDir t = Some (File c).
Proof.
  unfold no_output, some_output.
  destruct (lookup jsOutputDir t) as [[c|[|e es]]|]; eauto 6.
Qed.

Lemma run_execSync cmd w :
  execSync spawn cmd w =
    ((spawn cmd (tree w)).1, World (spawn cmd (tree w)).2 (cmd :: execs w)).
Proof. unfold execSync. by destruct (spawn cmd (tree w)). Qed.

End CompilerInvoker.

(** Two of the three states of the output directory at once. *)
Ltac output_contra :=
  exfalso;
  repeat match goal with
  | H : no_output _ |- _ => destruct H
  | H : some_output _ |- _ => destruct H as (? & ? & ?)
  | H : exists c, lookup _ _ = Some (File c) |- _ => destruct H
  end;
  congruence.

Section CompilerInvokerSpec.

Variable spawn : command -> node -> result jsstring * node.

(** The three ways [convertTypeScriptFiles] can go, by what the two
    compiler runs do. *)
Lemma convertTypeScriptFiles_cases (w : world) :
  let first := spawn (Tsc false) (tree w) in
  let retry := spawn (Tsc true) first.2 in
  let w1 := World first.2 (Tsc false :: execs w) in
  let w2 := World retry.2 (Tsc true :: Tsc false :: execs w) in
  match first.1 with
  | Ok _ => convertTypeScriptFiles spawn w = (Ok true, w1)
  | Throw =>
      (some_output first.2 -> convertTypeScriptFiles spawn w = (Ok true, w1)) /\
      ((exists c, lookup jsOutputDir first.2 = Some (File c)) ->
       convertTypeScriptFiles spawn w = (Throw, w1)) /\
      (no_output first.2 ->
       match retry.1 with
       | Ok _ => convertTypeScriptFiles spawn w = (Ok true, w2)
       | Throw =>
           (some_output retry.2 -> convertTypeScriptFiles spawn w = (Ok true, w2)) /\
           ((exists c, lookup jsOutputDir retry.2 = Some (File c)) ->
            convertTypeScriptFiles spawn w = (Throw, w2)) /\
           (no_output retry.2 -> convertTypeScriptFiles spawn w = (Ok false, w2))
       end)
  end.
Proof.
  intros first retry w1 w2. unfold convertTypeScriptFiles, catch.
  rewrite run_bind, run_execSync. fold first w1.
  destruct first.1 as [out|] eqn:E1; [done|]. split_and!.
  - intros H. rewrite run_bind, (run_hasOutput_some w1) by done. done.
  - intros [c H]. by rewrite run_bind, (run_hasOutput_file w1 c).
  - intros H. rewrite run_bind, (run_hasOutput_none w1) by done. cbn beta iota.
    rewrite run_bind, run_execSync. cbn [tree execs w1]. fold retry w2.
    destruct retry.1 as [out|] eqn:E2; [done|]. split_and!.
    + intros H2. rewrite run_bind, (run_hasOutput_some w2) by done. done.
    + intros [c H2]. by rewrite run_bind, (run_hasOutput_file w2 c).
    + intros H2. rewrite run_bind, (run_hasOutput_none w2) by done. done.
Qed.

(** C2.  [convertTypeScriptFiles] returns [false] exactly when the first
    compiler run and the retry both exit with an error and each leaves the
    output directory missing or empty; it returns [true] when a run exits
    normally or a failed run leaves a directory that is not empty; it runs
    the compiler at most twice and nothing else, and exactly twice (first
    run, then the permissive retry) when it returns [false]. *)
Theorem convertTypeScriptFiles_fails_iff (w : world) :
  let first := spawn (Tsc false) (tree w) in
  let retry := spawn (Tsc true) first.2 in
  let res := convertTypeScriptFiles spawn w in
  (res.1 = Ok false <->
     first.1 = Throw /\ no_output first.2 /\ retry.1 = Throw /\ no_output retry.2) /\
  (first.1 <> Throw \/ some_output first.2 \/
     (no_output first.2 /\ (retry.1 <> Throw \/ some_output retry.2)) ->
   res.1 = Ok true) /\
  (exists new, execs res.2 = new ++ execs w /\ (length new <= 2)%nat /\ Forall is_tsc new) /\
  (res.1 = Ok false -> res.2 = World retry.2 (Tsc true :: Tsc false :: execs w)).
Proof.
  intros first retry res. pose proof (convertTypeScriptFiles_cases w) as H.
  cbn zeta in H. fold first retry res in H.
  destruct (output_cases first.2) as [Hn1|[Hs1|Hf1]];
  destruct (output_cases retry.2) as [Hn2|[Hs2|Hf2]];
  destruct first.1 as [o1|] eqn:E1; destruct retry.1 as [o2|] eqn:E2;
  repeat match goal with
  | H : _ /\ _ |- _ => destruct H
  | H : some_output ?t -> _, H' : some_output ?t |- _ => specialize (H H')
  | H : no_output ?t -> _, H' : no_output ?t |- _ => specialize (H H')
  | H : (exists c, lookup jsOutputDir ?t = Some (File c)) -> _,
    H' : exists c, lookup jsOutputDir ?t = Some (File c) |- _ => specialize (H H')
  end;
  match goal with H : res = _ |- _ => rewrite H end; cbn [fst snd];
  (split_and!;
   [ split; [try done | intros (? & ? & ? & ?); try done];
     try output_contra
   | intros [?|[?|[? [?|?]]]]; try done; try output_contra
   | first [ exists [Tsc false]; split_and!; [done|simpl; lia|repeat constructor]
           | exists [Tsc true; Tsc false]; split_and!; [done|simpl; lia|repeat constructor] ]
   | try done ]).
Qed.

End CompilerInvokerSpec.

(** ** The package metadata *)

Section PackageFacts.

Context {number : Type} (number_truthy : number -> bool).
Implicit Types (fs deps : fields number) (k : jsstring) (v : json number).

Lemma field_setField_eq k v fs : field k (setField k v fs) = Some v.
Proof.
  induction fs as [|[k' w] fs IH]; simpl.
  - by rewrite decide_True.
  - destruct (decide (k = k')) as [->|Hne]; simpl.
    + by rewrite decide_True.
    + by rewrite decide_False.
Qed.

Lemma field_setField_ne k k' v fs : k <> k' -> field k' (setField k v fs) = field k' fs.
Proof.
  intros Hne. induction fs as [|[k0 w] fs IH]; simpl.
  - by rewrite decide_False.
  - destruct (decide (k = k0)) as [->|Hk]; simpl.
    + by rewrite !decide_False.
    + destruct (decide (k' = k0)); [done | apply IH].
Qed.

Lemma field_filter_keep (P : jsstring -> bool) k fs :
  P k = true -> field k (List.filter (fun kv => P kv.1) fs) = field k fs.
Proof.
  intros HP. induction fs as [|[k' w] fs IH]; simpl; [done|].
  destruct (decide (k = k')) as [<-|Hne].
  - rewrite HP. simpl. by rewrite decide_True.
  - destruct (P k'); simpl; [by rewrite decide_False|done].
Qed.

Lemma field_filter_drop (P : jsstring -> bool) k fs :
  P k = false -> field k (List.filter (fun kv => P kv.1) fs) = None.
Proof.
  intros HP. induction fs as [|[k' w] fs IH]; simpl; [done|].
  destruct (P k') eqn:E; simpl; [|done].
  rewrite decide_False; [done|]. intros ->. congruence.
Qed.

(** The four [delete]s together are one filter. *)
Lemma deleteFields_filter (keys : list jsstring) deps :
  fold_left (fun d k => deleteField k d) keys deps =
  List.filter (fun kv => negb (bool_decide (kv.1 ∈ keys))) deps.
Proof.
  revert deps. induction keys as [|k keys IH]; intros deps; simpl.
  - induction deps as [|kv deps IHd]; simpl; [done | by f_equal].
  - rewrite IH. unfold deleteField. induction deps as [|kv deps IHd]; simpl; [done|].
    destruct (decide (kv.1 = k)) as [Hk|Hk].
    + rewrite (bool_decide_eq_true_2 (kv.1 = k)) by done. simpl.
      rewrite (bool_decide_eq_true_2 (kv.1 ∈ k :: keys)) by (rewrite Hk; apply list_elem_of_here).
      simpl. apply IHd.
    + rewrite (bool_decide_eq_false_2 (kv.1 = k)) by done. simpl.
      destruct (decide (kv.1 ∈ keys)) as [Hin|Hin].
      * rewrite (bool_decide_eq_true_2 (kv.1 ∈ keys)) by done.
        rewrite (bool_decide_eq_true_2 (kv.1 ∈ k :: keys)) by (by apply list_elem_of_further).
        simpl. apply IHd.
      * rewrite (bool_decide_eq_false_2 (kv.1 ∈ keys)) by done.
        rewrite (bool_decide_eq_false_2 (kv.1 ∈ k :: keys)).
        { simpl. by f_equal. }
        intros [?|?]%elem_of_cons; done.
Qed.

Lemma field_without_drop (keys : list jsstring) k deps :
  k ∈ keys ->
  field k (List.filter (fun kv => negb (bool_decide (kv.1 ∈ keys))) deps) = None.
Proof.
  intros Hk. pose (P := fun k' : jsstring => negb (bool_decide (k' ∈ keys))).
  change (field k (List.filter (fun kv => P kv.1) deps) = None).
  apply field_filter_drop. unfold P. by rewrite bool_decide_eq_true_2.
Qed.

Lemma field_without_keep (keys : list jsstring) k deps :
  k ∉ keys ->
  field k (List.filter (fun kv => negb (bool_decide (kv.1 ∈ keys))) deps) = field k deps.
Proof.
  intros Hk. pose (P := fun k' : jsstring => negb (bool_decide (k' ∈ keys))).
  change (field k (List.filter (fun kv => P kv.1) deps) = field k deps).
  apply field_filter_keep. unfold P. by rewrite bool_decide_eq_false_2.
Qed.

Lemma updateName_field fs fs1 k :
  updateName number_truthy fs = Ok fs1 -> k <> js "name" -> field k fs1 = field k fs.
Proof.
  unfold updateName. intros H Hk.
  repeat case_match; simplify_eq; try done; by rewrite field_setField_ne.
Qed.

Lemma updateDescription_field fs fs1 k :
  updateDescription number_truthy fs = Ok fs1 -> k <> js "description" ->
  field k fs1 = field k fs.
Proof.
  unfold updateDescription. intros H Hk.
  repeat case_match; simplify_eq; try done; by rewrite field_setField_ne.
Qed.

Lemma removeTypeDependencies_field fs k :
  k <> js "devDependencies" -> field k (removeTypeDependencies fs) = field k fs.
Proof.
  unfold removeTypeDependencies. intros Hk.
  repeat case_match; try done; by rewrite field_setField_ne.
Qed.

Lemma removeTypeDependencies_deps fs :
  field (js "devDependencies") (removeTypeDependencies fs) =
    match field (js "devDependencies") fs with
    | Some (JObject deps) =>
        Some (JObject (List.filter
                (fun kv => negb (bool_decide (kv.1 ∈ typeDependencies))) deps))
    | other => other
    end.
Proof.
  unfold removeTypeDependencies.
  destruct (field (js "devDependencies") fs) as [[]|] eqn:E; try done.
  by rewrite field_setField_eq, deleteFields_filter.
Qed.

End PackageFacts.

Section PackageRewrite.

Context {number : Type} (number_truthy : number -> bool).
Implicit Types (fs deps : fields number) (k : jsstring) (v : json number).

Lemma updateName_Throw fs :
  updateName number_truthy fs = Throw <->
  exists v, field (js "name") fs = Some v /\ truthy number_truthy (Some v) = true /\
            (forall s, v <> JString s) /\
            (forall items, v = JArray items -> JString (js "react-starter-kit") ∈ items).
Proof.
  unfold updateName. destruct (field (js "name") fs) as [v|]; cbn zeta.
  2:{ split; [done | by intros (? & ? & _)]. }
  destruct (truthy number_truthy (Some v)) eqn:Ht.
  2:{ split; [done|]. intros (? & [= <-] & ? & _). congruence. }
  destruct v as [|b|x|s|items|fs0].
  - done.
  - split; [|done]. intros _. exists (JBool b). by split_and!.
  - split; [|done]. intros _. exists (JNumber x). by split_and!.
  - split; [by destruct (includes _ s)|]. intros (? & [= <-] & _ & H & _). by destruct (H s).
  - destruct (existsb _ items) eqn:E.
    + split; [|done]. intros _. exists (JArray items). split_and!; try done.
      intros ? [= <-]. apply existsb_exists in E as (v & Hin & Hv).
      destruct v; try done. apply bool_decide_eq_true in Hv as ->.
      by apply list_elem_of_In.
    + split; [done|]. intros (? & [= <-] & _ & _ & H).
      specialize (H items eq_refl). apply list_elem_of_In in H.
      assert (existsb (fun v => match v with
                                | JString s => bool_decide (s = js "react-starter-kit")
                                | _ => false
                                end) items = true) as E'.
      { apply existsb_exists. eexists. split; [exact H|]. by apply bool_decide_eq_true. }
      congruence.
  - split; [|done]. intros _. exists (JObject fs0). by split_and!.
Qed.

Lemma updateDescription_Throw fs :
  updateDescription number_truthy fs = Throw <->
  exists v, field (js "description") fs = Some v /\
            truthy number_truthy (Some v) = true /\ forall s, v <> JString s.
Proof.
  unfold updateDescription. destruct (field (js "description") fs) as [v|]; cbn zeta.
  2:{ split; [done | by intros (? & ? & _)]. }
  destruct (truthy number_truthy (Some v)) eqn:Ht.
  2:{ split; [done|]. intros (? & [= <-] & ? & _). congruence. }
  destruct v as [|b|x|s|items|fs0];
    try (split; [|done]; intros _; eexists; by split_and!).
  split; [done|]. intros (? & [= <-] & _ & H). by destruct (H s).
Qed.

Lemma updateName_renames fs fs1 :
  updateName number_truthy fs = Ok fs1 ->
  field (js "name") fs = Some (JString (js "vendor/react-starter-kit")) ->
  field (js "name") fs1 = Some (JString (js "vendor/react-jsx-starter-kit")).
Proof.
  unfold updateName. intros H Hn. rewrite Hn in H. cbn in H.
  injection H as <-. by rewrite field_setField_eq.
Qed.

(** C6, as the code has it.  The rewrite throws exactly when the name is
    truthy and neither a string nor an array without the element
    [react-starter-kit], or the description is truthy and not a string.
    Whenever it returns: the name [vendor/react-starter-kit] has become
    [vendor/react-jsx-starter-kit]; a [devDependencies] map has none of
    [typescript], [@types/node], [@types/react] and [@types/react-dom],
    whether it had them or not; and that map is the old one without
    those four keys, every other entry kept in place. *)
Theorem rewritePackageJson_renames_and_strips (fs : fields number) :
  (rewritePackageJson number_truthy (JObject fs) = Throw <->
     (exists v, field (js "name") fs = Some v /\
                truthy number_truthy (Some v) = true /\
                (forall s, v <> JString s) /\
                (forall items, v = JArray items ->
                               JString (js "react-starter-kit") ∈ items)) \/
     (exists v, field (js "description") fs = Some v /\
                truthy number_truthy (Some v) = true /\
                forall s, v <> JString s)) /\
  forall fs', rewritePackageJson number_truthy (JObject fs) = Ok (JObject fs') ->
    (field (js "name") fs = Some (JString (js "vendor/react-starter-kit")) ->
     field (js "name") fs' = Some (JString (js "vendor/react-jsx-starter-kit"))) /\
    (forall deps', field (js "devDependencies") fs' = Some (JObject deps') ->
       field (js "typescript") deps' = None /\
       field (js "@types/node") deps' = None /\
       field (js "@types/react") deps' = None /\
       field (js "@types/react-dom") deps' = None) /\
    (forall deps, field (js "devDependencies") fs = Some (JObject deps) ->
       field (js "devDependencies") fs' =
         Some (JObject (List.filter
                 (fun kv => negb (bool_decide
                    (kv.1 ∈ [js "typescript"; js "@types/node"; js "@types/react";
                             js "@types/react-dom"]))) deps)) /\
       forall k,
         k <> js "typescript" -> k <> js "@types/node" -> k <> js "@types/react" ->
         k <> js "@types/react-dom" ->
         field k (List.filter
                 (fun kv => negb (bool_decide
                    (kv.1 ∈ [js "typescript"; js "@types/node"; js "@types/react";
                             js "@types/react-dom"]))) deps)
         = field k deps).
Proof.
  split.
  - unfold rewritePackageJson. rewrite <- updateName_Throw, <- updateDescription_Throw.
    destruct (updateName number_truthy fs) as [fs1|] eqn:H1; [|split; auto].
    assert (updateDescription number_truthy fs1 = Throw <->
            updateDescription number_truthy fs = Throw) as Hsame.
    { rewrite !updateDescription_Throw.
      by rewrite (updateName_field _ _ _ _ H1). }
    destruct (updateDescription number_truthy fs1) as [fs2|] eqn:H2.
    + split; [done|]. intros [?|H]; [done|]. by apply Hsame in H.
    + split; [|done]. intros _. right. by apply Hsame.
  - intros fs' H. unfold rewritePackageJson in H.
    destruct (updateName number_truthy fs) as [fs1|] eqn:H1; [|done].
    destruct (updateDescription number_truthy fs1) as [fs2|] eqn:H2; [|done].
    injection H as <-.
    assert (field (js "devDependencies") fs2 = field (js "devDependencies") fs) as Hdeps.
    { rewrite (updateDescription_field _ _ _ _ H2) by done.
      by rewrite (updateName_field _ _ _ _ H1) by done. }
    split_and!.
    + intros Hn. rewrite removeTypeDependencies_field by done.
      rewrite (updateDescription_field _ _ _ _ H2) by done.
      by apply (updateName_renames fs).
    + intros deps'. rewrite removeTypeDependencies_deps, Hdeps.
      destruct (field (js "devDependencies") fs) as [[]|]; intros; simplify_eq.
      split_and!; apply field_without_drop; unfold typeDependencies;
        repeat first [apply list_elem_of_here | apply list_elem_of_further].
    + intros deps Hd. rewrite removeTypeDependencies_deps, Hdeps, Hd. split; [done|].
      intros k K1 K2 K3 K4. apply field_without_keep.
      intros Hin. repeat (apply elem_of_cons in Hin as [->|Hin]; [done|]).
      by apply elem_of_nil in Hin.
Qed.

End PackageRewrite.

Lemma rewritePackageJson_renames_and_strips_witness :
  exists fs',
    rewritePackageJson truthyZ (JObject example_package) = Ok (JObject fs') /\
    field (js "name") fs' = Some (JString (js "vendor/react-jsx-starter-kit")) /\
    (forall deps', field (js "devDependencies") fs' = Some (JObject deps') ->
       field (js "typescript") deps' = None /\
       field (js "@types/node") deps' = None /\
       field (js "@types/react") deps' = None /\
       field (js "@types/react-dom") deps' = None).
Proof.
  eexists. split; [reflexivity|].
  destruct (rewritePackageJson_renames_and_strips truthyZ example_package) as [_ H].
  destruct (H _ eq_refl) as (Hname & Hnone & _).
  split; [apply Hname; reflexivity | exact Hnone].
Defined.

(** C6 as the claim words it fails: on a package object whose
    description is a number the rewrite throws, [replace] being no method
    of a number; [package.json] stays as it was, with [typescript] among
    its development dependencies and the old name. *)
Lemma rewritePackageJson_throws_on_a_number :
  field (js "name") numbered_package = Some (JString (js "vendor/react-starter-kit")) /\
  field (js "description") numbered_package = Some (JNumber 1%Z) /\
  (exists deps,
     field (js "devDependencies") numbered_package = Some (JObject deps) /\
     field (js "typescript") deps = Some (JString (js "^5.7.2"))) /\
  rewritePackageJson truthyZ (JObject numbered_package) = Throw /\
  lookup (outputDir ++ [js "package.json"]) (tree numbered_world)
  = Some (File numbered_text) /\
  numbered_parse numbered_text = Some (JObject numbered_package) /\
  updatePackageJson truthyZ numbered_parse flat_json numbered_world
  = (Throw, numbered_world).
Proof. split_and!; try reflexivity. eexists. split; reflexivity. Qed.

(** ** Facts about white space, splitting and joining *)

Section TrimFacts.

Implicit Types (s t u : jsstring) (c : N).

Lemma span_app f s : (span f s).1 ++ (span f s).2 = s.
Proof.
  induction s as [|c s IH]; simpl; [done|].
  destruct (f c); [|done]. destruct (span f s). simpl in *. by f_equal.
Qed.

Lemma span_fst_Forall f s : Forall (fun c => f c = true) (span f s).1.
Proof.
  induction s as [|c s IH]; simpl; [constructor|].
  destruct (f c) eqn:E; [|constructor]. destruct (span f s). simpl in *. by constructor.
Qed.

Lemma span_snd_head f s c t : (span f s).2 = c :: t -> f c = false.
Proof.
  induction s as [|d s IH]; simpl; [done|].
  destruct (f d) eqn:E.
  - destruct (span f s). simpl in *. apply IH.
  - simpl. intros ?. by simplify_eq.
Qed.

(** A run that is followed by a unit outside the class stops there. *)
Lemma span_stop f s c t :
  Forall (fun x => f x = true) s -> f c = false -> span f (s ++ c :: t) = (s, c :: t).
Proof.
  intros Hs Hc. induction Hs as [|x s Hx Hs IH]; simpl.
  - by rewrite Hc.
  - by rewrite Hx, IH.
Qed.

Lemma span_all f s : Forall (fun x => f x = true) s -> span f s = (s, []).
Proof.
  intros Hs. induction Hs as [|x s Hx Hs IH]; simpl; [done|]. by rewrite Hx, IH.
Qed.

Lemma span_head_false f c t : f c = false -> span f (c :: t) = ([], c :: t).
Proof. intros H. simpl. by rewrite H. Qed.

Lemma trimStart_cons_space c s : re_space c = true -> trimStart (c :: s) = trimStart s.
Proof. unfold trimStart. simpl. intros ->. by destruct (span re_space s). Qed.

Lemma trimStart_cons_other c s : re_space c = false -> trimStart (c :: s) = c :: s.
Proof. unfold trimStart. simpl. by intros ->. Qed.

Lemma trimStart_idem s : trimStart (trimStart s) = trimStart s.
Proof.
  induction s as [|c s IH]; [done|]. destruct (re_space c) eqn:E.
  - by rewrite trimStart_cons_space.
  - by rewrite !trimStart_cons_other.
Qed.

Lemma trimStart_snoc_other s c :
  re_space c = false -> trimStart (s ++ [c]) = trimStart s ++ [c].
Proof.
  intros Hc. induction s as [|d s IH]; simpl.
  - by rewrite trimStart_cons_other.
  - destruct (re_space d) eqn:E.
    + by rewrite !trimStart_cons_space.
    + by rewrite !trimStart_cons_other.
Qed.

Lemma trimEnd_idem s : trimEnd (trimEnd s) = trimEnd s.
Proof. unfold trimEnd. by rewrite rev_involutive, trimStart_idem. Qed.

Lemma trimStart_trimEnd s : trimStart s = s -> trimStart (trimEnd s) = trimEnd s.
Proof.
  intros H. destruct s as [|c s]; [done|].
  destruct (re_space c) eqn:E.
  { rewrite trimStart_cons_space in H by done.
    assert (length (trimStart s) <= length s)%nat.
    { unfold trimStart. rewrite <- (span_app re_space s) at 2.
      rewrite length_app. lia. }
    apply (f_equal length) in H. simpl in H. lia. }
  unfold trimEnd. simpl rev. rewrite trimStart_snoc_other by done.
  rewrite rev_app_distr. simpl. by rewrite trimStart_cons_other.
Qed.

Lemma trim_idem s : trim (trim s) = trim s.
Proof.
  unfold trim. rewrite (trimStart_trimEnd (trimStart s)) by apply trimStart_idem.
  apply trimEnd_idem.
Qed.

Lemma trim_cons_space c s : re_space c = true -> trim (c :: s) = trim s.
Proof. intros H. unfold trim. by rewrite trimStart_cons_space. Qed.

(** Trimming only drops units. *)
Lemma trimStart_Forall (P : N -> Prop) s : Forall P s -> Forall P (trimStart s).
Proof.
  intros H. unfold trimStart. rewrite <- (span_app re_space s) in H.
  by apply Forall_app in H as [_ H].
Qed.

Lemma trim_Forall (P : N -> Prop) s : Forall P s -> Forall P (trim s).
Proof.
  intros H. unfold trim, trimEnd. apply Forall_rev, trimStart_Forall, Forall_rev.
  by apply trimStart_Forall.
Qed.

End TrimFacts.

Section SplitJoinFacts.

Implicit Types (s t u : jsstring) (c sep : N) (items : list jsstring).

Lemma split_not_nil sep s : split sep s <> [].
Proof. destruct s as [|c s]; simpl; [done|]. destruct (c =? sep); [done|]. by destruct (split sep s). Qed.

Lemma split_Forall sep s : Forall (Forall (fun c => c <> sep)) (split sep s).
Proof.
  induction s as [|c s IH]; simpl; [by repeat constructor|].
  destruct (c =? sep) eqn:E; [by constructor|].
  apply N.eqb_neq in E. destruct (split sep s) as [|x xs]; [by repeat constructor|].
  inversion IH; subst. constructor; [by constructor | done].
Qed.

Lemma split_app_sep sep s t :
  Forall (fun c => c <> sep) s -> split sep (s ++ sep :: t) = s :: split sep t.
Proof.
  intros Hs. induction Hs as [|c s Hc Hs IH]; simpl.
  - by rewrite N.eqb_refl.
  - apply N.eqb_neq in Hc. by rewrite Hc, IH.
Qed.

Lemma split_no_sep sep s : Forall (fun c => c <> sep) s -> split sep s = [s].
Proof.
  intros Hs. induction Hs as [|c s Hc Hs IH]; simpl; [done|].
  apply N.eqb_neq in Hc. by rewrite Hc, IH.
Qed.

Lemma split_join_comma x items :
  Forall (Forall (fun c => c <> 44)) (x :: items) ->
  split 44 (join (js ", ") (x :: items)) = x :: List.map (cons 32) items.
Proof.
  revert x. induction items as [|y items IH]; intros x Hall.
  - simpl. apply split_no_sep. by inversion Hall.
  - inversion Hall as [|? ? Hx Hrest]; subst.
    change (join (js ", ") (x :: y :: items))
      with (x ++ 44 :: 32 :: join (js ", ") (y :: items)).
    rewrite split_app_sep by done. f_equal.
    cbn [split]. change (32 =? 44) with false. cbv iota. by rewrite IH.
Qed.

Lemma kept_items_clean (inner : jsstring) :
  Forall clean_item (List.filter keepIgnore (ignoreItems inner)).
Proof.
  apply Forall_forall. intros x Hx. apply list_elem_of_In, filter_In in Hx as [Hx Hk].
  unfold ignoreItems in Hx. apply in_map_iff in Hx as (piece & <- & Hp).
  split_and!; [apply trim_idem| |done].
  apply trim_Forall. pose proof (split_Forall 44 inner) as H.
  rewrite Forall_forall in H. by apply H, list_elem_of_In.
Qed.

Lemma filter_clean items :
  Forall clean_item items -> List.filter keepIgnore items = items.
Proof.
  intros H. induction H as [|x items (_ & _ & Hk) _ IH]; simpl; [done|].
  by rewrite Hk, IH.
Qed.

Lemma ignoreItems_join items :
  Forall clean_item items -> items <> [] ->
  ignoreItems (join (js ", ") items) = items.
Proof.
  intros Hall Hne. destruct items as [|x items]; [done|].
  unfold ignoreItems. rewrite split_join_comma.
  - inversion Hall as [|? ? (Hx & _) Hrest]; subst. cbn [List.map]. rewrite Hx. f_equal.
    rewrite List.map_map. clear Hx Hall Hne.
    induction Hrest as [|y items (Hy & _) _ IH]; simpl; [done|].
    rewrite trim_cons_space by done. by rewrite Hy, IH.
  - eapply Forall_impl; [exact Hall|]. by intros y (_ & Hy & _).
Qed.

(** Reading the new list back gives the kept items, as they are. *)
Lemma kept_items_again (inner : jsstring) :
  List.filter keepIgnore (ignoreItems (newIgnores inner))
  = List.filter keepIgnore (ignoreItems inner).
Proof.
  unfold newIgnores. pose proof (kept_items_clean inner) as H.
  destruct (List.filter keepIgnore (ignoreItems inner)) as [|x items] eqn:E; [done|].
  rewrite ignoreItems_join by done. by apply filter_clean.
Qed.

Lemma newIgnores_idem (inner : jsstring) : newIgnores (newIgnores inner) = newIgnores inner.
Proof. unfold newIgnores at 1. rewrite kept_items_again. done. Qed.

Lemma join_Forall (P : N -> Prop) (sepr : jsstring) items :
  Forall P sepr -> Forall (Forall P) items -> Forall P (join sepr items).
Proof.
  intros Hs H. induction H as [|x items Hx _ IH]; simpl; [constructor|].
  destruct items; [done|]. apply Forall_app. split; [done|].
  apply Forall_app. by split.
Qed.

End SplitJoinFacts.

(** ** Facts about the leftmost match *)

Section SearchFacts.

Implicit Types (m : matcher) (s a b c : jsstring) (prev : option N).

Lemma sub1_search m f prev s :
  sub1 m f prev s =
    match search m prev s with
    | Some (a, b, c) => a ++ f b ++ c
    | None => s
    end.
Proof.
  revert prev. induction s as [|x s IH]; intros prev; simpl.
  - by destruct (m prev []).
  - destruct (m prev (x :: s)); [done|]. rewrite IH.
    by destruct (search m (Some x) s) as [[[a b] c]|].
Qed.

Lemma search_inv m prev s a b c :
  search m prev s = Some (a, b, c) ->
  s = a ++ b ++ c /\
  exists n, m (prev_after prev a) (b ++ c) = Some n /\ b = take n (b ++ c).
Proof.
  revert prev a b c. induction s as [|x s IH]; intros prev a b c H; simpl in H.
  - destruct (m prev []) as [n|] eqn:E; [|done]. simplify_eq.
    rewrite take_nil, drop_nil. split; [done|]. exists n.
    split; [exact E | by rewrite app_nil_l, take_nil].
  - destruct (m prev (x :: s)) as [n|] eqn:E.
    + simplify_eq. rewrite take_drop. split; [done|]. exists n.
      split; [exact E | done].
    + destruct (search m (Some x) s) as [[[a' b'] c']|] eqn:Es; [|done].
      simplify_eq. apply IH in Es as (-> & n & Hn & Hb).
      split; [done|]. exists n. by rewrite prev_after_cons.
Qed.

(** No match starts before the leftmost one. *)
Lemma search_before m prev s a b c :
  search m prev s = Some (a, b, c) ->
  forall a1 a2, a = a1 ++ a2 -> a2 <> [] ->
    m (prev_after prev a1) (a2 ++ b ++ c) = None.
Proof.
  revert prev a b c. induction s as [|x s IH]; intros prev a b c H a1 a2 Ha Hne; simpl in H.
  - destruct (m prev []); [|done]. simplify_eq. by destruct a1, a2.
  - destruct (m prev (x :: s)) as [n|] eqn:E.
    { simplify_eq. by destruct a1, a2. }
    destruct (search m (Some x) s) as [[[a' b'] c']|] eqn:Es; [|done].
    simplify_eq. pose proof (search_inv _ _ _ _ _ _ Es) as (Hs & _).
    destruct a1 as [|y a1]; simpl in H.
    + subst a2. simpl. by rewrite <- Hs.
    + simplify_eq. rewrite prev_after_cons. by eapply IH.
Qed.

Lemma search_app m prev a rest n :
  (forall a1 a2, a = a1 ++ a2 -> a2 <> [] ->
     m (prev_after prev a1) (a2 ++ rest) = None) ->
  m (prev_after prev a) rest = Some n ->
  search m prev (a ++ rest) = Some (a, take n rest, drop n rest).
Proof.
  revert prev. induction a as [|x a IH]; intros prev Hbefore Hm.
  - change (prev_after prev []) with prev in Hm.
    destruct rest; cbn [app search]; by rewrite Hm.
  - cbn [app search].
    assert (m prev (x :: a ++ rest) = None) as -> by (by apply (Hbefore [] (x :: a))).
    rewrite (IH (Some x)); [done| |by rewrite <- (prev_after_cons prev)].
    intros a1 a2 -> Hne. rewrite <- (prev_after_cons prev). by apply (Hbefore (x :: a1)).
Qed.

End SearchFacts.

(** ** The lint configuration *)

Section IgnoresPattern.

Implicit Types (s t u b : jsstring) (c : N) (prev : option N).

Lemma strip_app p s : strip p (p ++ s) = Some s.
Proof. unfold strip. by rewrite startsWith_app, drop_app_length. Qed.

Lemma strip_inv p s r : strip p s = Some r -> s = p ++ r.
Proof.
  unfold strip. destruct (startsWith p s) eqn:E; [|done].
  intros ?. simplify_eq. by apply startsWith_inv.
Qed.

Lemma startsWith_app_long p b t :
  (length p <= length b)%nat -> startsWith p (b ++ t) = startsWith p b.
Proof.
  revert b. induction p as [|x p IH]; intros [|y b] H; simpl in *; try done; try lia.
  rewrite IH by lia. done.
Qed.

Lemma startsWith_app_short p b t :
  (length b < length p)%nat ->
  startsWith p (b ++ t) = true -> startsWith (drop (length b) p) t = true.
Proof.
  revert b. induction p as [|x p IH]; intros [|y b] H; simpl in *; try done; try lia.
  intros [_ Hs]%andb_true_iff. apply IH; [lia | done].
Qed.

Lemma spaces_app_other b c t :
  re_space c = false -> spaces (b ++ c :: t) = spaces b ++ c :: t.
Proof.
  intros Hc. unfold spaces. induction b as [|d b IH]; simpl.
  - by rewrite Hc.
  - destruct (re_space d); [|done].
    destruct (span re_space (b ++ c :: t)), (span re_space b). done.
Qed.

Lemma spaces_stop ws c t :
  Forall (fun x => re_space x = true) ws -> re_space c = false ->
  spaces (ws ++ c :: t) = c :: t.
Proof. intros Hws Hc. unfold spaces. by rewrite span_stop. Qed.

Lemma upto_stop c u t : Forall (fun x => x <> c) u -> upto c (u ++ c :: t) = Some (u, t).
Proof.
  intros Hu. unfold upto. rewrite span_stop; [done| |by rewrite N.eqb_refl].
  eapply Forall_impl; [exact Hu|]. intros x Hx. simpl. by apply negb_true_iff, N.eqb_neq.
Qed.

Lemma upto_inv c s u t :
  upto c s = Some (u, t) -> s = u ++ c :: t /\ Forall (fun x => x <> c) u.
Proof.
  unfold upto. intros H.
  pose proof (span_app (fun x => negb (x =? c)) s) as Happ.
  pose proof (span_fst_Forall (fun x => negb (x =? c)) s) as Hall.
  pose proof (span_snd_head (fun x => negb (x =? c)) s) as Hhead.
  destruct (span (fun x => negb (x =? c)) s) as [u' [|d rest]]; [done|].
  simplify_eq. simpl in *. specialize (Hhead d t eq_refl).
  apply negb_false_iff, N.eqb_eq in Hhead as ->. split; [done|].
  eapply Forall_impl; [exact Hall|]. intros x Hx. simpl in Hx.
  by apply negb_true_iff, N.eqb_neq in Hx.
Qed.

Lemma upto_is_Some c s : In c s -> is_Some (upto c s).
Proof.
  intros Hin. apply in_split in Hin as (l1 & l2 & ->).
  induction l1 as [|x l1 IH]; unfold upto in *; simpl.
  - rewrite N.eqb_refl. simpl. by eexists.
  - destruct (x =? c) eqn:E; simpl; [by eexists|].
    destruct (span (fun x0 => negb (x0 =? c)) (l1 ++ c :: l2)) as [u [|d rest]].
    + by destruct IH.
    + by eexists.
Qed.

Lemma re_ignores_at prev ws inner after :
  Forall (fun x => re_space x = true) ws -> Forall (fun x => x <> 93) inner ->
  re_ignores prev (ignores_kw ++ ws ++ 91 :: inner ++ 93 :: after)
  = Some (length (ignores_kw ++ ws ++ 91 :: inner ++ [93])).
Proof.
  intros Hws Hin. unfold re_ignores. fold ignores_kw. rewrite strip_app.
  cbn [mbind option_bind]. rewrite spaces_stop by done.
  change (strip [91] (91 :: inner ++ 93 :: after)) with (Some (inner ++ 93 :: after)).
  cbn [mbind option_bind]. rewrite upto_stop by done. cbn [mbind option_bind].
  unfold matched. f_equal. rewrite !length_app. cbn [length].
  rewrite !length_app. cbn [length]. lia.
Qed.

Lemma re_ignores_inv prev s n :
  re_ignores prev s = Some n ->
  exists ws inner after,
    s = ignores_kw ++ ws ++ 91 :: inner ++ 93 :: after /\
    Forall (fun x => re_space x = true) ws /\ Forall (fun x => x <> 93) inner /\
    n = length (ignores_kw ++ ws ++ 91 :: inner ++ [93]).
Proof.
  unfold re_ignores. fold ignores_kw. intros H.
  destruct (strip ignores_kw s) as [s1|] eqn:E1; [|done]. cbn [mbind option_bind] in H.
  apply strip_inv in E1 as ->.
  destruct (strip [91] (spaces s1)) as [s2|] eqn:E2; [|done]. cbn [mbind option_bind] in H.
  apply strip_inv in E2.
  destruct (upto 93 s2) as [[inner after]|] eqn:E3; [|done]. cbn [mbind option_bind] in H.
  apply upto_inv in E3 as [-> Hinner].
  exists (span re_space s1).1, inner, after.
  assert (s1 = (span re_space s1).1 ++ 91 :: inner ++ 93 :: after) as Hs1.
  { rewrite <- (span_app re_space s1) at 1. f_equal. exact E2. }
  split_and!; [by rewrite <- Hs1|apply span_fst_Forall|done|].
  unfold matched in H. simplify_eq. rewrite Hs1 at 1.
  rewrite !length_app. cbn [length]. rewrite !length_app. cbn [length]. lia.
Qed.

End IgnoresPattern.

(** Right-nested appends, conses pulled out. *)
Tactic Notation "flat_app" :=
  repeat (rewrite <- app_assoc || rewrite <- app_comm_cons).
Tactic Notation "flat_app" "in" hyp(H) :=
  repeat (rewrite <- app_assoc in H || rewrite <- app_comm_cons in H).

Section IgnoresRewrite.

Implicit Types (s t u b : jsstring) (c : N) (prev : option N).

(** A match that starts before an [ignores:] and runs into it has found
    its brackets earlier: if there is none with a closing bracket to come,
    there is none whatever follows. *)
Lemma re_ignores_before prev prev' b rest rest' :
  b <> [] -> In 93 rest ->
  re_ignores prev (b ++ ignores_kw ++ rest) = None ->
  re_ignores prev' (b ++ ignores_kw ++ rest') = None.
Proof.
  intros Hb H93 Hnone. unfold re_ignores in *. fold ignores_kw in *.
  destruct (decide (length b < length ignores_kw)%nat) as [Hshort|Hlong].
  - assert (forall y, strip ignores_kw (b ++ ignores_kw ++ y) = None) as Hs.
    { intros y. unfold strip.
      destruct (startsWith ignores_kw (b ++ ignores_kw ++ y)) eqn:E; [|done].
      apply startsWith_app_short in E; [|done]. exfalso.
      destruct b as [|b1 [|b2 [|b3 [|b4 [|b5 [|b6 [|b7 [|b8 b]]]]]]]];
        try done; simpl in Hshort; try lia. }
    by rewrite Hs.
  - assert (forall y, strip ignores_kw (b ++ ignores_kw ++ y)
                      = (fun b' => b' ++ ignores_kw ++ y) <$> strip ignores_kw b) as Hs.
    { intros y. unfold strip. rewrite startsWith_app_long by lia.
      destruct (startsWith ignores_kw b); [|done].
      cbn [fmap option_fmap option_map]. f_equal.
      rewrite drop_app_le by lia. done. }
    rewrite Hs in *. destruct (strip ignores_kw b) as [b'|]; [|done].
    cbn [fmap option_fmap option_map mbind option_bind] in *.
    change (ignores_kw ++ rest) with (105 :: js "gnores:" ++ rest) in Hnone.
    change (ignores_kw ++ rest') with (105 :: js "gnores:" ++ rest').
    rewrite spaces_app_other in * by done.
    destruct (spaces b') as [|d b'']; [done|].
    unfold strip in *. cbn [app startsWith length drop] in *.
    destruct (91 =? d); [|done]. cbn [andb mbind option_bind] in *.
    destruct (upto_is_Some 93 (b'' ++ 105 :: js "gnores:" ++ rest)) as [[u t] Hu].
    { apply in_or_app. right. right. apply in_or_app. by right. }
    rewrite drop_0, Hu in Hnone. done.
Qed.

(** The rewrite, by the leftmost match. *)
Lemma rewriteIgnores_search content :
  rewriteIgnores content =
    match search re_ignores None content with
    | Some (before, m, after) =>
        before ++ (js "ignores: [" ++ newIgnores (ignoresList m) ++ js "]") ++ after
    | None => content
    end.
Proof. unfold rewriteIgnores, replaceFirst. by rewrite sub1_search. Qed.

Lemma space_not_bracket ws :
  Forall (fun x => re_space x = true) ws -> Forall (fun x => negb (x =? 91) = true) ws.
Proof.
  intros H. eapply Forall_impl; [exact H|]. intros x Hx. simpl.
  destruct (x =? 91) eqn:E; [|done]. apply N.eqb_eq in E as ->. done.
Qed.

Lemma ignoresList_match ws inner :
  Forall (fun x => re_space x = true) ws ->
  ignoresList (ignores_kw ++ ws ++ 91 :: inner ++ [93]) = inner.
Proof.
  intros Hws. unfold ignoresList.
  rewrite (app_assoc ignores_kw ws), span_stop; [|apply Forall_app; split|done].
  - cbn [snd]. change (drop 1 (91 :: inner ++ [93])) with (inner ++ [93]).
    by rewrite removelast_last.
  - by repeat constructor.
  - by apply space_not_bracket.
Qed.

Lemma newIgnores_no_bracket inner :
  Forall (fun x => x <> 93) inner -> Forall (fun x => x <> 93) (newIgnores inner).
Proof.
  intros H. unfold newIgnores. apply join_Forall; [by repeat constructor|].
  apply Forall_forall. intros x Hx. apply list_elem_of_In, filter_In in Hx as [Hx _].
  unfold ignoreItems in Hx. apply in_map_iff in Hx as (piece & <- & Hp).
  apply trim_Forall. clear -H Hp. revert piece Hp.
  induction inner as [|c inner IH]; intros piece Hp; simpl in Hp.
  - destruct Hp as [<-|[]]. constructor.
  - inversion H; subst. destruct (c =? 44).
    + destruct Hp as [<-|Hp]; [constructor | by apply IH].
    + destruct (split 44 inner) as [|y ys] eqn:E.
      * destruct Hp as [<-|[]]. by repeat constructor.
      * destruct Hp as [<-|Hp].
        -- constructor; [done|]. apply IH; [done | by left].
        -- apply IH; [done | by right].
Qed.

(** What the rewrite finds, and what a second look at its result finds:
    the same place, holding the kept items. *)
Lemma rewriteIgnores_found content before m after :
  search re_ignores None content = Some (before, m, after) ->
  exists ws inner,
    m = ignores_kw ++ ws ++ 91 :: inner ++ [93] /\
    ignoresList m = inner /\
    rewriteIgnores content
      = before ++ (js "ignores: [" ++ newIgnores inner ++ js "]") ++ after /\
    search re_ignores None (rewriteIgnores content)
      = Some (before, js "ignores: [" ++ newIgnores inner ++ js "]", after) /\
    ignoresList (js "ignores: [" ++ newIgnores inner ++ js "]") = newIgnores inner.
Proof.
  intros Hs. rewrite rewriteIgnores_search, Hs.
  pose proof (search_inv _ _ _ _ _ _ Hs) as (Hcontent & n & Hn & Hm).
  pose proof (search_before _ _ _ _ _ _ Hs) as Hbefore.
  apply re_ignores_inv in Hn as (ws & inner & after' & Heq & Hws & Hinner & ->).
  assert (m = ignores_kw ++ ws ++ 91 :: inner ++ [93] /\ after = after') as [-> <-].
  { rewrite Heq in Hm.
    replace (ignores_kw ++ ws ++ 91 :: inner ++ 93 :: after')
      with ((ignores_kw ++ ws ++ 91 :: inner ++ [93]) ++ after') in Hm, Heq
      by (by rewrite <- !app_assoc; cbn; rewrite <- !app_assoc).
    rewrite take_app_length in Hm. split; [done|].
    subst m. by apply app_inv_head in Heq. }
  exists ws, inner. rewrite ignoresList_match by done. split_and!; try done.
  - pose proof (newIgnores_no_bracket inner Hinner) as Hnew.
    change (js "ignores: [" ++ newIgnores inner ++ js "]")
      with (ignores_kw ++ [32] ++ 91 :: newIgnores inner ++ [93]).
    pose proof (re_ignores_at (prev_after None before) [32] (newIgnores inner) after)
      as Hat.
    rewrite (search_app re_ignores None before
               ((ignores_kw ++ [32] ++ 91 :: newIgnores inner ++ [93]) ++ after)
               (length (ignores_kw ++ [32] ++ 91 :: newIgnores inner ++ [93]))).
    + by rewrite take_app_length, drop_app_length.
    + intros a1 a2 -> Hne. specialize (Hbefore a1 a2 eq_refl Hne).
      flat_app. flat_app in Hbefore.
      eapply (re_ignores_before _ _ a2 (ws ++ 91 :: inner ++ 93 :: after));
        [done| |exact Hbefore].
      apply in_or_app. right. right. apply in_or_app. right. by left.
    + flat_app. flat_app in Hat. apply Hat; [by repeat constructor | done].
  - change (js "ignores: [" ++ newIgnores inner ++ js "]")
      with (ignores_kw ++ [32] ++ 91 :: newIgnores inner ++ [93]).
    apply ignoresList_match. by repeat constructor.
Qed.

Lemma rewriteIgnores_not_found content :
  search re_ignores None content = None -> rewriteIgnores content = content.
Proof. intros H. by rewrite rewriteIgnores_search, H. Qed.

End IgnoresRewrite.

Lemma keepIgnore_false (item : jsstring) :
  keepIgnore item = false <->
  item = [] \/
  includes (quote :: js "output" ++ [quote]) item = true \/
  includes (dquote :: js "output" ++ [dquote]) item = true \/
  includes (quote :: js "output/") item = true \/
  includes (dquote :: js "output/") item = true.
Proof.
  unfold keepIgnore. rewrite !andb_false_iff, !negb_false_iff, bool_decide_eq_true.
  tauto.
Qed.

(** C7, as the code has it.  Where the content has [ignores:] and a
    bracketed list, the text between the first such opening bracket and
    the next closing bracket is cut at its commas and each item trimmed;
    the rewrite puts in its place the items that are not empty and hold
    none of the four quoted forms of [output], in their order, joined by
    a comma and a space, and changes nothing else.  Read again, the
    rewritten list has exactly those items. *)
Theorem rewriteIgnores_keeps_other_items (content before m after : jsstring) :
  search re_ignores None content = Some (before, m, after) ->
  rewriteIgnores content
    = before
      ++ (js "ignores: ["
          ++ join (js ", ") (List.filter keepIgnore (ignoreItems (ignoresList m)))
          ++ js "]")
      ++ after /\
  (forall item,
     In item (List.filter keepIgnore (ignoreItems (ignoresList m))) <->
     In item (ignoreItems (ignoresList m)) /\
     item <> [] /\
     includes (quote :: js "output" ++ [quote]) item = false /\
     includes (dquote :: js "output" ++ [dquote]) item = false /\
     includes (quote :: js "output/") item = false /\
     includes (dquote :: js "output/") item = false) /\
  exists m',
    search re_ignores None (rewriteIgnores content) = Some (before, m', after) /\
    List.filter keepIgnore (ignoreItems (ignoresList m'))
      = List.filter keepIgnore (ignoreItems (ignoresList m)) /\
    (List.filter keepIgnore (ignoreItems (ignoresList m)) <> [] ->
     ignoreItems (ignoresList m')
       = List.filter keepIgnore (ignoreItems (ignoresList m))).
Proof.
  intros Hs.
  destruct (rewriteIgnores_found _ _ _ _ Hs) as (ws & inner & -> & Hl & Hr & Hs' & Hl').
  rewrite Hl. split_and!.
  - exact Hr.
  - intros item. rewrite filter_In. unfold keepIgnore.
    rewrite !andb_true_iff, !negb_true_iff, bool_decide_eq_false. tauto.
  - eexists. split; [exact Hs'|]. rewrite Hl'. split.
    + apply kept_items_again.
    + intros Hne. unfold newIgnores. apply ignoreItems_join; [|done].
      apply kept_items_clean.
Qed.

Lemma rewriteIgnores_keeps_other_items_witness :
  search re_ignores None example_eslint
    = Some (js "export default [{ ",
            js "ignores: ['vendor', 'node_modules', 'output', 'public']",
            js " }];") /\
  rewriteIgnores example_eslint
    = js "export default [{ ignores: ['vendor', 'node_modules', 'public'] }];".
Proof.
  split; [reflexivity|].
  destruct (rewriteIgnores_keeps_other_items example_eslint
              (js "export default [{ ")
              (js "ignores: ['vendor', 'node_modules', 'output', 'public']")
              (js " }];") eq_refl) as [H _].
  exact H.
Defined.

(** C7 as the claim words it fails: the entry ['**/output/**'] names the
    output directory and is kept. *)
Lemma rewriteIgnores_keeps_a_mention_of_output :
  rewriteIgnores (js "ignores: ['**/output/**', 'vendor']")
    = js "ignores: ['**/output/**', 'vendor']" /\
  search re_ignores None (rewriteIgnores (js "ignores: ['**/output/**', 'vendor']"))
    = Some ([], js "ignores: ['**/output/**', 'vendor']", []) /\
  ignoreItems (ignoresList (js "ignores: ['**/output/**', 'vendor']"))
    = [js "'**/output/**'"; js "'vendor'"] /\
  mentions_output (js "'**/output/**'") = true.
Proof. split_and!; reflexivity. Qed.

(** ** Blank lines and the scans that cannot make one *)

Section BlankLines.

Implicit Types (s t u w x : jsstring) (c d : N) (prev : option N) (m : matcher).

Lemma line_terminator_space c : line_terminator c = true -> re_space c = true.
Proof.
  unfold line_terminator. rewrite !orb_true_iff, !N.eqb_eq.
  intros [[[->| ->]| ->]| ->]; reflexivity.
Qed.

Lemma space_line_terminator c : re_space c = false -> line_terminator c = false.
Proof.
  intros H. destruct (line_terminator c) eqn:E; [|done].
  apply line_terminator_space in E. congruence.
Qed.

Lemma prev_after_app prev a b :
  prev_after prev (a ++ b) = prev_after (prev_after prev a) b.
Proof.
  revert prev. induction a as [|c a IH]; intros prev; [done|].
  rewrite <- app_comm_cons, !prev_after_cons. apply IH.
Qed.

Lemma nomatch_nil m prev : nomatch m prev [] <-> m prev [] = None.
Proof.
  unfold nomatch. split; [intros H; by apply (H [] [])|].
  intros H a b E. symmetry in E. apply app_eq_nil in E as [-> ->]. done.
Qed.

Lemma nomatch_cons m prev c s :
  nomatch m prev (c :: s) <-> m prev (c :: s) = None /\ nomatch m (Some c) s.
Proof.
  unfold nomatch. split.
  - intros H. split; [by apply (H [] (c :: s))|].
    intros a b ->. specialize (H (c :: a) b eq_refl). by rewrite prev_after_cons in H.
  - intros [H0 H] [|d a] b E; simpl in E.
    + by subst.
    + simplify_eq. rewrite prev_after_cons. by apply H.
Qed.

Lemma nomatch_app m prev a b :
  nomatch m prev (a ++ b) -> nomatch m (prev_after prev a) b.
Proof.
  intros H a' b' ->. rewrite <- prev_after_app. apply H. by rewrite app_assoc.
Qed.

(** Where the pattern matches nowhere, the global replacement returns
    its input. *)
Lemma gsub_nomatch_id m f prev s : nomatch m prev s -> gsub m f prev 0 s = s.
Proof.
  revert prev. induction s as [|c s IH]; intros prev H.
  - apply nomatch_nil in H. simpl. by rewrite H.
  - apply nomatch_cons in H as [H0 H]. rewrite gsub_nomatch by done.
    f_equal. by apply IH.
Qed.

Lemma span_fst_cons f c t :
  (span f (c :: t)).1 = if f c then c :: (span f t).1 else [].
Proof. simpl. destruct (f c); [|done]. by destruct (span f t). Qed.

Lemma span_fst_app_stop f w c t :
  f c = false -> (span f (w ++ c :: t)).1 = (span f w).1.
Proof.
  intros Hc. induction w as [|d w IH].
  - by rewrite app_nil_l, span_fst_cons, Hc.
  - rewrite <- app_comm_cons, !span_fst_cons. destruct (f d); [by f_equal | done].
Qed.

Lemma last_newline_lookup w k : last_newline w = Some k -> w !! k = Some newline.
Proof.
  revert k. induction w as [|c w IH]; intros k H; simpl in H; [done|].
  destruct (last_newline w) as [j|] eqn:E.
  - simplify_eq. simpl. by apply IH.
  - destruct (c =? newline) eqn:Ec; [|done]. simplify_eq.
    by apply N.eqb_eq in Ec as ->.
Qed.

Lemma re_blank_line_None prev s :
  re_blank_line prev s = None <->
  at_line_start prev = false \/ last_newline (span re_space s).1 = None.
Proof.
  unfold re_blank_line. destruct (at_line_start prev).
  - destruct (last_newline _); simpl; split; try done; [by intros [|] | by right].
  - split; [by left | done].
Qed.

Lemma re_blank_line_Some prev s n :
  re_blank_line prev s = Some n ->
  exists k, n = S k /\ s !! k = Some newline /\ at_line_start prev = true.
Proof.
  unfold re_blank_line. destruct (at_line_start prev); [|done].
  destruct (last_newline _) as [k|] eqn:E; [|done]. simpl. intros ?. simplify_eq.
  exists k. split_and!; try done. apply last_newline_lookup in E.
  rewrite <- (span_app re_space s). by apply lookup_app_l_Some.
Qed.

(** Only whether [prev] ends a line matters to the pattern. *)
Lemma nomatch_blank_prev prev prev' s :
  at_line_start prev = at_line_start prev' ->
  nomatch re_blank_line prev s -> nomatch re_blank_line prev' s.
Proof.
  intros Hp H a b E. specialize (H a b E). destruct a as [|c a].
  - change (prev_after prev' []) with prev'. change (prev_after prev []) with prev in H.
    unfold re_blank_line in *. by rewrite <- Hp.
  - by rewrite prev_after_cons in *.
Qed.

Lemma prev_after_lookup prev s k c :
  s !! k = Some c -> prev_after prev (take (S k) s) = Some c.
Proof.
  intros Hk. unfold prev_after. rewrite last_lookup.
  pose proof (lookup_lt_Some _ _ _ Hk).
  rewrite length_take, Nat.min_l by lia. simpl.
  rewrite lookup_take_lt by lia. by rewrite Hk.
Qed.

Local Abbreviation removeBlank := (gsub re_blank_line (fun _ => [])).

Lemma span_removeBlank prev t :
  last_newline (span re_space t).1 = None ->
  (span re_space (removeBlank prev 0%nat t)).1 = (span re_space t).1.
Proof.
  revert prev. induction t as [|d t IH]; intros prev H.
  - simpl. by destruct (re_blank_line prev []).
  - rewrite gsub_nomatch by (apply re_blank_line_None; by right).
    rewrite !span_fst_cons in *. destruct (re_space d); [|done].
    f_equal. apply IH. simpl in H. by destruct (last_newline _).
Qed.

(** What the blank-line rule returns holds no blank line. *)
Lemma removeBlank_nomatch prev s :
  nomatch re_blank_line prev (removeBlank prev 0%nat s).
Proof.
  revert prev. induction s as [s IH] using (induction_ltof1 _ (@length N)).
  unfold ltof in IH. intros prev.
  destruct (re_blank_line prev s) as [n|] eqn:E.
  - apply re_blank_line_Some in E as H. destruct H as (k & -> & Hk & Hp).
    pose proof (lookup_lt_Some _ _ _ Hk).
    rewrite (gsub_match _ _ _ k) by (done || lia). rewrite app_nil_l.
    rewrite (prev_after_lookup _ _ _ _ Hk).
    apply (nomatch_blank_prev (Some newline)); [by rewrite Hp|].
    apply IH. rewrite length_drop. lia.
  - destruct s as [|c s].
    + simpl. rewrite E. by apply nomatch_nil.
    + rewrite gsub_nomatch by done. apply nomatch_cons.
      split; [|apply IH; simpl; lia].
      apply re_blank_line_None in E as [E|E]; apply re_blank_line_None; [by left|right].
      pose proof (span_removeBlank prev (c :: s) E) as Hsp.
      rewrite gsub_nomatch in Hsp by (apply re_blank_line_None; by right).
      by rewrite Hsp.
Qed.

(** Text that starts with a unit that is no white space and that holds
    no line terminator neither starts nor completes a blank line. *)
Lemma at_line_start_solid c r :
  line_terminator c = false -> Forall (fun d => line_terminator d = false) r ->
  at_line_start (prev_after (Some c) r) = false.
Proof.
  intros Hc Hr. revert c Hc. induction Hr as [|d r Hd Hr IH]; intros c Hc; [done|].
  rewrite prev_after_cons. by apply IH.
Qed.

Lemma nomatch_blank_inner c r x :
  line_terminator c = false -> Forall (fun d => line_terminator d = false) r ->
  nomatch re_blank_line (prev_after (Some c) r) x ->
  nomatch re_blank_line (Some c) (r ++ x).
Proof.
  intros Hc Hr. revert c Hc. induction Hr as [|d r Hd Hr IH]; intros c Hc H; [done|].
  rewrite <- app_comm_cons. apply nomatch_cons. split.
  - apply re_blank_line_None. by left.
  - apply IH; [done|]. by rewrite <- (prev_after_cons (Some c)).
Qed.

Lemma nomatch_blank_solid c r prev prev' x :
  re_space c = false -> Forall (fun d => line_terminator d = false) r ->
  at_line_start prev' = false ->
  nomatch re_blank_line prev' x -> nomatch re_blank_line prev (c :: r ++ x).
Proof.
  intros Hc Hr Hp H. apply nomatch_cons. split.
  - apply re_blank_line_None. right. by rewrite span_fst_cons, Hc.
  - apply space_line_terminator in Hc. apply nomatch_blank_inner; [done..|].
    apply (nomatch_blank_prev prev'); [|done].
    by rewrite Hp, at_line_start_solid.
Qed.

Section Literal.

Variables (p0 r0 : N) (p' r' : jsstring).
Hypothesis Hp0 : re_space p0 = false.
Hypothesis Hr0 : re_space r0 = false.
Hypothesis Hr' : Forall (fun d => line_terminator d = false) r'.
Hypothesis Hplast : forall prev, at_line_start (prev_after prev (p0 :: p')) = false.

Lemma span_replaceLit s :
  (span re_space (replaceLit (p0 :: p') (r0 :: r') s)).1 = (span re_space s).1.
Proof.
  induction s as [|d s IH]; [done|].
  destruct (startsWith (p0 :: p') (d :: s)) eqn:E.
  - rewrite replaceLit_hit by done. rewrite <- app_comm_cons, !span_fst_cons, Hr0.
    simpl in E. apply andb_true_iff in E as [->%N.eqb_eq _]. by rewrite Hp0.
  - rewrite replaceLit_miss by done. rewrite !span_fst_cons.
    destruct (re_space d); [by f_equal | done].
Qed.

(** Replacing such a literal by such a text makes no blank line. *)
Lemma nomatch_blank_replaceLit prev s :
  nomatch re_blank_line prev s ->
  nomatch re_blank_line prev (replaceLit (p0 :: p') (r0 :: r') s).
Proof.
  revert prev. induction s as [s IH] using (induction_ltof1 _ (@length N)).
  unfold ltof in IH. intros prev H.
  destruct (startsWith (p0 :: p') s) eqn:E.
  - rewrite replaceLit_hit by done. rewrite <- app_comm_cons.
    pose proof (startsWith_length _ _ E) as Hlen.
    apply startsWith_inv in E. rewrite E in H. apply nomatch_app in H.
    eapply nomatch_blank_solid; [done|done|apply (Hplast prev)|].
    apply IH; [|done]. rewrite length_drop. simpl in *. lia.
  - destruct s as [|c s]; [by rewrite replaceLit_nil|].
    rewrite replaceLit_miss by done.
    apply nomatch_cons in H as [H0 H]. apply nomatch_cons.
    split; [|apply IH; [simpl; lia | done]].
    apply re_blank_line_None in H0 as [H0|H0]; apply re_blank_line_None; [by left|right].
    rewrite <- replaceLit_miss by done. by rewrite span_replaceLit.
Qed.

End Literal.

(** Text put in after a unit that is no white space, which starts a new
    line with something else than white space and holds no further line
    terminator, makes no blank line. *)
Lemma nomatch_blank_insert (before after ins : jsstring) (c i0 i1 : N) prev :
  re_space c = false -> re_space i1 = false ->
  Forall (fun d => line_terminator d = false) ins ->
  nomatch re_blank_line prev (before ++ c :: after) ->
  nomatch re_blank_line prev (before ++ c :: i0 :: i1 :: ins ++ after).
Proof.
  intros Hc Hi1 Hins. revert prev. induction before as [|y before IH]; intros prev H.
  - rewrite app_nil_l in *. apply nomatch_cons in H as [H0 H].
    pose proof (space_line_terminator _ Hc) as Hc'.
    apply nomatch_cons. split.
    { apply re_blank_line_None. right. by rewrite span_fst_cons, Hc. }
    apply nomatch_cons. split.
    { apply re_blank_line_None. by left. }
    by apply (nomatch_blank_solid _ _ _ (Some c)).
  - rewrite <- app_comm_cons in *. apply nomatch_cons in H as [H0 H].
    apply nomatch_cons. split; [|by apply IH].
    apply re_blank_line_None in H0 as [H0|H0]; apply re_blank_line_None; [by left|right].
    rewrite app_comm_cons, span_fst_app_stop in * by done. done.
Qed.

End BlankLines.

(** ** Literals that a scan cannot bring about *)

Section Absent.

Implicit Types (p q r s t : jsstring) (c : N).

Lemma startsWith_lookup q s :
  startsWith q s = true <-> forall j c, q !! j = Some c -> s !! j = Some c.
Proof.
  revert s. induction q as [|x q IH]; intros s; [done|].
  destruct s as [|y s]; simpl.
  - split; [done|]. intros H. by specialize (H 0%nat x eq_refl).
  - rewrite andb_true_iff, N.eqb_eq, IH. split.
    + intros [-> H] [|j] c Hj; simpl in *; [done | by apply H].
    + intros H. split; [|intros j c Hj; by apply (H (S j))].
      specialize (H 0%nat x eq_refl). simpl in H. by simplify_eq.
Qed.

Lemma includes_drop q n s : includes q (drop n s) = true -> includes q s = true.
Proof.
  rewrite !includes_spec. intros [i H]. exists (n + i)%nat. by rewrite <- drop_drop.
Qed.

Lemma replaceLit_absent p r s :
  p <> [] -> includes p s = false -> replaceLit p r s = s.
Proof.
  intros Hp. induction s as [|c s IH]; intros H; [by rewrite replaceLit_nil|].
  rewrite includes_cons in H. apply orb_false_iff in H as [H1 H2].
  rewrite replaceLit_miss by done. by rewrite IH.
Qed.

Lemma clash_sym p q : clash p q = clash q p.
Proof. unfold clash. apply andb_comm. Qed.

Lemma apart_inside q r d t :
  apart q r = true -> (d < length r)%nat -> startsWith q (drop d r ++ t) = false.
Proof.
  intros [H _]%andb_true_iff Hd. apply clash_app.
  rewrite forallb_forall in H. apply H, in_seq. lia.
Qed.

Lemma apart_across q r d t :
  apart q r = true -> (0 < d < length q)%nat -> startsWith (drop d q) (r ++ t) = false.
Proof.
  intros [_ H]%andb_true_iff Hd. apply clash_app.
  rewrite forallb_forall in H. apply H, in_seq. lia.
Qed.

(** Text put in that stands apart from [q] brings no [q] about. *)
Lemma includes_insert q a ins b :
  apart q ins = true ->
  includes q (a ++ b) = false -> includes q (a ++ ins ++ b) = false.
Proof.
  intros Hap H. apply includes_false. intros k.
  rewrite includes_false in H.
  destruct (decide (k < length a)%nat) as [Hka|Hka].
  - rewrite drop_app_le by lia. specialize (H k). rewrite drop_app_le in H by lia.
    destruct (decide (length q <= length (drop k a))%nat) as [Hq|Hq].
    + rewrite startsWith_app_long in * by done. done.
    + destruct (startsWith q (drop k a ++ ins ++ b)) eqn:E; [|done].
      apply startsWith_app_short in E; [|lia].
      rewrite apart_across in E; [done..|]. rewrite length_drop in *. lia.
  - destruct (decide (k < length a + length ins)%nat) as [Hki|Hki].
    + rewrite drop_app_ge, drop_app_le by lia. apply apart_inside; [done|lia].
    + specialize (H (k - length ins)%nat).
      rewrite drop_app_ge in * by lia. rewrite drop_app_ge by lia.
      by replace (k - length a - length ins)%nat with (k - length ins - length a)%nat by lia.
Qed.

(** A global replacement of [p] by a text that stands apart from [q] and
    whose first unit [q] does not hold brings no [q] about. *)
Lemma includes_replaceLit_apart q p r s :
  p <> [] -> apart q r = true ->
  match r with c :: _ => existsb (N.eqb c) q = false | [] => False end ->
  includes q s = false -> includes q (replaceLit p r s) = false.
Proof.
  intros Hp Hap Hr0. destruct r as [|r0 r'] eqn:Er; [done|]. rewrite <- Er in *.
  induction s as [s IH] using (induction_ltof1 _ (@length N)). unfold ltof in IH.
  intros H. destruct (startsWith p s) eqn:E.
  - rewrite replaceLit_hit by done.
    apply (includes_insert q [] r); [done|]. rewrite app_nil_l. apply IH.
    + pose proof (startsWith_length _ _ E). rewrite length_drop.
      destruct p; [done|]. simpl in *. lia.
    + destruct (includes q (drop (length p) s)) eqn:Ei; [|done].
      apply includes_drop in Ei. congruence.
  - destruct s as [|c s]; [by rewrite replaceLit_nil|].
    rewrite includes_cons in H. apply orb_false_iff in H as [H1 H2].
    destruct (includes q (replaceLit p r (c :: s))) eqn:Ei; [|done].
    rewrite replaceLit_miss, includes_cons in Ei by done.
    rewrite (IH s) in Ei by (done || simpl; lia). rewrite orb_false_r in Ei.
    rewrite <- replaceLit_miss in Ei by done.
    eapply startsWith_replaceLit in Ei; [|done|exact Er|done]. congruence.
Qed.

(** A replacement of the pattern's own length that stands apart from [q]
    brings no [q] about either, and where it is apart from the pattern
    itself it leaves none of the pattern. *)
Lemma startsWith_replaceLit_level q p r s k :
  p <> [] -> length r = length p -> no_self_overlap p = true -> apart q r = true ->
  startsWith q (drop k (replaceLit p r s)) = true -> startsWith q (drop k s) = true.
Proof.
  intros Hp Hlen Hself Hap Hk.
  assert (forall i a, (k <= i < k + length q)%nat -> (a <= i < a + length p)%nat ->
            startsWith p (drop a s) = false) as Hfree.
  { intros i a Hi Ha. destruct (startsWith p (drop a s)) eqn:E; [|done]. exfalso.
    pose proof (replaceLit_at p r s a Hp Hlen Hself E) as Hr.
    destruct (decide (a <= k)%nat) as [Hak|Hak].
    - apply startsWith_inv in Hr.
      replace k with (a + (k - a))%nat in Hk by lia.
      rewrite <- drop_drop, Hr, drop_app_le in Hk by lia.
      rewrite apart_inside in Hk; [done..|lia].
    - apply startsWith_inv in Hk.
      replace a with (k + (a - k))%nat in Hr by lia.
      rewrite <- drop_drop, Hk, drop_app_le in Hr by lia.
      rewrite clash_app in Hr; [done|]. rewrite clash_sym.
      apply andb_true_iff in Hap as [_ Hap]. rewrite forallb_forall in Hap.
      apply Hap, in_seq. lia. }
  apply startsWith_lookup. intros j c Hj. rewrite lookup_drop.
  pose proof (lookup_lt_Some _ _ _ Hj).
  rewrite <- (replaceLit_elsewhere p r) by (done || (intros a Ha; apply (Hfree (k + j)%nat); lia)).
  rewrite <- lookup_drop. clear H. revert j c Hj. by apply startsWith_lookup.
Qed.

(** ... and after it none of the pattern is left, where the replacement
    stands apart from the pattern itself. *)
Lemma includes_replaceLit_level p r s :
  p <> [] -> length r = length p -> no_self_overlap p = true -> apart p r = true ->
  includes p (replaceLit p r s) = false.
Proof.
  intros Hp Hlen Hself Hap. apply includes_false. intros k.
  destruct (startsWith p (drop k (replaceLit p r s))) eqn:E; [|done].
  pose proof (startsWith_replaceLit_level _ _ _ _ _ Hp Hlen Hself Hap E) as Hs.
  apply (replaceLit_at p r) in Hs; [|done..]. apply startsWith_inv in Hs.
  rewrite Hs in E. destruct r as [|r0 r']; [by destruct p|].
  by rewrite (apart_inside p (r0 :: r') 0) in E by (done || simpl; lia).
Qed.

Lemma includes_replaceLit_other q p r s :
  p <> [] -> length r = length p -> no_self_overlap p = true -> apart q r = true ->
  includes q s = false -> includes q (replaceLit p r s) = false.
Proof.
  intros Hp Hlen Hself Hap H. apply includes_false. intros k.
  destruct (startsWith q (drop k (replaceLit p r s))) eqn:E; [|done].
  apply startsWith_replaceLit_level in E; [|done..].
  rewrite includes_false in H. by rewrite H in E.
Qed.

End Absent.

(** ** The bundler rewrite leaves nothing for three of its rules *)

Section Bundler.

Implicit Types (q s content : jsstring) (prev : option N).

Local Abbreviation removeBlank := (gsub re_blank_line (fun _ => [])).

Lemma startsWith_removeBlank q prev s :
  at_line_start prev = false -> Forall (fun d => line_terminator d = false) q ->
  startsWith q (removeBlank prev 0%nat s) = true -> startsWith q s = true.
Proof.
  intros Hp Hq. revert prev s Hp.
  induction Hq as [|x q Hx Hq IH]; intros prev s Hp H; [done|].
  assert (re_blank_line prev s = None) as E by (apply re_blank_line_None; by left).
  destruct s as [|c s]; [simpl in H; by rewrite E in H|].
  rewrite gsub_nomatch in H by done. simpl in *.
  apply andb_true_iff in H as [Hc H]. rewrite Hc. apply N.eqb_eq in Hc as <-.
  by apply (IH (Some x)).
Qed.

(** Dropping blank lines brings about no text that is free of line
    terminators. *)
Lemma includes_removeBlank q prev s :
  q <> [] -> Forall (fun d => line_terminator d = false) q ->
  includes q s = false -> includes q (removeBlank prev 0%nat s) = false.
Proof.
  intros Hne Hq. revert prev.
  induction s as [s IH] using (induction_ltof1 _ (@length N)). unfold ltof in IH.
  intros prev H. destruct (re_blank_line prev s) as [n|] eqn:E.
  - apply re_blank_line_Some in E as H'. destruct H' as (k & -> & Hk & Hp).
    pose proof (lookup_lt_Some _ _ _ Hk).
    rewrite (gsub_match _ _ _ k) by (done || lia). rewrite app_nil_l.
    apply IH; [rewrite length_drop; lia|].
    destruct (includes q (drop (S k) s)) eqn:Ei; [|done].
    apply includes_drop in Ei. congruence.
  - destruct s as [|c s]; [simpl; by rewrite E|].
    rewrite gsub_nomatch by done. rewrite includes_cons in *.
    apply orb_false_iff in H as [H1 H2]. rewrite (IH s) by (done || simpl; lia).
    rewrite orb_false_r. destruct q as [|x q]; [done|].
    destruct (startsWith (x :: q) (c :: removeBlank (Some c) 0%nat s)) eqn:Es; [|done].
    simpl in Es, H1. apply andb_true_iff in Es as [Hc Es]. rewrite Hc in H1.
    apply N.eqb_eq in Hc as <-. inversion Hq as [|? ? Hx Hq']; subst.
    apply startsWith_removeBlank in Es; [|done..]. simpl in H1. congruence.
Qed.

Lemma source_path_solid q :
  source_path q -> q <> [] /\ Forall (fun d => line_terminator d = false) q.
Proof.
  intros [->| ->]; (split; [done|]); apply Forall_forall; intros d Hd;
    apply list_elem_of_In in Hd; vm_compute in Hd;
    repeat (destruct Hd as [<-|Hd]; [reflexivity|]); done.
Qed.

Lemma source_path_stripTypes q content :
  source_path q -> includes q (stripTypes content) = false.
Proof.
  intros Hq. destruct (source_path_solid q Hq) as [Hne Hsolid]. unfold stripTypes.
  apply includes_removeBlank; [done..|].
  destruct Hq as [->| ->].
  - apply includes_replaceLit_other; [done|done|done|by vm_compute|].
    by apply includes_replaceLit_level.
  - by apply includes_replaceLit_level.
Qed.

End Bundler.

Section NodePath.
Implicit Types (s r : jsstring).

Lemma strip_suffix p s r : strip p s = Some r -> r `suffix_of` s.
Proof. intros ->%strip_inv. by exists p. Qed.

Lemma spaces_suffix s : spaces s `suffix_of` s.
Proof. exists (span re_space s).1. unfold spaces. by rewrite span_app. Qed.

Lemma spaces1_suffix s r : spaces1 s = Some r -> r `suffix_of` s.
Proof.
  destruct s as [|c t]; simpl; [done|]. destruct (re_space c); [|done].
  intros ?. simplify_eq. etrans; [apply spaces_suffix|]. by exists [c].
Qed.

Lemma upto_suffix c s u r : upto c s = Some (u, r) -> r `suffix_of` s.
Proof. intros [-> _]%upto_inv. exists (u ++ [c]). by rewrite <- app_assoc. Qed.

Lemma strip_if_inv f s r : strip_if f s = Some r -> exists c, s = c :: r /\ f c = true.
Proof.
  destruct s as [|c t]; simpl; [done|]. destruct (f c) eqn:E; [|done].
  intros ?. simplify_eq. by exists c.
Qed.

Lemma re_import_node_path_last prev s n :
  re_import_node_path prev s = Some n ->
  exists m0 c, take n s = m0 ++ [c] /\ re_space c = false.
Proof.
  unfold re_import_node_path, matched. intros H.
  destruct (strip (js "import") s) as [s1|] eqn:E1; [|done]. cbn [mbind option_bind] in H.
  destruct (spaces1 s1) as [s2|] eqn:E2; [|done]. cbn [mbind option_bind] in H.
  destruct (strip [123] s2) as [s3|] eqn:E3; [|done]. cbn [mbind option_bind] in H.
  destruct (upto 125 s3) as [[u s4]|] eqn:E4; [|done]. cbn [mbind option_bind] in H.
  destruct (spaces1 s4) as [s5|] eqn:E5; [|done]. cbn [mbind option_bind] in H.
  destruct (strip (js "from") s5) as [s6|] eqn:E6; [|done]. cbn [mbind option_bind] in H.
  destruct (spaces1 s6) as [s7|] eqn:E7; [|done]. cbn [mbind option_bind] in H.
  destruct (strip_if is_quote s7) as [s8|] eqn:E8; [|done]. cbn [mbind option_bind] in H.
  destruct (strip (js "node:path") s8) as [s9|] eqn:E9; [|done]. cbn [mbind option_bind] in H.
  destruct (strip_if is_quote s9) as [s10|] eqn:E10; [|done]. cbn [mbind option_bind] in H.
  assert (s9 `suffix_of` s) as [k Hk].
  { apply strip_suffix in E1, E3, E6, E9. apply spaces1_suffix in E2, E5, E7.
    apply upto_suffix in E4. apply strip_if_inv in E8 as (c8 & -> & _).
    repeat (etrans; [|eassumption]). etrans; [exact E9 | by exists [c8]]. }
  apply strip_if_inv in E10 as (c & -> & Hc).
  assert (re_space c = false) as Hsp.
  { unfold is_quote in Hc. apply orb_true_iff in Hc as [->%N.eqb_eq| ->%N.eqb_eq]; reflexivity. }
  destruct (strip [59] s10) as [r|] eqn:E11; simpl in H; simplify_eq.
  - apply strip_inv in E11 as ->. exists (k ++ [c]), 59. split; [|done].
    rewrite !length_app. simpl.
    replace (length k + S (S (length r)) - length r)%nat with (length (k ++ [c; 59])) by (rewrite length_app; simpl; lia).
    replace (k ++ c :: 59 :: r) with ((k ++ [c; 59]) ++ r) by (by rewrite <- app_assoc).
    by rewrite take_app_length, <- app_assoc.
  - exists k, c. split; [|done]. rewrite length_app. simpl.
    replace (length k + S (length s10) - length s10)%nat with (length (k ++ [c])) by (rewrite length_app; simpl; lia).
    replace (k ++ c :: s10) with ((k ++ [c]) ++ s10) by (by rewrite <- app_assoc).
    by rewrite take_app_length.
Qed.

End NodePath.

Section Settled.

Implicit Types (q s content : jsstring).

Lemma no_line_terminator s :
  forallb (fun d => negb (line_terminator d)) s = true ->
  Forall (fun d => line_terminator d = false) s.
Proof.
  rewrite forallb_forall, Forall_forall. intros H d Hd.
  by apply negb_true_iff, H, list_elem_of_In.
Qed.

(** Where the import of [node:path] is found, the import of [node:url]
    is put in right after its last unit, which is a quote or a semicolon. *)
Lemma insert_url_import content :
  replaceFirst re_import_node_path (fun m => m ++ url_import) content = content \/
  exists before c after,
    content = before ++ c :: after /\ re_space c = false /\
    replaceFirst re_import_node_path (fun m => m ++ url_import) content
      = before ++ c :: url_import ++ after.
Proof.
  unfold replaceFirst. rewrite sub1_search.
  destruct (search re_import_node_path None content) as [[[a b] c']|] eqn:E; [|by left].
  right. apply search_inv in E as (-> & n & Hn & Hb).
  apply re_import_node_path_last in Hn as (m0 & x & Hm & Hx). rewrite <- Hb in Hm. subst b.
  exists (a ++ m0), x, c'. split_and!; [|done|]; by rewrite <- !app_assoc.
Qed.

Lemma fixDirname_nomatch_blank content :
  nomatch re_blank_line None content -> nomatch re_blank_line None (fixDirname content).
Proof.
  intros H. unfold fixDirname. destruct (includes (js "__dirname") content); [|done].
  apply (nomatch_blank_replaceLit 95 102 (js "_dirname")
           (js "ileURLToPath(new URL('.', import.meta.url))")); [done|done| |done|].
  { by apply no_line_terminator. }
  destruct (negb _); [|done].
  destruct (insert_url_import content) as [->|(before & c & after & Hc & Hsp & ->)]; [done|].
  rewrite Hc in H.
  apply (nomatch_blank_insert before after (js "mport { fileURLToPath, URL } from 'node:url';")
           c newline 105); [done|done| |done].
  by apply no_line_terminator.
Qed.

Lemma source_path_fixDirname q content :
  source_path q -> includes q content = false -> includes q (fixDirname content) = false.
Proof.
  intros Hq H. unfold fixDirname. destruct (includes (js "__dirname") content); [|done].
  apply includes_replaceLit_apart;
    [done | destruct Hq as [->| ->]; by vm_compute | destruct Hq as [->| ->]; by vm_compute |].
  destruct (negb _); [|done].
  destruct (insert_url_import content) as [->|(before & c & after & Hc & Hsp & ->)]; [done|].
  rewrite Hc in H.
  replace (before ++ c :: url_import ++ after)
    with ((before ++ [c]) ++ url_import ++ after) by (by rewrite <- app_assoc).
  apply includes_insert; [destruct Hq as [->| ->]; by vm_compute|]. by rewrite <- app_assoc.
Qed.

(** Of the five substitutions, the two path rules and the blank-line rule
    find nothing in what the bundler rewrite returns. *)
Lemma rewriteViteConfig_settled content :
  replaceAll re_import_type (fun _ => []) (rewriteViteConfig content)
    = rewriteViteConfig content ->
  replaceAll re_import_braces_type (fun _ => []) (rewriteViteConfig content)
    = rewriteViteConfig content ->
  stripTypes (rewriteViteConfig content) = rewriteViteConfig content.
Proof.
  intros H1 H2. unfold stripTypes at 1. rewrite H1, H2.
  rewrite (replaceLit_absent app_tsx)
    by (done || apply source_path_fixDirname, source_path_stripTypes; by left).
  rewrite (replaceLit_absent ssr_tsx)
    by (done || apply source_path_fixDirname, source_path_stripTypes; by right).
  apply gsub_nomatch_id, fixDirname_nomatch_blank, removeBlank_nomatch.
Qed.

End Settled.

(** ** Running a rewrite twice *)

Section Idempotence.

Context {number : Type} (number_truthy : number -> bool).
Implicit Types (fs : fields number) (k : jsstring) (v : json number).

Lemma rewriteIgnores_idem (content : jsstring) :
  rewriteIgnores (rewriteIgnores content) = rewriteIgnores content.
Proof.
  destruct (search re_ignores None content) as [[[before m] after]|] eqn:Hs.
  - destruct (rewriteIgnores_found _ _ _ _ Hs) as (ws & inner & -> & Hl & Hr & Hs' & Hl').
    rewrite (rewriteIgnores_search (rewriteIgnores content)), Hs', Hl'.
    by rewrite newIgnores_idem.
  - by rewrite !(rewriteIgnores_not_found content).
Qed.

Lemma replaceFirst_lit_absent p f s :
  includes p s = false -> replaceFirst (lit p) f s = s.
Proof.
  unfold replaceFirst. generalize (@None N).
  induction s as [|c s IH]; intros prev H; cbn [includes] in H; cbn [sub1].
  - unfold lit. by rewrite H.
  - apply orb_false_iff in H as [H1 H2]. unfold lit at 1. rewrite H1.
    by rewrite IH.
Qed.

Lemma setField_same k v fs : field k fs = Some v -> setField k v fs = fs.
Proof.
  induction fs as [|[k' w] fs IH]; simpl; [done|].
  destruct (decide (k = k')) as [->|Hne]; intros H; [by simplify_eq|].
  by rewrite IH.
Qed.

Lemma filter_twice {A} (f : A -> bool) (l : list A) :
  List.filter f (List.filter f l) = List.filter f l.
Proof.
  induction l as [|x l IH]; simpl; [done|].
  destruct (f x) eqn:E; simpl; [by rewrite E, IH | done].
Qed.

Lemma removeTypeDependencies_idem fs :
  removeTypeDependencies (removeTypeDependencies fs) = removeTypeDependencies fs.
Proof.
  unfold removeTypeDependencies at 1. rewrite removeTypeDependencies_deps.
  destruct (field (js "devDependencies") fs) as [[]|] eqn:E; try done.
  rewrite deleteFields_filter, filter_twice. apply setField_same.
  by rewrite removeTypeDependencies_deps, E.
Qed.

Lemma updateName_again fs fs1 fs' :
  updateName number_truthy fs = Ok fs1 ->
  field (js "name") fs' = field (js "name") fs1 ->
  settled fs' ->
  updateName number_truthy fs' = Ok fs'.
Proof.
  intros H1 Hsame [Hset _]. unfold updateName in *.
  destruct (field (js "name") fs) as [v|] eqn:E; cbn [truthy] in H1.
  - destruct v as [|b|x|s|items|o]; cbn [truthy] in H1.
    + simplify_eq. by rewrite Hsame, E.
    + destruct b; simplify_eq. by rewrite Hsame, E.
    + destruct (number_truthy x) eqn:Ex; simplify_eq.
      rewrite Hsame, E. cbn [truthy]. by rewrite Ex.
    + destruct (negb (bool_decide (s = []))) eqn:Es.
      * destruct (includes (js "react-starter-kit") s) eqn:Ei; simplify_eq.
        -- rewrite field_setField_eq in Hsame. rewrite Hsame. cbn [truthy].
           rewrite (Hset _ Hsame). by case_match.
        -- rewrite Hsame, E. cbn [truthy]. by rewrite Es, Ei.
      * simplify_eq. rewrite Hsame, E. cbn [truthy]. by rewrite Es.
    + destruct (existsb _ items) eqn:Ee; simplify_eq.
      rewrite Hsame, E. cbn [truthy]. by rewrite Ee.
    + done.
  - simplify_eq. by rewrite Hsame, E.
Qed.

Lemma updateDescription_again fs fs1 fs' :
  updateDescription number_truthy fs = Ok fs1 ->
  field (js "description") fs' = field (js "description") fs1 ->
  settled fs' ->
  updateDescription number_truthy fs' = Ok fs'.
Proof.
  intros H1 Hsame [_ Hset]. unfold updateDescription in *.
  destruct (field (js "description") fs) as [v|] eqn:E; cbn [truthy] in H1.
  - destruct v as [|b|x|s|items|o]; cbn [truthy] in H1; try done.
    + simplify_eq. by rewrite Hsame, E.
    + destruct b; simplify_eq. by rewrite Hsame, E.
    + destruct (number_truthy x) eqn:Ex; simplify_eq.
      rewrite Hsame, E. cbn [truthy]. by rewrite Ex.
    + destruct (negb (bool_decide (s = []))) eqn:Es; simplify_eq.
      * rewrite field_setField_eq in Hsame. rewrite Hsame. cbn [truthy].
        case_match; [|done]. f_equal.
        unfold rewriteDescription at 1.
        rewrite replaceFirst_lit_absent by (by apply Hset).
        by apply setField_same.
      * rewrite Hsame, E. cbn [truthy]. by rewrite Es.
  - simplify_eq. by rewrite Hsame, E.
Qed.

(** The package rewrite, run on its own result, changes nothing once the
    name and the description are settled. *)
Lemma rewritePackageJson_again (packageJson packageJson' : json number) :
  rewritePackageJson number_truthy packageJson = Ok packageJson' ->
  (forall fs', packageJson' = JObject fs' -> settled fs') ->
  rewritePackageJson number_truthy packageJson' = Ok packageJson'.
Proof.
  intros H Hset. destruct packageJson as [|b|x|s|items|fs]; simpl in H; simplify_eq; try done.
  destruct (updateName number_truthy fs) as [fs1|] eqn:E1; [|done].
  destruct (updateDescription number_truthy fs1) as [fs2|] eqn:E2; [|done].
  simplify_eq. specialize (Hset _ eq_refl). cbn [rewritePackageJson].
  rewrite (updateName_again fs fs1); [|done| |done].
  - rewrite (updateDescription_again fs1 fs2); [|done| |done].
    + by rewrite removeTypeDependencies_idem.
    + by rewrite removeTypeDependencies_field.
  - rewrite removeTypeDependencies_field by done.
    by rewrite (updateDescription_field _ _ _ _ E2).
Qed.

(** The directory helper is gone after the fix. *)
Lemma fixDirname_no_dirname (content : jsstring) :
  includes (js "__dirname") (fixDirname content) = false.
Proof.
  unfold fixDirname. destruct (includes (js "__dirname") content) eqn:E; [|done].
  by apply includes_replaceLit.
Qed.

Lemma rewriteViteConfig_again (content : jsstring) :
  stripTypes (rewriteViteConfig content) = rewriteViteConfig content ->
  rewriteViteConfig (rewriteViteConfig content) = rewriteViteConfig content.
Proof.
  intros H. unfold rewriteViteConfig at 1. rewrite H.
  unfold fixDirname. unfold rewriteViteConfig at 1. by rewrite fixDirname_no_dirname.
Qed.

(** C8, as the code has it.  The lint rewrite run on its own result
    returns it unchanged, for every content.  The bundler rewrite does so
    whenever its two type-import patterns find nothing to strip in the
    rewritten content: the two path rules and the blank-line rule never
    find anything there, and the directory helper fix never applies twice.
    The package rewrite does so whenever the rewritten name no longer
    holds [react-starter-kit] and the rewritten description no longer
    holds [TypeScript]. *)
Theorem rewrites_fixed_points :
  (forall content,
     rewriteIgnores (rewriteIgnores content) = rewriteIgnores content) /\
  (forall content,
     replaceAll re_import_type (fun _ => []) (rewriteViteConfig content)
       = rewriteViteConfig content ->
     replaceAll re_import_braces_type (fun _ => []) (rewriteViteConfig content)
       = rewriteViteConfig content ->
     rewriteViteConfig (rewriteViteConfig content) = rewriteViteConfig content) /\
  (forall packageJson packageJson' : json number,
     rewritePackageJson number_truthy packageJson = Ok packageJson' ->
     (forall fs', packageJson' = JObject fs' -> settled fs') ->
     rewritePackageJson number_truthy packageJson' = Ok packageJson').
Proof.
  split_and!.
  - apply rewriteIgnores_idem.
  - intros content H1 H2. by apply rewriteViteConfig_again, rewriteViteConfig_settled.
  - apply rewritePackageJson_again.
Qed.

End Idempotence.

Lemma rewrites_fixed_points_witness :
  rewriteIgnores (rewriteIgnores example_eslint) = rewriteIgnores example_eslint /\
  replaceAll re_import_type (fun _ => []) (rewriteViteConfig example_vite)
    = rewriteViteConfig example_vite /\
  replaceAll re_import_braces_type (fun _ => []) (rewriteViteConfig example_vite)
    = rewriteViteConfig example_vite /\
  rewriteViteConfig example_vite <> example_vite /\
  rewriteViteConfig (rewriteViteConfig example_vite) = rewriteViteConfig example_vite /\
  exists fs',
    rewritePackageJson truthyZ (JObject example_package) = Ok (JObject fs') /\
    JObject fs' <> JObject example_package /\
    rewritePackageJson truthyZ (JObject fs') = Ok (JObject fs').
Proof.
  destruct (rewrites_fixed_points truthyZ) as (Hlint & Hvite & Hpkg).
  split; [apply Hlint|]. split; [reflexivity|]. split; [reflexivity|].
  split; [by vm_compute|]. split; [apply Hvite; reflexivity|].
  eexists. split; [reflexivity|]. split; [by vm_compute|].
  apply (Hpkg (JObject example_package)); [reflexivity|].
  intros fs' Hfs'. injection Hfs' as <-.
  split; intros s Hs; vm_compute in Hs; injection Hs as <-; reflexivity.
Defined.

(** C8 as the claim words it fails: a description that names TypeScript
    twice is rewritten again by a second run, and so is a bundler
    configuration in which removing one type import brings the pieces of
    another one together. *)
Lemma rewrites_not_fixed_points :
  (exists p1 p2 : json Z,
     rewritePackageJson truthyZ
       (JObject [(js "description", JString (js "TypeScript starter kit for TypeScript apps"))])
       = Ok p1 /\
     rewritePackageJson truthyZ p1 = Ok p2 /\ p1 <> p2) /\
  rewriteViteConfig (rewriteViteConfig (js "impoimport type A;rt type B;"))
    <> rewriteViteConfig (js "impoimport type A;rt type B;").
Proof.
  split.
  - eexists _, _. split; [reflexivity|]. split; [reflexivity|]. by vm_compute.
  - by vm_compute.
Qed.

(** ** The run as a whole *)

Section Run.

Context {number : Type} (number_truthy : number -> bool).
Variable JSON_parse : jsstring -> option (json number).
Variable JSON_stringify : json number -> nat -> jsstring.
Variable spawn : command -> node -> result jsstring * node.
Variable glob : path -> node -> list path.
Variable cwd : jsstring.

Abbreviation run' :=
  (run number_truthy JSON_parse JSON_stringify spawn glob cwd).
Abbreviation convert' :=
  (convert number_truthy JSON_parse JSON_stringify spawn glob cwd).

Lemma entry_remove_absent x (es : entries) :
  entry_lookup x es = None -> entry_remove x es = es.
Proof.
  induction es as [|[y n] es IH]; simpl; [done|].
  destruct (decide (x = y)); [done|]. intros H. by rewrite IH.
Qed.

Lemma entry_put_put x n n' (es : entries) :
  entry_put x n (entry_put x n' es) = entry_put x n es.
Proof.
  induction es as [|[y m] es IH]; simpl.
  - by rewrite decide_True.
  - destruct (decide (x = y)) as [->|Hne]; simpl.
    + by rewrite decide_True.
    + by rewrite decide_False, IH.
Qed.

Lemma run_ensureDirectory_absent (p : path) (w : world) (t' : node) :
  lookup p (tree w) = None -> mkdirp p (tree w) = Some t' ->
  ensureDirectory p w = (Ok tt, World t' (execs w)).
Proof.
  intros Hl Hm. unfold ensureDirectory. rewrite run_bind, run_existsSync_false by done.
  cbn [negb when]. unfold mkdirSync, update. by rewrite Hm.
Qed.

Lemma cleanOutput_spec (es : entries) (log : list command) :
  cleanOutput (World (Dir es) log)
  = (Ok tt, World (Dir (entry_put (js "output") fresh_staging
                          (entry_remove (js "output") es))) log).
Proof.
  unfold cleanOutput. rewrite run_bind, run_existsSync. cbn beta iota.
  assert (when (bool_decide (is_Some (lookup outputDir (tree (World (Dir es) log)))))
            (rmSyncRecursive outputDir) (World (Dir es) log)
          = (Ok tt, World (Dir (entry_remove (js "output") es)) log)) as Hrm.
  { cbn [tree outputDir lookup].
    destruct (entry_lookup (js "output") es) as [n|] eqn:E.
    - rewrite bool_decide_eq_true_2 by (by eexists). done.
    - rewrite bool_decide_eq_false_2 by (by intros [? ?]).
      cbn [when ret]. by rewrite entry_remove_absent. }
  rewrite run_bind, Hrm. cbn beta iota.
  rewrite run_bind.
  rewrite (run_ensureDirectory_absent outputDir _
             (Dir (entry_put (js "output") (Dir []) (entry_remove (js "output") es)))).
  - cbn beta iota.
    rewrite (run_ensureDirectory_absent jsOutputDir _
               (Dir (entry_put (js "output") fresh_staging
                       (entry_remove (js "output") es)))); [done| |].
    + cbn [tree jsOutputDir outputDir app lookup]. rewrite entry_lookup_put_eq. done.
    + cbn [tree jsOutputDir outputDir app mkdirp]. rewrite entry_lookup_put_eq.
      cbn -[entry_put entry_remove]. by rewrite entry_put_put.
  - cbn [tree outputDir lookup]. by rewrite entry_lookup_remove_eq.
  - cbn [tree outputDir mkdirp]. by rewrite entry_lookup_remove_eq.
Qed.

Lemma run_checkDependencies_ok (w : world) out :
  spawn TscVersion (tree w) = (Ok out, tree w) ->
  checkDependencies spawn w = (Ok true, World (tree w) (TscVersion :: execs w)).
Proof.
  intros H. unfold checkDependencies, catch. rewrite run_bind, run_execSync, H. done.
Qed.

Lemma lookup_Some_Dir (p : path) (t n : node) :
  p <> [] -> lookup p t = Some n -> exists es, t = Dir es.
Proof. destruct p as [|x p]; [done|]. destruct t as [c|es]; [done|]. by eexists. Qed.

(** A run that passes the validation goes on from the cleaned tree. *)
Lemma run_from_clean (es : entries) (log : list command) (out : jsstring) :
  spawn TscVersion (Dir es) = (Ok out, Dir es) ->
  is_Some (lookup sourceDir (Dir es)) ->
  run' (World (Dir es) log)
  = convert' (World (Dir (entry_put (js "output") fresh_staging
                            (entry_remove (js "output") es)))
                    (TscVersion :: log)).
Proof.
  intros Hv Hsrc. unfold run.
  rewrite run_bind, (run_checkDependencies_ok _ out) by done. cbn [negb tree execs].
  rewrite run_bind, run_existsSync_true by done. cbn [negb].
  by rewrite run_bind, cleanOutput_spec.
Qed.

(** C4, as the code has it.  In a run that passes the validation (the
    compiler answers the version query, which leaves the tree alone, and
    [resources/js] exists), the staging directory is removed and made
    again, empty but for the empty [js] directory, before anything is
    copied; so two runs from trees that differ only below [output] are
    the same run: nothing of an old staging tree can show in the new
    one. *)
Theorem run_rebuilds_staging (t1 t2 : node) (log : list command) (out1 out2 : jsstring) :
  remove outputDir t1 = remove outputDir t2 ->
  spawn TscVersion t1 = (Ok out1, t1) ->
  spawn TscVersion t2 = (Ok out2, t2) ->
  is_Some (lookup sourceDir t1) ->
  exists clean,
    lookup outputDir clean = Some fresh_staging /\
    remove outputDir clean = remove outputDir t1 /\
    run' (World t1 log) = convert' (World clean (TscVersion :: log)) /\
    run' (World t2 log) = convert' (World clean (TscVersion :: log)).
Proof.
  intros Hsame Hv1 Hv2 Hsrc1.
  assert (is_Some (lookup sourceDir t2)) as Hsrc2.
  { rewrite <- (lookup_remove_diverge outputDir sourceDir t2) by done.
    rewrite <- Hsame. by rewrite lookup_remove_diverge. }
  destruct Hsrc1 as [n1 Hn1]. destruct Hsrc2 as [n2 Hn2].
  destruct (lookup_Some_Dir sourceDir t1 n1) as [es1 ->]; [done..|].
  destruct (lookup_Some_Dir sourceDir t2 n2) as [es2 ->]; [done..|].
  cbn [remove outputDir] in Hsame. injection Hsame as Hsame.
  exists (Dir (entry_put (js "output") fresh_staging (entry_remove (js "output") es1))).
  split_and!.
  - cbn [outputDir lookup]. by rewrite entry_lookup_put_eq.
  - cbn [remove outputDir]. f_equal. clear.
    induction es1 as [|[y m] es IH]; cbn [entry_remove entry_put].
    + by rewrite decide_True.
    + destruct (decide (js "output" = y)) as [<-|Hne]; [done|].
      cbn [entry_put]. rewrite decide_False by done.
      cbn [entry_remove]. rewrite decide_False by done. by rewrite IH.
  - rewrite (run_from_clean es1 log out1); [done|done|by eexists].
  - rewrite (run_from_clean es2 log out2); [by rewrite Hsame|done|by eexists].
Qed.

End Run.

Section Halt.

Context {number : Type} (number_truthy : number -> bool).
Variable JSON_parse : jsstring -> option (json number).
Variable JSON_stringify : json number -> nat -> jsstring.
Variable spawn : command -> node -> result jsstring * node.
Variable glob : path -> node -> list path.
Variable cwd : jsstring.

Lemma run_bind_assoc {A B C} (m : M A) (k : A -> M B) (h : B -> M C) (w : world) :
  (m ≫= fun a => k a ≫= h) w = ((m ≫= k) ≫= h) w.
Proof.
  rewrite !run_bind. destruct (m w) as [[a|] w']; [|done]. by rewrite run_bind.
Qed.

(** A file written at the top of the project is not in the staging
    tree. *)
Lemma staging_put_root (x : jsstring) (n : node) (es : entries) :
  x <> js "output" ->
  staging_besides_js (Dir (entry_put x n es)) = staging_besides_js (Dir es).
Proof.
  intros Hx. unfold staging_besides_js. cbn [jsOutputDir outputDir app remove].
  rewrite entry_lookup_put_ne by done.
  destruct (entry_lookup (js "output") es) as [child|] eqn:E.
  - cbn [outputDir lookup]. by rewrite !entry_lookup_put_eq.
  - cbn [outputDir lookup]. by rewrite entry_lookup_put_ne, E.
Qed.

Lemma createTempTsConfig_staging (w w' : world) :
  createTempTsConfig JSON_stringify cwd w = (Ok tt, w') ->
  staging_besides_js (tree w') = staging_besides_js (tree w) /\ execs w' = execs w.
Proof.
  unfold createTempTsConfig, writeFileSync. rewrite run_bind. cbn [get].
  destruct (lookup tsconfigPath (tree w)) as [[c|es']|];
    unfold update; cbn [tsconfigPath put]; try done;
    (destruct (tree w) as [c'|es]; [done|]);
    intros H; simplify_eq; cbn [tree execs];
    (split; [by apply staging_put_root | done]).
Qed.

Lemma updateOutputEslintConfig_spec (w w' : world) :
  updateOutputEslintConfig w = (Ok tt, w') ->
  execs w' = execs w /\
  (forall q, diverge (outputDir ++ [js "eslint.config.js"]) q = true ->
             lookup q (tree w') = lookup q (tree w)) /\
  (forall content,
     lookup (outputDir ++ [js "eslint.config.js"]) (tree w) = Some (File content) ->
     lookup (outputDir ++ [js "eslint.config.js"]) (tree w')
       = Some (File (rewriteIgnores content))).
Proof.
  unfold updateOutputEslintConfig. rewrite run_bind, run_existsSync.
  destruct (lookup (outputDir ++ [js "eslint.config.js"]) (tree w)) as [[c|es']|] eqn:E.
  - rewrite bool_decide_eq_true_2 by (by eexists). cbn [when].
    rewrite run_bind, (run_readFileSync _ _ c) by done.
    destruct (run_writeFileSync_over (outputDir ++ [js "eslint.config.js"]) w c
                (rewriteIgnores c)) as (t' & Hput & ->); [done..|].
    intros H. simplify_eq. cbn [tree execs]. split_and!; [done| |].
    + intros q Hq. by eapply lookup_put_diverge.
    + intros content ?. simplify_eq. by eapply lookup_put_eq.
  - rewrite bool_decide_eq_true_2 by (by eexists). cbn [when].
    rewrite run_bind, run_readFileSync_throw by (by rewrite E). done.
  - rewrite bool_decide_eq_false_2 by (by intros [? ?]). cbn [when].
    unfold ret. intros H. simplify_eq. split_and!; [done..|]. intros content H. done.
Qed.


End Halt.



(** The script takes what is in [output/js] for the output of the
    compiler: a directory [js] of the project is copied there, and a
    compiler that fails and writes nothing then counts as one that has
    produced output; there is no retry, and the stages that follow the
    compiler run. *)
Lemma run_goes_on_over_copied_js :
  (forall b t, failing_tsc (Tsc b) t = (Throw, t)) /\
  run truthyZ braces_json flat_json failing_tsc glob_scripts (js "/app")
    (World legacy_project [])
  = (Ok tt, legacy_result) /\
  execs legacy_result = [Tsc false; TscVersion] /\
  lookup (outputDir ++ [js "resources"; js "js"; js "legacy.js"]) (tree legacy_result)
  = Some (File (js "var legacy = 1;")) /\
  lookup (outputDir ++ [js "resources"; js "js"; js "app.tsx"]) (tree legacy_result)
  = None.
Proof. split_and!; reflexivity. Qed.

Lemma run_rebuilds_staging_witness :
  exists clean,
    lookup outputDir clean = Some fresh_staging /\
    remove outputDir clean = remove outputDir project /\
    run_failing_tsc (World project [])
      = convert truthyZ no_json flat_json failing_tsc no_glob (js "/app")
          (World clean [TscVersion]) /\
    run_failing_tsc (World (remove outputDir project) [])
      = convert truthyZ no_json flat_json failing_tsc no_glob (js "/app")
          (World clean [TscVersion]).
Proof.
  apply (run_rebuilds_staging truthyZ no_json flat_json failing_tsc no_glob (js "/app")
           project (remove outputDir project) [] (js "Version 5.7.2") (js "Version 5.7.2")).
  - reflexivity.
  - reflexivity.
  - reflexivity.
  - eexists. reflexivity.
Defined.

(** C4 as the claim words it fails: a run that finds no compiler returns
    at once, and what an earlier run left in the staging directory is
    still there. *)
Lemma run_without_compiler_keeps_staging :
  run_no_tools (World project []) = (Ok tt, World project [TscVersion]) /\
  lookup (outputDir ++ [js "stale.txt"]) project
    = Some (File (js "left by an earlier run")).
Proof. split; reflexivity. Qed.

(** ** The self-test *)

Section SelfTest.

Context {number : Type}.
Variable JSON_stringify : json number -> nat -> jsstring.
Variable spawn : command -> node -> result jsstring * node.
Variable now : jsstring.

Lemma returns_ret {A} (a : A) : returns (ret a).
Proof. intros w. by eexists _, _. Qed.

Lemma returns_bind {A B} (m : M A) (k : A -> M B) :
  returns m -> (forall a, returns (k a)) -> returns (m ≫= k).
Proof.
  intros Hm Hk w. destruct (Hm w) as (a & w1 & H1). destruct (Hk a w1) as (b & w2 & H2).
  exists b, w2. by rewrite run_bind, H1.
Qed.

Lemma returns_catch {A} (m h : M A) : returns h -> returns (catch m h).
Proof.
  intros Hh w. unfold catch. destruct (m w) as [[a|] w1]; [by eexists _, _|].
  apply Hh.
Qed.

Lemma returns_existsSync p : returns (existsSync p).
Proof. intros w. rewrite run_existsSync. by eexists _, _. Qed.

Lemma returns_runCommand cmd : returns (Tester.runCommand spawn cmd).
Proof. apply returns_catch, returns_ret. Qed.

Lemma returns_allOf {A} (xs : list A) (round : A -> M bool) :
  (forall x, returns (round x)) -> returns (Tester.allOf xs round).
Proof.
  intros Hr. unfold Tester.allOf. generalize true.
  induction xs as [|x xs IH]; intros flag.
  - apply returns_ret.
  - apply returns_bind; [apply Hr|]. intros ok. apply IH.
Qed.

Lemma returns_forEach {A} (xs : list A) (body : A -> M unit) :
  (forall x, returns (body x)) -> returns (forEach xs body).
Proof.
  intros Hb. unfold forEach. induction xs as [|x xs IH].
  - apply returns_ret.
  - apply returns_bind; [apply Hb|]. intros _. apply IH.
Qed.

Lemma returns_isExistingDirectory p : returns (Tester.isExistingDirectory p).
Proof.
  intros w. unfold Tester.isExistingDirectory. rewrite run_bind, run_existsSync.
  case_bool_decide as H; [|by eexists _, _].
  destruct H as [n H]. unfold isDirectory. rewrite run_bind. cbn [get]. rewrite H.
  destruct n; by eexists _, _.
Qed.

Lemma returns_allPresent files dirs : returns (Tester.allPresent files dirs).
Proof.
  unfold Tester.allPresent.
  apply returns_bind; [apply returns_allOf, returns_existsSync|]. intros f.
  apply returns_bind; [apply returns_allOf, returns_isExistingDirectory|]. intros d.
  apply returns_ret.
Qed.

Lemma returns_checkPrerequisites : returns (Tester.checkPrerequisites spawn).
Proof.
  apply returns_allOf. intros check. apply returns_catch, returns_ret.
Qed.

Lemma returns_checkProjectStructure : returns Tester.checkProjectStructure.
Proof. apply returns_allPresent. Qed.

Lemma returns_rmSyncRecursive p : returns (rmSyncRecursive p).
Proof. intros w. by eexists _, _. Qed.

Lemma returns_testConversion : returns (Tester.testConversion spawn).
Proof.
  unfold Tester.testConversion.
  apply returns_bind; [apply returns_existsSync|]. intros e.
  apply returns_bind.
  { destruct e; [apply returns_rmSyncRecursive | apply returns_ret]. }
  intros _. apply returns_bind; [apply returns_runCommand|]. intros success.
  destruct success; [|apply returns_ret]. cbn [negb].
  unfold Tester.verifyConversionOutput.
  apply returns_bind; [apply returns_allPresent|]. intros allValid.
  apply returns_bind; [apply returns_catch, returns_ret|]. intros _.
  apply returns_ret.
Qed.

(** The fourth check passes whatever its commands do. *)
Lemma testWorkflowComponents_true (w : world) :
  exists w', Tester.testWorkflowComponents spawn w = (Ok true, w').
Proof.
  unfold Tester.testWorkflowComponents.
  assert (returns (forEach [GitStatus; GitRemote]
            (fun test => Tester.runCommand spawn test;; ret tt))) as H1.
  { apply returns_forEach. intros test.
    apply returns_bind; [apply returns_runCommand|]. intros _. apply returns_ret. }
  destruct (H1 w) as ([] & w1 & E1).
  destruct (returns_runCommand NpmList w1) as (b & w2 & E2).
  exists w2. by rewrite run_bind, E1, run_bind, E2.
Qed.

Lemma generateReport_spec (w : world) :
  Tester.report_writable (tree w) ->
  exists w',
    Tester.generateReport JSON_stringify now w = (Ok (Tester.report now), w') /\
    lookup Tester.reportPath (tree w')
      = Some (File (JSON_stringify (Tester.report now) 2)) /\
    execs w' = execs w.
Proof.
  intros (es & Ht & Hnodir). unfold Tester.generateReport, writeFileSync.
  rewrite !run_bind. cbn [get]. rewrite Ht. cbn [Tester.reportPath lookup].
  destruct (entry_lookup (js "workflow-test-report.json") es) as [[c|es']|] eqn:E;
    cbn [mbind option_bind lookup];
    try (by destruct (Hnodir es'));
    unfold update; rewrite Ht; cbn [put];
    (eexists; split; [done|]; cbn [tree execs lookup];
     by rewrite entry_lookup_put_eq).
Qed.

Lemma generateReport_throws (w : world) :
  (Tester.generateReport JSON_stringify now w).1 = Throw \/
  (Tester.generateReport JSON_stringify now w).1 = Ok (Tester.report now).
Proof.
  unfold Tester.generateReport. rewrite run_bind.
  destruct (writeFileSync _ _ w) as [[[]|] w']; [by right | by left].
Qed.

(** Where the report cannot be written, [generateReport] throws and
    changes nothing. *)
Lemma generateReport_blocked (w : world) :
  ~ Tester.report_writable (tree w) ->
  Tester.generateReport JSON_stringify now w = (Throw, w).
Proof.
  intros Hw. unfold Tester.generateReport, writeFileSync. rewrite !run_bind. cbn [get].
  destruct (tree w) as [c|es] eqn:Ht.
  - cbn [Tester.reportPath lookup]. unfold update. by rewrite Ht.
  - cbn [Tester.reportPath lookup].
    destruct (entry_lookup (js "workflow-test-report.json") es) as [[c|es']|] eqn:E;
      cbn [mbind option_bind lookup]; [|done|];
      (destruct Hw; exists es; split; [done|]; intros es'; by rewrite E).
Qed.

(** C9, as the code has it.  The four checks always return, the fourth
    one always [true].  The exit code is 0 exactly when all four returned
    [true] and the report can be written; it is 1 exactly when one of
    them returned [false] or the report cannot be written, the [catch]
    of the entry point turning the error of the write into exit code
    1. *)
Theorem main_exit_code (w : world) :
  exists (prerequisites structure conversion components : bool) (w1 w2 w3 w4 : world),
    Tester.checkPrerequisites spawn w = (Ok prerequisites, w1) /\
    Tester.checkProjectStructure w1 = (Ok structure, w2) /\
    Tester.testConversion spawn w2 = (Ok conversion, w3) /\
    Tester.testWorkflowComponents spawn w3 = (Ok components, w4) /\
    components = true /\
    ((Tester.main JSON_stringify spawn now w).1 = 0%Z <->
     prerequisites && structure && conversion && components = true /\
     Tester.report_writable (tree w4)) /\
    ((Tester.main JSON_stringify spawn now w).1 = 1%Z <->
     prerequisites && structure && conversion && components = false \/
     ~ Tester.report_writable (tree w4)).
Proof.
  destruct (returns_checkPrerequisites w) as (p & w1 & E1).
  destruct (returns_checkProjectStructure w1) as (s & w2 & E2).
  destruct (returns_testConversion w2) as (c & w3 & E3).
  destruct (testWorkflowComponents_true w3) as (w4 & E4).
  exists p, s, c, true, w1, w2, w3, w4. split_and!; try done.
  all: unfold Tester.main, Tester.run;
       rewrite run_bind, E1; cbn beta iota; rewrite run_bind, E2; cbn beta iota;
       rewrite run_bind, E3; cbn beta iota; rewrite run_bind, E4; cbn beta iota;
       rewrite run_bind.
  - split.
    + intros H. split.
      * destruct (generateReport_throws w4) as [Hr|Hr];
          destruct (Tester.generateReport JSON_stringify now w4) as [r w5];
          cbn [fst] in Hr; subst r; [done|]. by destruct p, s, c.
      * destruct (tree w4) as [t|es] eqn:Ht.
        { rewrite generateReport_blocked in H; [done|]. rewrite Ht. by intros (? & ? & _). }
        destruct (entry_lookup (js "workflow-test-report.json") es) as [[t|es']|] eqn:E.
        -- exists es. split; [done|]. intros ?. by rewrite E.
        -- rewrite generateReport_blocked in H; [done|]. rewrite Ht.
           intros (? & [= <-] & Hno). by destruct (Hno es').
        -- exists es. split; [done|]. intros ?. by rewrite E.
    + intros [Hall Hw]. destruct (generateReport_spec w4 Hw) as (w5 & -> & _).
      by destruct p, s, c.
  - split.
    + intros H. destruct (p && s && c && true) eqn:Hall; [right|by left].
      intros Hw. destruct (generateReport_spec w4 Hw) as (w5 & E5 & _).
      rewrite E5 in H. by destruct p, s, c.
    + intros [Hall|Hw].
      * destruct (generateReport_throws w4) as [Hr|Hr];
          destruct (Tester.generateReport JSON_stringify now w4) as [r w5];
          cbn [fst] in Hr; subst r; [done|]. by destruct p, s, c.
      * by rewrite generateReport_blocked.
Qed.

(** C10, as the code has it.  The report is reached whatever the checks
    return.  When it can be written, the file that the self-test leaves
    behind is the printed form of a value in which only the time stamp
    varies: the status is [completed] and the four summary fields are
    [passed].  When it cannot, nothing is written: the self-test ends
    with exit code 1 in the world that the checks left. *)
Theorem report_is_constant (w : world) :
  exists (prerequisites structure conversion components : bool) (w1 w2 w3 w4 : world),
    Tester.checkPrerequisites spawn w = (Ok prerequisites, w1) /\
    Tester.checkProjectStructure w1 = (Ok structure, w2) /\
    Tester.testConversion spawn w2 = (Ok conversion, w3) /\
    Tester.testWorkflowComponents spawn w3 = (Ok components, w4) /\
    (Tester.report_writable (tree w4) ->
     lookup Tester.reportPath (tree (Tester.main JSON_stringify spawn now w).2)
       = Some (File (JSON_stringify (Tester.report now) 2))) /\
    (~ Tester.report_writable (tree w4) ->
     Tester.main JSON_stringify spawn now w = (1%Z, w4)) /\
    exists fs summary : fields number,
      Tester.report now = JObject fs /\
      field (js "status") fs = Some (JString (js "completed")) /\
      field (js "summary") fs = Some (JObject summary) /\
      summary = [ (js "prerequisites", JString (js "passed"));
                  (js "structure", JString (js "passed"));
                  (js "conversion", JString (js "passed"));
                  (js "components", JString (js "passed")) ].
Proof.
  destruct (returns_checkPrerequisites w) as (p & w1 & E1).
  destruct (returns_checkProjectStructure w1) as (s & w2 & E2).
  destruct (returns_testConversion w2) as (c & w3 & E3).
  destruct (testWorkflowComponents_true w3) as (w4 & E4).
  exists p, s, c, true, w1, w2, w3, w4. split_and!; try done.
  - intros Hw. unfold Tester.main, Tester.run.
    rewrite run_bind, E1; cbn beta iota; rewrite run_bind, E2; cbn beta iota;
    rewrite run_bind, E3; cbn beta iota; rewrite run_bind, E4; cbn beta iota;
    rewrite run_bind.
    destruct (generateReport_spec w4 Hw) as (w5 & -> & Hfile & _).
    by destruct p, s, c.
  - intros Hw. unfold Tester.main, Tester.run.
    rewrite run_bind, E1; cbn beta iota; rewrite run_bind, E2; cbn beta iota;
    rewrite run_bind, E3; cbn beta iota; rewrite run_bind, E4; cbn beta iota.
    by rewrite run_bind, generateReport_blocked.
  - by eexists _, _.
Qed.

End SelfTest.

Lemma main_exit_code_witness :
  (Tester.main flat_json healthy report_time (World tester_project [])).1 = 0%Z.
Proof.
  destruct (main_exit_code flat_json healthy report_time (World tester_project []))
    as (p & s & c & k & w1 & w2 & w3 & w4 & E1 & E2 & E3 & E4 & _ & Hiff & _).
  vm_compute in E1. injection E1 as <- <-.
  vm_compute in E2. injection E2 as <- <-.
  vm_compute in E3. injection E3 as <- <-.
  vm_compute in E4. injection E4 as <- <-.
  apply Hiff. split; [reflexivity|].
  eexists. split; [reflexivity|]. intros es'. vm_compute. discriminate.
Defined.

(** C9 as the claim words it fails: every check passes, and the exit
    code is 1, for a directory has the name of the report. *)
Lemma main_fails_though_all_pass :
  exists w1 w2 w3 w4 : world,
    Tester.checkPrerequisites healthy (World blocked_project []) = (Ok true, w1) /\
    Tester.checkProjectStructure w1 = (Ok true, w2) /\
    Tester.testConversion healthy w2 = (Ok true, w3) /\
    Tester.testWorkflowComponents healthy w3 = (Ok true, w4) /\
    (Tester.main flat_json healthy report_time (World blocked_project [])).1 = 1%Z.
Proof. do 4 eexists. split_and!; by vm_compute. Qed.

Lemma report_is_constant_witness :
  lookup Tester.reportPath
    (tree (Tester.main flat_json healthy report_time (World tester_project [])).2)
  = Some (File (flat_json (Tester.report report_time) 2)).
Proof.
  destruct (report_is_constant flat_json healthy report_time (World tester_project []))
    as (p & s & c & k & w1 & w2 & w3 & w4 & E1 & E2 & E3 & E4 & Hfile & _).
  vm_compute in E1. injection E1 as <- <-.
  vm_compute in E2. injection E2 as <- <-.
  vm_compute in E3. injection E3 as <- <-.
  vm_compute in E4. injection E4 as <- <-.
  apply Hfile.
  eexists. split; [reflexivity|]. intros es'. vm_compute. discriminate.
Defined.

(** C10 as the claim words it fails: the self-test runs to its end and
    no report is written, for a directory has its name. *)
Lemma report_not_written_over_directory :
  lookup Tester.reportPath
    (tree (Tester.main flat_json healthy report_time (World blocked_project [])).2)
  = Some (Dir []) /\
  (Tester.main flat_json healthy report_time (World blocked_project [])).1 = 1%Z.
Proof. split; by vm_compute. Qed.

(** * More of the two scripts

    The file system primitives, the copies, the stages that follow the
    compiler, the rewrites of the view template and of the manifests, and
    the checks of the self-test. *)

(** ** More facts about the tree *)

Section TreeUpdates.

Implicit Types (p q : path) (t n : node) (es : entries) (x y : jsstring).

Lemma node_induction (P : node -> Prop) :
  (forall c, P (File c)) ->
  (forall es, Forall (fun e => P e.2) es -> P (Dir es)) ->
  forall t, P t.
Proof.
  intros Hfile Hdir. fix IH 1. intros [c|es]; [apply Hfile|].
  apply Hdir. induction es as [|e es IHes]; constructor; [apply IH | apply IHes].
Qed.

Lemma lookup_app p q t : lookup (p ++ q) t = lookup p t ≫= lookup q.
Proof.
  revert t. induction p as [|x p IH]; intros t; [done|].
  cbn [app lookup]. destruct t as [c|es]; [done|].
  destruct (entry_lookup x es) as [child|]; [|done]. apply IH.
Qed.

Lemma entry_lookup_None x es : entry_lookup x es = None <-> x ∉ es.*1.
Proof.
  induction es as [|[y m] es IH]; simpl.
  - split; [intros _; apply not_elem_of_nil | done].
  - rewrite not_elem_of_cons. destruct (decide (x = y)); [|by rewrite IH; intuition].
    split; [done | by intros [? _]].
Qed.

Lemma entry_lookup_app x es es' :
  entry_lookup x (es ++ es') =
    match entry_lookup x es with Some n => Some n | None => entry_lookup x es' end.
Proof.
  induction es as [|[y m] es IH]; simpl; [done|]. by destruct (decide (x = y)).
Qed.

Lemma entry_put_fresh x n es :
  entry_lookup x es = None -> entry_put x n es = es ++ [(x, n)].
Proof.
  induction es as [|[y m] es IH]; simpl; [done|].
  destruct (decide (x = y)); [done|]. intros H. by rewrite IH.
Qed.

Lemma entry_put_last x n m es :
  entry_lookup x es = None -> entry_put x n (es ++ [(x, m)]) = es ++ [(x, n)].
Proof.
  induction es as [|[y k] es IH]; simpl.
  - by rewrite decide_True.
  - destruct (decide (x = y)); [done|]. intros H. by rewrite IH.
Qed.

Lemma entry_put_same x n es : entry_lookup x es = Some n -> entry_put x n es = es.
Proof.
  induction es as [|[y m] es IH]; simpl; [done|].
  destruct (decide (x = y)) as [->|Hne]; intros H; [by simplify_eq|]. by rewrite IH.
Qed.

(** Putting back what is there changes nothing. *)
Lemma put_lookup_same p n t : lookup p t = Some n -> put p n t = Some t.
Proof.
  revert t. induction p as [|x p IH]; intros t H; [simpl in *; by simplify_eq|].
  cbn [lookup put] in *. destruct t as [c|es]; [done|].
  destruct (entry_lookup x es) as [child|] eqn:Ex; [|done]. cbn [mbind option_bind] in *.
  destruct p as [|x' p].
  - simpl in H. simplify_eq. by rewrite entry_put_same.
  - rewrite (IH child) by done. cbn [mbind option_bind]. by rewrite entry_put_same.
Qed.

Lemma put_exists p n t : is_Some (lookup p t) -> is_Some (put p n t).
Proof.
  destruct p as [|x p]; [by eexists|]. by apply put_is_Some.
Qed.

(** A write into a directory is a write of the directory. *)
Lemma put_snoc p x n t es :
  lookup p t = Some (Dir es) ->
  put (p ++ [x]) n t = put p (Dir (entry_put x n es)) t.
Proof.
  revert t. induction p as [|y p IH]; intros t H.
  - simpl in H. by simplify_eq.
  - cbn [lookup] in H. destruct t as [c|es0]; [done|].
    destruct (entry_lookup y es0) as [child|] eqn:Ey; [|done].
    cbn [mbind option_bind] in H. cbn [app put]. rewrite Ey. cbn [mbind option_bind].
    rewrite (IH child) by done.
    destruct p as [|y' p]; cbn [app]; [|done]. simpl in H. by simplify_eq.
Qed.

Lemma put_put p n n' t t1 : put p n t = Some t1 -> put p n' t1 = put p n' t.
Proof.
  revert t t1. induction p as [|x p IH]; intros t t1 H; [done|].
  cbn [put] in *. destruct t as [c|es]; [done|]. destruct p as [|x' p].
  - simplify_eq. by rewrite entry_put_put.
  - destruct (entry_lookup x es) as [child|] eqn:Ex; [|done].
    cbn [mbind option_bind] in *.
    destruct (put (x' :: p) n child) as [child1|] eqn:E1; [|done].
    cbn [mbind option_bind] in H. simplify_eq.
    rewrite entry_lookup_put_eq. cbn [mbind option_bind].
    rewrite (IH _ _ E1). destruct (put (x' :: p) n' child); [|done].
    cbn [mbind option_bind]. by rewrite entry_put_put.
Qed.

Lemma mkdirp_snoc p x t es :
  lookup p t = Some (Dir es) -> entry_lookup x es = None ->
  mkdirp (p ++ [x]) t = put p (Dir (entry_put x (Dir []) es)) t.
Proof.
  revert t. induction p as [|y p IH]; intros t H Hx.
  - simpl in H. simplify_eq. cbn [app mkdirp]. by rewrite Hx.
  - cbn [lookup] in H. destruct t as [c|es0]; [done|].
    destruct (entry_lookup y es0) as [child|] eqn:Ey; [|done].
    cbn [mbind option_bind] in H. cbn [app mkdirp put]. rewrite Ey.
    cbn [default mbind option_bind id]. rewrite (IH child) by done.
    destruct p as [|y' p]; [|done]. simpl in H. by simplify_eq.
Qed.

(** Removing an entry of a directory is a write of the directory. *)
Lemma remove_snoc p x t es :
  lookup p t = Some (Dir es) ->
  put p (Dir (entry_remove x es)) t = Some (remove (p ++ [x]) t).
Proof.
  revert t. induction p as [|y p IH]; intros t H.
  - simpl in H. by simplify_eq.
  - cbn [lookup] in H. destruct t as [c|es0]; [done|].
    destruct (entry_lookup y es0) as [child|] eqn:Ey; [|done].
    cbn [mbind option_bind] in H. cbn [app put remove]. rewrite Ey.
    destruct p as [|y' p].
    + simpl in H. simplify_eq. done.
    + cbn [mbind option_bind]. rewrite (IH child) by done. done.
Qed.

Lemma diverge_sym p q : diverge p q = diverge q p.
Proof.
  revert q. induction p as [|x p IH]; intros [|y q]; try done. simpl.
  destruct (decide (x = y)) as [->|Hne].
  - rewrite decide_True by done. apply IH.
  - by rewrite decide_False.
Qed.

Lemma diverge_app p q r : diverge p q = true -> diverge (p ++ r) q = true.
Proof.
  revert q. induction p as [|x p IH]; intros [|y q]; try done. simpl.
  destruct (decide (x = y)); [apply IH | done].
Qed.

End TreeUpdates.
(** ** [ensureDirectory] *)

Section EnsureDirectory.

Implicit Types (p q dir : path) (t n : node) (es : entries) (x y : jsstring) (w : world).

Lemma mkdirp_frame p q t t' :
  mkdirp p t = Some t' -> diverge p q = true -> lookup q t' = lookup q t.
Proof.
  revert q t t'. induction p as [|x p IH]; intros [|y q] t t' H Hd; try done.
  cbn [diverge] in Hd. destruct t as [c|es]; [done|]. cbn [mkdirp] in H.
  destruct (mkdirp p (default (Dir []) (entry_lookup x es))) as [child'|] eqn:E; [|done].
  cbn [mbind option_bind] in H. simplify_eq. cbn [lookup].
  destruct (decide (x = y)) as [<-|Hne].
  - rewrite entry_lookup_put_eq. cbn [mbind option_bind].
    rewrite (IH _ _ _ E Hd).
    destruct (entry_lookup x es) as [child|]; [done|]. by destruct p, q.
  - by rewrite entry_lookup_put_ne.
Qed.

(** What was there is still there, a file as it was. *)
Lemma mkdirp_keeps p q t t' n :
  mkdirp p t = Some t' -> lookup q t = Some n ->
  exists n', lookup q t' = Some n' /\ forall c, n = File c -> n' = File c.
Proof.
  revert q t t' n. induction p as [|x p IH]; intros q t t' n H Hq.
  - destruct t; simpl in H; simplify_eq. by exists n.
  - destruct t as [c|es]; [done|]. cbn [mkdirp] in H.
    destruct (mkdirp p (default (Dir []) (entry_lookup x es))) as [child'|] eqn:E; [|done].
    cbn [mbind option_bind] in H. simplify_eq.
    destruct q as [|y q]; [simpl in Hq; simplify_eq; by eexists|].
    cbn [lookup] in *. destruct (decide (x = y)) as [<-|Hne].
    + rewrite entry_lookup_put_eq. cbn [mbind option_bind].
      destruct (entry_lookup x es) as [child|]; [|done]. by eapply IH.
    + rewrite entry_lookup_put_ne by done. by exists n.
Qed.

(** The directory is there afterwards, empty if it was not there. *)
Lemma mkdirp_lookup p t t' :
  mkdirp p t = Some t' ->
  exists es, lookup p t' = Some (Dir es) /\ (lookup p t = None -> es = []).
Proof.
  revert t t'. induction p as [|x p IH]; intros t t' H.
  - destruct t as [c|es]; simpl in H; simplify_eq. by exists es.
  - destruct t as [c|es]; [done|]. cbn [mkdirp] in H.
    destruct (mkdirp p (default (Dir []) (entry_lookup x es))) as [child'|] eqn:E; [|done].
    cbn [mbind option_bind] in H. simplify_eq. cbn [lookup].
    rewrite entry_lookup_put_eq. cbn [mbind option_bind].
    destruct (IH _ _ E) as (es' & Hes' & Hnew). exists es'. split; [done|].
    intros Hnone. destruct (entry_lookup x es) as [child|]; [by apply Hnew|].
    destruct p as [|y p]; [|by apply Hnew]. simpl in E, Hes'. by simplify_eq.
Qed.

(** It fails exactly when a file stands on the way. *)
Lemma mkdirp_None p t :
  mkdirp p t = None <-> exists k c, lookup (take k p) t = Some (File c).
Proof.
  revert t. induction p as [|x p IH]; intros t.
  - destruct t as [c|es]; simpl.
    + split; [intros _; by exists 0%nat, c | done].
    + split; [done|]. intros (k & c & H). by rewrite take_nil in H.
  - destruct t as [c|es]; cbn [mkdirp].
    + split; [intros _; by exists 0%nat, c | done].
    + destruct (mkdirp p (default (Dir []) (entry_lookup x es))) as [child'|] eqn:E;
        cbn [mbind option_bind].
      * split; [done|]. intros ([|k] & c & H); [done|]. cbn [take lookup] in H.
        destruct (entry_lookup x es) as [child|]; [|done].
        cbn [mbind option_bind default from_option id] in *.
        assert (mkdirp p child = None) as Hn by (apply IH; by exists k, c). congruence.
      * split; [|done]. intros _. apply IH in E as (k & c & H).
        exists (S k), c. cbn [take lookup].
        destruct (entry_lookup x es) as [child|]; [done|].
        cbn [default from_option id] in H. by destruct (take k p).
Qed.


(** X1.  [ensureDirectory] leaves the world alone when something is at
    the path, be it a file; else it throws when a file stands on the way,
    and otherwise makes the directory, empty, with the directories that
    lead to it, and neither removes nor changes anything that was
    there. *)
Theorem ensureDirectory_spec (dir : path) (w : world) :
  (is_Some (lookup dir (tree w)) -> ensureDirectory dir w = (Ok tt, w)) /\
  (lookup dir (tree w) = None ->
     ((exists k c, lookup (take k dir) (tree w) = Some (File c)) ->
        ensureDirectory dir w = (Throw, w)) /\
     ((forall k c, lookup (take k dir) (tree w) <> Some (File c)) ->
        exists t',
          ensureDirectory dir w = (Ok tt, World t' (execs w)) /\
          lookup dir t' = Some (Dir []) /\
          (forall q, diverge dir q = true -> lookup q t' = lookup q (tree w)) /\
          (forall q c, lookup q (tree w) = Some (File c) ->
                       lookup q t' = Some (File c)))).
Proof.
  unfold ensureDirectory. split.
  - intros H. by rewrite run_bind, run_existsSync_true.
  - intros Hnone. rewrite run_bind, run_existsSync_false by done. cbn [negb when].
    unfold mkdirSync, update. split.
    + intros H. apply mkdirp_None in H. by rewrite H.
    + intros H. destruct (mkdirp dir (tree w)) as [t'|] eqn:E.
      * exists t'. split; [done|]. destruct (mkdirp_lookup _ _ _ E) as (es & Hes & Hnew).
        rewrite (Hnew Hnone) in Hes. split_and!; [done| |].
        -- intros q Hq. by eapply mkdirp_frame.
        -- intros q c Hq. destruct (mkdirp_keeps _ _ _ _ _ E Hq) as (n' & Hn' & Hc).
           by rewrite Hn', (Hc c).
      * apply mkdirp_None in E as (k & c & E). by destruct (H k c).
Qed.

End EnsureDirectory.
Lemma ensureDirectory_spec_witness :
  lookup (outputDir ++ [js "views"]) (tree entry_world) = None /\
  exists t',
    ensureDirectory (outputDir ++ [js "views"]) entry_world = (Ok tt, World t' []) /\
    lookup (outputDir ++ [js "views"]) t' = Some (Dir []) /\
    lookup (jsOutputDir ++ [js "app.jsx"]) t'
    = Some (File (js "import './pages/welcome.tsx';")).
Proof.
  split; [reflexivity|].
  destruct (ensureDirectory_spec (outputDir ++ [js "views"]) entry_world) as [_ H].
  destruct (H eq_refl) as [_ H'].
  destruct H' as (t' & Hrun & Hdir & _ & Hkeep).
  { intros [|[|[|k]]] c; vm_compute; discriminate. }
  exists t'. split; [exact Hrun|]. split; [exact Hdir|]. apply Hkeep. reflexivity.
Defined.
(** ** The recursive copies *)

Section Copies.

Implicit Types (t source : node) (target parent : path) (name x : jsstring).
Implicit Types (items todo old acc : entries) (w : world).

Lemma forEach_cons {A} (x : A) (xs : list A) (body : A -> M unit) :
  forEach (x :: xs) body = (body x ≫= fun _ => forEach xs body).
Proof. done. Qed.

Lemma wf_Dir items :
  wf (Dir items) = true <->
  NoDup items.*1 /\ Forall (fun e => wf e.2 = true) items.
Proof.
  cbn [wf]. rewrite andb_true_iff, bool_decide_eq_true, forallb_forall, Forall_forall.
  split; intros [H1 H2]; (split; [done|]); intros e He; apply H2;
    by apply list_elem_of_In.
Qed.

Lemma run_writeFileSync_new target x c w old :
  lookup target (tree w) = Some (Dir old) -> entry_lookup x old = None ->
  exists t', writeFileSync (target ++ [x]) c w = (Ok tt, World t' (execs w)) /\
             put target (Dir (old ++ [(x, File c)])) (tree w) = Some t'.
Proof.
  intros Ht Hx.
  destruct (put_exists target (Dir (old ++ [(x, File c)])) (tree w)) as [t' Ht'];
    [by eexists|].
  exists t'. split; [|done]. unfold writeFileSync. rewrite run_bind. cbn [get].
  rewrite lookup_app, Ht. cbn [mbind option_bind lookup]. rewrite Hx.
  cbn [mbind option_bind]. unfold update.
  by rewrite (put_snoc _ _ _ _ old), entry_put_fresh, Ht'.
Qed.

Lemma run_mkdirSync_new target x w old :
  lookup target (tree w) = Some (Dir old) -> entry_lookup x old = None ->
  exists t', mkdirSync (target ++ [x]) w = (Ok tt, World t' (execs w)) /\
             put target (Dir (old ++ [(x, Dir [])])) (tree w) = Some t'.
Proof.
  intros Ht Hx.
  destruct (put_exists target (Dir (old ++ [(x, Dir [])])) (tree w)) as [t' Ht'];
    [by eexists|].
  exists t'. split; [|done]. unfold mkdirSync, update.
  by rewrite (mkdirp_snoc _ _ _ old), entry_put_fresh, Ht'.
Qed.

Lemma lookup_new_entry target x n old t t' :
  put target (Dir (old ++ [(x, n)])) t = Some t' -> entry_lookup x old = None ->
  lookup (target ++ [x]) t' = Some n.
Proof.
  intros Hput Hx. rewrite lookup_app, (lookup_put_eq _ _ _ _ Hput).
  cbn [mbind option_bind lookup]. rewrite entry_lookup_app, Hx. simpl.
  by rewrite decide_True.
Qed.

(** The write of a grown child is a write of the grown directory. *)
Lemma put_child_grown target x n m old t t1 t2 :
  entry_lookup x old = None ->
  put target (Dir (old ++ [(x, m)])) t = Some t1 ->
  put (target ++ [x]) n t1 = Some t2 ->
  put target (Dir (old ++ [(x, n)])) t = Some t2.
Proof.
  intros Hx H1 H2.
  rewrite (put_snoc _ _ _ _ (old ++ [(x, m)])) in H2 by (by eapply lookup_put_eq).
  rewrite entry_put_last in H2 by done. by rewrite (put_put _ _ _ _ _ H1) in H2.
Qed.

(** [copyDirectory] into a directory that has no entry of the target's
    name: the target becomes the source. *)
Lemma copyDirectory_new source :
  wf source = true -> forall items, source = Dir items ->
  forall parent name old w,
    lookup parent (tree w) = Some (Dir old) -> entry_lookup name old = None ->
    exists t',
      copyDirectory source (parent ++ [name]) w = (Ok tt, World t' (execs w)) /\
      put parent (Dir (old ++ [(name, source)])) (tree w) = Some t'.
Proof.
  induction source as [c|es IH] using node_induction; [done|].
  intros Hwf items _ parent name old w Hp Hname. clear items.
  apply wf_Dir in Hwf as [Hnodup Hwf].
  cbn [copyDirectory]. set (target := parent ++ [name]).
  set (body := fun entry : jsstring * node => _).
  rewrite run_bind, run_existsSync_false
    by (unfold target; rewrite lookup_app, Hp; simpl; by rewrite Hname).
  cbn [negb when]. rewrite run_bind.
  destruct (run_mkdirSync_new parent name w old Hp Hname) as (t1 & Hmk & Ht1).
  fold target in Hmk. rewrite Hmk. cbn beta iota.
  assert (forall todo acc w,
            Forall (fun e => wf e.2 = true) todo -> NoDup todo.*1 ->
            Forall (fun e =>
              wf e.2 = true -> forall items, e.2 = Dir items ->
              forall parent name old w,
                lookup parent (tree w) = Some (Dir old) -> entry_lookup name old = None ->
                exists t',
                  copyDirectory e.2 (parent ++ [name]) w = (Ok tt, World t' (execs w)) /\
                  put parent (Dir (old ++ [(name, e.2)])) (tree w) = Some t') todo ->
            lookup target (tree w) = Some (Dir acc) ->
            (forall e, e ∈ todo -> entry_lookup e.1 acc = None) ->
            exists t',
              forEach todo body w = (Ok tt, World t' (execs w)) /\
              put target (Dir (acc ++ todo)) (tree w) = Some t') as Hloop.
  { clear. induction todo as [|[x n] todo IHtodo]; intros acc w Hwf Hnodup Hch Ht Hfresh.
    - exists (tree w). destruct w. split; [done|].
      rewrite app_nil_r. by apply put_lookup_same.
    - apply Forall_cons in Hwf as [Hwfn Hwf]. apply Forall_cons in Hch as [Hn Hch].
      rewrite fmap_cons in Hnodup. apply NoDup_cons in Hnodup as [Hx Hnodup].
      assert (entry_lookup x acc = None) as Hxacc by (apply (Hfresh (x, n)); left).
      assert (exists t1, body (x, n) w = (Ok tt, World t1 (execs w)) /\
                put target (Dir (acc ++ [(x, n)])) (tree w) = Some t1) as (t1 & Hb & Ht1).
      { unfold body. cbn [fst snd]. destruct n as [c|ces].
        - by apply run_writeFileSync_new.
        - by apply (Hn Hwfn ces). }
      rewrite forEach_cons, run_bind, Hb.
      destruct (IHtodo (acc ++ [(x, n)]) (World t1 (execs w)) Hwf Hnodup Hch)
        as (t' & Hrun & Ht').
      + by eapply lookup_put_eq.
      + intros e He. rewrite entry_lookup_app, (Hfresh e) by (by right). simpl.
        rewrite decide_False; [done|]. intros Heq. apply Hx.
        apply list_elem_of_fmap. by exists e.
      + exists t'. split; [done|]. cbn [tree] in Ht'.
        rewrite (put_put _ _ _ _ _ Ht1) in Ht'. by rewrite <- app_assoc in Ht'. }
  destruct (Hloop es [] (World t1 (execs w)) Hwf Hnodup IH) as (t' & Hrun & Ht').
  - by eapply lookup_new_entry.
  - done.
  - exists t'. split; [done|]. cbn [tree] in Ht'. rewrite app_nil_l in Ht'.
    by eapply put_child_grown.
Qed.


Lemma run_ensureDirectory_new target x w old :
  lookup target (tree w) = Some (Dir old) -> entry_lookup x old = None ->
  exists t', ensureDirectory (target ++ [x]) w = (Ok tt, World t' (execs w)) /\
             put target (Dir (old ++ [(x, Dir [])])) (tree w) = Some t'.
Proof.
  intros Ht Hx. destruct (run_mkdirSync_new target x w old Ht Hx) as (t' & Hmk & Ht').
  exists t'. split; [|done]. unfold ensureDirectory.
  rewrite run_bind, run_existsSync_false
    by (rewrite lookup_app, Ht; simpl; by rewrite Hx).
  done.
Qed.

Section Exclusions.

Variables excludeDirs excludeFiles : list jsstring.

Local Abbreviation mirrored items :=
  (List.filter (fun e : jsstring * node => kept excludeDirs excludeFiles e.1)
     (List.map (fun e : jsstring * node => (e.1, mirror excludeDirs excludeFiles e.2)) items)).

Lemma elem_of_mirrored x n items :
  (x, n) ∈ mirrored items -> x ∈ items.*1.
Proof.
  rewrite list_elem_of_In, filter_In, in_map_iff. intros [(e & He & Hin) _].
  simplify_eq. apply list_elem_of_fmap. exists e. split; [done|]. by apply list_elem_of_In.
Qed.

(** [copyProjectFiles] into a directory that has none of the names it
    is to copy: the directory gains the mirror of the source's entries. *)
Lemma copyProjectFiles_into source :
  wf source = true -> forall items, source = Dir items ->
  forall target old w,
    lookup target (tree w) = Some (Dir old) ->
    (forall e, e ∈ items -> kept excludeDirs excludeFiles e.1 = true ->
               entry_lookup e.1 old = None) ->
    exists t',
      copyProjectFiles source target excludeDirs excludeFiles w
        = (Ok tt, World t' (execs w)) /\
      put target (Dir (old ++ mirrored items)) (tree w) = Some t'.
Proof.
  induction source as [c|es IH] using node_induction; [done|].
  intros Hwf items Heq. injection Heq as <-.
  apply wf_Dir in Hwf as [Hnodup Hwf]. intros target.
  cbn [copyProjectFiles]. set (body := fun entry : jsstring * node => _).
  revert Hwf Hnodup IH. generalize es as todo. clear es.
  induction todo as [|[x n] todo IHtodo]; intros Hwf Hnodup Hch acc w Ht Hfresh.
  - exists (tree w). destruct w. split; [done|].
    rewrite app_nil_r. by apply put_lookup_same.
  - apply Forall_cons in Hwf as [Hwfn Hwf]. apply Forall_cons in Hch as [Hn Hch].
    rewrite fmap_cons in Hnodup. apply NoDup_cons in Hnodup as [Hx Hnodup].
    cbn [List.map List.filter fst snd].
    destruct (kept excludeDirs excludeFiles x) eqn:Hkept.
    + assert (entry_lookup x acc = None) as Hxacc by (by apply (Hfresh (x, n)); [left|]).
      assert (exists t1, body (x, n) w = (Ok tt, World t1 (execs w)) /\
                put target (Dir (acc ++ [(x, mirror excludeDirs excludeFiles n)])) (tree w)
                  = Some t1) as (t1 & Hb & Ht1).
      { unfold body. cbn [fst snd]. unfold kept in Hkept.
        apply andb_true_iff in Hkept as [->%negb_true_iff ->%negb_true_iff].
        destruct n as [c|ces].
        - by apply run_writeFileSync_new.
        - rewrite run_bind.
          destruct (run_ensureDirectory_new target x w acc Ht Hxacc) as (t0 & -> & Ht0).
          destruct (Hn Hwfn ces eq_refl (target ++ [x]) [] (World t0 (execs w)))
            as (t1 & Hrun & Ht1).
          + by eapply lookup_new_entry.
          + done.
          + exists t1. split; [done|]. cbn [tree] in Ht1. rewrite app_nil_l in Ht1.
            by eapply put_child_grown. }
      rewrite forEach_cons, run_bind, Hb.
      destruct (IHtodo Hwf Hnodup Hch (acc ++ [(x, mirror excludeDirs excludeFiles n)])
                  (World t1 (execs w))) as (t' & Hrun & Ht').
      * by eapply lookup_put_eq.
      * intros e He Hk. rewrite entry_lookup_app, (Hfresh e) by (done || by right). simpl.
        rewrite decide_False; [done|]. intros Heq. apply Hx.
        apply list_elem_of_fmap. by exists e.
      * exists t'. split; [done|]. cbn [tree] in Ht'.
        rewrite (put_put _ _ _ _ _ Ht1) in Ht'. by rewrite <- app_assoc in Ht'.
    + assert (body (x, n) w = (Ok tt, w)) as Hb.
      { unfold body. cbn [fst snd]. unfold kept in Hkept.
        destruct (bool_decide (x ∈ excludeDirs) || bool_decide (x ∈ excludeFiles));
          [done|]. simpl in Hkept. apply negb_false_iff in Hkept. by rewrite Hkept. }
      rewrite forEach_cons, run_bind, Hb.
      apply IHtodo; [done..|]. intros e He. apply Hfresh. by right.
Qed.

End Exclusions.


Lemma diverge_snoc_cases (p q : path) x :
  diverge (p ++ [x]) q = true ->
  diverge p q = true \/ exists y q', q = p ++ y :: q' /\ y <> x.
Proof.
  revert q. induction p as [|z p IH]; intros [|y q] H; try done.
  - simpl in H. destruct (decide (x = y)); [by destruct q|].
    right. exists y, q. split; [done | congruence].
  - cbn [app diverge] in *. destruct (decide (z = y)) as [->|Hne]; [|by left].
    destruct (IH q H) as [Hd|(y' & q' & -> & Hy)]; [by left|].
    right. by exists y', q'.
Qed.

(** A write of a directory that changes its entry [x] only changes
    nothing beside [x]. *)
Lemma lookup_put_entry_frame (p q : path) x t t' old new :
  lookup p t = Some (Dir old) -> put p (Dir new) t = Some t' ->
  (forall y, y <> x -> entry_lookup y new = entry_lookup y old) ->
  diverge (p ++ [x]) q = true -> lookup q t' = lookup q t.
Proof.
  intros Hp Hput Hes [Hd|(y & q' & -> & Hy)]%diverge_snoc_cases.
  - by eapply lookup_put_diverge.
  - rewrite !lookup_app, (lookup_put_eq _ _ _ _ Hput), Hp.
    cbn [mbind option_bind lookup]. by rewrite Hes.
Qed.

Section Mirror.

Variables excludeDirs excludeFiles : list jsstring.

Local Abbreviation kept' := (kept excludeDirs excludeFiles).
Local Abbreviation mirror' := (mirror excludeDirs excludeFiles).

Lemma entry_lookup_mirror x items :
  lookup [x] (mirror' (Dir items))
  = if kept' x then mirror' <$> entry_lookup x items else None.
Proof.
  cbn [mirror lookup]. induction items as [|[y n] items IH]; cbn [List.map List.filter fst snd].
  - simpl. by destruct (kept' x).
  - destruct (kept' y) eqn:Hy; cbn [entry_lookup];
      (destruct (decide (x = y)) as [->|Hne]; [|apply IH]).
    + by rewrite Hy.
    + by rewrite IH, Hy.
Qed.

(** The mirror holds what the source holds at the paths that hold no
    name left out, and nothing else. *)
Lemma lookup_mirror (q : path) t :
  lookup q (mirror' t) = if forallb kept' q then mirror' <$> lookup q t else None.
Proof.
  revert t. induction q as [|x q IH]; intros t; [done|].
  destruct t as [c|es].
  - simpl. by destruct (kept' x && forallb kept' q).
  - change (x :: q) with ([x] ++ q). rewrite lookup_app, entry_lookup_mirror.
    cbn [app forallb lookup]. destruct (kept' x); [|done]. cbn [andb].
    destruct (entry_lookup x es) as [child|]; cbn [fmap option_fmap option_map mbind option_bind].
    + rewrite IH. by destruct child.
    + by destruct (forallb kept' q).
Qed.

Lemma mirror_File t c : mirror' t = File c <-> t = File c.
Proof. destruct t; simpl; split; congruence. Qed.

End Mirror.


Lemma run_rmSyncRecursive (p : path) w :
  rmSyncRecursive p w = (Ok tt, World (remove p (tree w)) (execs w)).
Proof. done. Qed.

(** X3.  [replaceResourcesJs]: where the compiler's directory
    [output/js] is a well-formed directory and [output/resources] is a
    directory, [output/resources/js] becomes that very tree, whatever it
    held before; nothing beside it changes and nothing is spawned. *)
Theorem replaceResourcesJs_replaces (items res : entries) (w : world) :
  wf (Dir items) = true ->
  lookup jsOutputDir (tree w) = Some (Dir items) ->
  lookup (outputDir ++ [js "resources"]) (tree w) = Some (Dir res) ->
  exists w',
    replaceResourcesJs w = (Ok tt, w') /\
    execs w' = execs w /\
    lookup (outputDir ++ [js "resources"; js "js"]) (tree w') = Some (Dir items) /\
    (forall q, diverge (outputDir ++ [js "resources"; js "js"]) q = true ->
               lookup q (tree w') = lookup q (tree w)).
Proof.
  intros Hwf Hsrc Hres. unfold replaceResourcesJs.
  set (parent := outputDir ++ [js "resources"]) in *.
  change (outputDir ++ [js "resources"; js "js"]) with (parent ++ [js "js"]).
  set (old := entry_remove (js "js") res).
  rewrite run_bind, run_existsSync. cbn beta iota.
  assert (exists t0,
            when (bool_decide (is_Some (lookup (parent ++ [js "js"]) (tree w))))
              (rmSyncRecursive (parent ++ [js "js"])) w
              = (Ok tt, World t0 (execs w)) /\
            put parent (Dir old) (tree w) = Some t0) as (t0 & Hrm & Ht0).
  { destruct (lookup (parent ++ [js "js"]) (tree w)) as [n|] eqn:E.
    - rewrite bool_decide_eq_true_2 by (by eexists). cbn [when].
      rewrite run_rmSyncRecursive. eexists. split; [done|]. by apply remove_snoc.
    - rewrite bool_decide_eq_false_2 by (by intros [? ?]). cbn [when].
      exists (tree w). split; [by destruct w|]. unfold old.
      rewrite lookup_app, Hres in E. cbn [mbind option_bind lookup] in E.
      destruct (entry_lookup (js "js") res) as [m|] eqn:Em; [done|].
      rewrite entry_remove_absent by done. by apply put_lookup_same. }
  rewrite run_bind, Hrm. cbn beta iota. rewrite run_bind. cbn [get tree].
  assert (lookup jsOutputDir t0 = Some (Dir items)) as ->.
  { by rewrite (lookup_put_diverge parent jsOutputDir _ _ _ eq_refl Ht0). }
  destruct (copyDirectory_new (Dir items) Hwf items eq_refl parent (js "js") old
              (World t0 (execs w))) as (t' & Hrun & Ht').
  { by eapply lookup_put_eq. }
  { apply entry_lookup_remove_eq. }
  cbn [tree execs] in *. rewrite (put_put _ _ _ _ _ Ht0) in Ht'.
  exists (World t' (execs w)). cbn [tree execs]. split_and!; [done|done| |].
  - eapply lookup_new_entry; [done|]. apply entry_lookup_remove_eq.
  - intros q Hq. eapply (lookup_put_entry_frame parent q (js "js")); [done..| |done].
    intros y Hy. rewrite entry_lookup_app. unfold old.
    rewrite entry_lookup_remove_ne by done.
    destruct (entry_lookup y res); [done|]. simpl. by rewrite decide_False.
Qed.

End Copies.

Lemma replaceResourcesJs_replaces_witness :
  exists w',
    replaceResourcesJs compiled_world = (Ok tt, w') /\
    lookup (outputDir ++ [js "resources"; js "js"]) (tree w')
    = Some (Dir [(js "app.js", File (js "export const a = <b>ok</b>;"))]).
Proof.
  destruct (replaceResourcesJs_replaces
              [(js "app.js", File (js "export const a = <b>ok</b>;"))]
              [(js "js", Dir [(js "app.tsx", File (js "import './pages/welcome.tsx';"))])]
              compiled_world)
    as (w' & Hrun & _ & Hdir & _); [reflexivity..|].
  exists w'. split; [exact Hrun | exact Hdir].
Defined.
(** ** Removing what is temporary *)

Section Removals.

Context {number : Type}.
Variable JSON_stringify : json number -> nat -> jsstring.
Variable cwd : jsstring.

Implicit Types (p q : path) (t : node) (es : entries) (x : jsstring) (w : world).

Lemma remove_absent p t : lookup p t = None -> remove p t = t.
Proof.
  revert t. induction p as [|x p IH]; intros t H; [done|].
  cbn [lookup remove] in *. destruct t as [c|es]; [done|].
  destruct (entry_lookup x es) as [child|] eqn:E; cbn [mbind option_bind] in H.
  - destruct p as [|x' p]; [done|]. rewrite (IH child) by done.
    by rewrite entry_put_same.
  - destruct p as [|x' p]; [|done]. by rewrite entry_remove_absent.
Qed.

Lemma entry_remove_put x n es : entry_remove x (entry_put x n es) = entry_remove x es.
Proof.
  induction es as [|[y m] es IH]; simpl.
  - by rewrite decide_True.
  - destruct (decide (x = y)) as [->|Hne]; simpl.
    + by rewrite decide_True.
    + by rewrite decide_False, IH.
Qed.

(** One round of the loop of [removeTempFiles]: whatever is at the path
    is removed. *)
Lemma run_removeTempFile (tempFile : path) w :
  (existsSync tempFile ≫= fun e =>
     when e (isDirectory tempFile ≫= fun d =>
               if d : bool then rmSyncRecursive tempFile else rmSync tempFile)) w
  = (Ok tt, World (remove tempFile (tree w)) (execs w)).
Proof.
  rewrite run_bind, run_existsSync.
  destruct (lookup tempFile (tree w)) as [[c|es]|] eqn:E.
  - rewrite bool_decide_eq_true_2 by (by eexists). cbn [when].
    unfold isDirectory. rewrite !run_bind. cbn [get]. rewrite E. cbn [ret].
    unfold rmSync. rewrite run_bind. cbn [get]. by rewrite E.
  - rewrite bool_decide_eq_true_2 by (by eexists). cbn [when].
    unfold isDirectory. rewrite !run_bind. cbn [get]. by rewrite E.
  - rewrite bool_decide_eq_false_2 by (by intros [? ?]). cbn [when ret].
    rewrite remove_absent by done. by destruct w.
Qed.

(** X4.  [removeTempFiles] returns on every world; afterwards neither
    [output/tsconfig.temp.json] nor the directory [output/js] is there,
    nothing beside the two has changed, and nothing was spawned. *)
Theorem removeTempFiles_removes (w : world) :
  exists t',
    removeTempFiles w = (Ok tt, World t' (execs w)) /\
    lookup (outputDir ++ [js "tsconfig.temp.json"]) t' = None /\
    lookup (outputDir ++ [js "js"]) t' = None /\
    forall q,
      diverge (outputDir ++ [js "tsconfig.temp.json"]) q = true ->
      diverge (outputDir ++ [js "js"]) q = true ->
      lookup q t' = lookup q (tree w).
Proof.
  eexists. split; [|split_and!].
  - unfold removeTempFiles. rewrite !forEach_cons, run_bind, run_removeTempFile.
    cbn beta iota. rewrite run_bind, run_removeTempFile. done.
  - cbn [tree]. rewrite lookup_remove_diverge by done. by apply lookup_remove_eq.
  - cbn [tree]. by apply lookup_remove_eq.
  - intros q H1 H2. cbn [tree]. by rewrite !lookup_remove_diverge.
Qed.

(** X5.  The transient compiler configuration does not stay:
    [createTempTsConfig] followed by [cleanup] leaves no
    [tsconfig.temp.json] in the project directory, which is as it was
    when it had no such file; a directory of that name makes the write
    throw, and nothing changes. *)
Theorem createTempTsConfig_cleanup (es : entries) (log : list command) :
  (createTempTsConfig JSON_stringify cwd ≫= fun _ => cleanup) (World (Dir es) log)
  = match entry_lookup (js "tsconfig.temp.json") es with
    | Some (Dir _) => (Throw, World (Dir es) log)
    | _ => (Ok tt, World (Dir (entry_remove (js "tsconfig.temp.json") es)) log)
    end /\
  (entry_lookup (js "tsconfig.temp.json") es = None ->
   entry_remove (js "tsconfig.temp.json") es = es).
Proof.
  split; [|apply entry_remove_absent].
  assert (createTempTsConfig JSON_stringify cwd (World (Dir es) log)
          = match entry_lookup (js "tsconfig.temp.json") es with
            | Some (Dir _) => (Throw, World (Dir es) log)
            | _ => (Ok tt, World (Dir (entry_put (js "tsconfig.temp.json")
                                         (File (JSON_stringify (tsconfig cwd) 2)) es)) log)
            end) as Hcreate.
  { unfold createTempTsConfig, writeFileSync. rewrite run_bind.
    cbn [get tree tsconfigPath lookup].
    by destruct (entry_lookup (js "tsconfig.temp.json") es) as [[c|es']|]. }
  rewrite run_bind, Hcreate.
  destruct (entry_lookup (js "tsconfig.temp.json") es) as [[c|es']|] eqn:E; [|done|].
  all: unfold cleanup; rewrite run_bind, run_existsSync_true
         by (cbn [tree tsconfigPath lookup]; rewrite entry_lookup_put_eq; by eexists).
  all: cbn [when]; unfold rmSync; rewrite run_bind; cbn [get tree tsconfigPath lookup].
  all: rewrite entry_lookup_put_eq; cbn [mbind option_bind lookup].
  all: unfold update; cbn [tree remove execs tsconfigPath]; by rewrite entry_remove_put.
Qed.

End Removals.
(** ** What a computation leaves alone *)

Section Confinement.

Variable P : path -> Prop.

Implicit Types (p q : path) (w : world).

Lemma confined_ret {A} (a : A) : confined P (ret a).
Proof. by intros w q Hq. Qed.

Lemma confined_throw {A} : confined P (@throw A).
Proof. by intros w q Hq. Qed.

Lemma confined_get : confined P get.
Proof. by intros w q Hq. Qed.

Lemma confined_bind {A B} (m : M A) (k : A -> M B) :
  confined P m -> (forall a, confined P (k a)) -> confined P (m ≫= k).
Proof.
  intros Hm Hk w q Hq. rewrite run_bind. specialize (Hm w q Hq).
  destruct (m w) as [[a|] w1]; cbn [snd] in *; [|done]. by rewrite (Hk a w1 q Hq).
Qed.

Lemma confined_catch {A} (m h : M A) :
  confined P m -> confined P h -> confined P (catch m h).
Proof.
  intros Hm Hh w q Hq. unfold catch. specialize (Hm w q Hq).
  destruct (m w) as [[a|] w1]; cbn [snd] in *; [done|]. by rewrite (Hh w1 q Hq).
Qed.

Lemma confined_when (b : bool) (m : M unit) : confined P m -> confined P (when b m).
Proof. destruct b; [done|]. intros _. apply confined_ret. Qed.

Lemma confined_forEach_in {A} (xs : list A) (body : A -> M unit) :
  (forall x, x ∈ xs -> confined P (body x)) -> confined P (forEach xs body).
Proof.
  induction xs as [|x xs IH]; intros H; [apply confined_ret|].
  rewrite forEach_cons. apply confined_bind; [apply H; by left|].
  intros _. apply IH. intros y Hy. apply H. by right.
Qed.

Lemma confined_forEach {A} (xs : list A) (body : A -> M unit) :
  (forall x, confined P (body x)) -> confined P (forEach xs body).
Proof. intros H. apply confined_forEach_in. intros x _. apply H. Qed.

Lemma confined_update (f : node -> option node) :
  (forall t t' q, f t = Some t' -> P q -> lookup q t' = lookup q t) ->
  confined P (update f).
Proof.
  intros Hf w q Hq. unfold update. destruct (f (tree w)) as [t'|] eqn:E; [|done].
  by apply (Hf _ _ _ E).
Qed.

Lemma confined_existsSync p : confined P (existsSync p).
Proof. by intros w q Hq. Qed.

Lemma confined_isDirectory p : confined P (isDirectory p).
Proof.
  intros w q Hq. unfold isDirectory. rewrite run_bind. cbn [get].
  by destruct (lookup p (tree w)) as [[]|].
Qed.

Lemma confined_readFileSync p : confined P (readFileSync p).
Proof.
  intros w q Hq. unfold readFileSync. rewrite run_bind. cbn [get].
  by destruct (lookup p (tree w)) as [[]|].
Qed.

Lemma confined_readdirSync p : confined P (readdirSync p).
Proof.
  intros w q Hq. unfold readdirSync. rewrite run_bind. cbn [get].
  by destruct (lookup p (tree w)) as [[]|].
Qed.

Section Touched.

Variable p : path.
Hypothesis Hp : forall q, P q -> diverge p q = true.

Lemma confined_writeFileSync c : confined P (writeFileSync p c).
Proof.
  unfold writeFileSync. apply confined_bind; [apply confined_get|]. intros t.
  destruct (lookup p t) as [[]|]; try apply confined_throw;
    apply confined_update; intros t0 t' q H Hq; eapply lookup_put_diverge; eauto.
Qed.

Lemma confined_mkdirSync : confined P (mkdirSync p).
Proof.
  apply confined_update. intros t0 t' q H Hq. eapply mkdirp_frame; eauto.
Qed.

Lemma confined_rmSyncRecursive : confined P (rmSyncRecursive p).
Proof.
  apply confined_update. intros t0 t' q H Hq. simplify_eq.
  apply lookup_remove_diverge. auto.
Qed.

Lemma confined_rmSync : confined P (rmSync p).
Proof.
  unfold rmSync. apply confined_bind; [apply confined_get|]. intros t.
  destruct (lookup p t) as [[]|]; try apply confined_throw.
  apply confined_update. intros t0 t' q H Hq. simplify_eq.
  apply lookup_remove_diverge. auto.
Qed.

Lemma confined_ensureDirectory : confined P (ensureDirectory p).
Proof.
  unfold ensureDirectory. apply confined_bind; [apply confined_existsSync|].
  intros e. apply confined_when, confined_mkdirSync.
Qed.

Lemma confined_copyFileSync src : confined P (copyFileSync src p).
Proof.
  unfold copyFileSync. apply confined_bind; [apply confined_readFileSync|].
  intros c. apply confined_writeFileSync.
Qed.

End Touched.

Lemma confined_renameSync old new :
  (forall q, P q -> diverge old q = true) -> (forall q, P q -> diverge new q = true) ->
  confined P (renameSync old new).
Proof.
  intros Hold Hnew. unfold renameSync. apply confined_bind; [apply confined_get|].
  intros t. destruct (lookup old t) as [[c|]|]; try apply confined_throw.
  destruct (lookup new t) as [[]|]; try apply confined_throw;
    apply confined_update; intros t0 t' q H Hq;
    rewrite (lookup_put_diverge _ _ _ _ _ (Hnew q Hq) H);
    apply lookup_remove_diverge; auto.
Qed.

Lemma confined_execSync (spawn : command -> node -> result jsstring * node) cmd :
  (forall t q, P q -> lookup q (spawn cmd t).2 = lookup q t) ->
  confined P (execSync spawn cmd).
Proof.
  intros H w q Hq. unfold execSync. specialize (H (tree w) q Hq).
  by destruct (spawn cmd (tree w)).
Qed.

End Confinement.
Ltac confine :=
  repeat first
    [ apply confined_ret | apply confined_throw | apply confined_get
    | apply confined_existsSync | apply confined_isDirectory
    | apply confined_readFileSync | apply confined_readdirSync
    | apply confined_writeFileSync | apply confined_mkdirSync
    | apply confined_rmSyncRecursive | apply confined_rmSync
    | apply confined_ensureDirectory | apply confined_copyFileSync
    | apply confined_renameSync | apply confined_execSync
    | rewrite forEach_cons
    | match goal with
      | |- confined _ (if ?b then _ else _) => destruct b
      | |- confined _ (match ?x with _ => _ end) => destruct x
      | |- confined _ (when _ _) => apply confined_when
      | |- confined _ (catch _ _) => apply confined_catch
      | |- confined _ (_ ≫= _) => apply confined_bind
      | |- forall _, _ => intro
      end ].

(** A path below [p] parts ways with whatever [p] parts ways with. *)
Ltac below H :=
  repeat (apply diverge_app); first [by apply H | by auto].

(** ** What the stages of the conversion touch *)

Section Stages.

Context {number : Type} (number_truthy : number -> bool).
Variable JSON_parse : jsstring -> option (json number).
Variable JSON_stringify : json number -> nat -> jsstring.
Variable spawn : command -> node -> result jsstring * node.
Variable glob : path -> node -> list path.
Variable cwd : jsstring.

Variable P : path -> Prop.

Lemma confined_copyProjectFiles source target excludeDirs excludeFiles :
  (forall q, P q -> diverge target q = true) ->
  confined P (copyProjectFiles source target excludeDirs excludeFiles).
Proof.
  revert target. induction source as [c|es IH] using node_induction; intros target H.
  { apply confined_throw. }
  cbn [copyProjectFiles]. apply confined_forEach_in. intros [x n] He.
  rewrite Forall_forall in IH. specialize (IH _ He). cbn [fst snd] in *.
  destruct (_ || _); [apply confined_ret|].
  destruct (bool_decide _); [apply confined_ret|].
  destruct n as [c|ces]; confine; try below H. apply IH. intros q Hq. below H.
Qed.

Lemma confined_copyDirectory source target :
  (forall q, P q -> diverge target q = true) ->
  confined P (copyDirectory source target).
Proof.
  revert target. induction source as [c|es IH] using node_induction; intros target H.
  { cbn [copyDirectory]. confine; by apply H. }
  cbn [copyDirectory]. apply confined_bind; [apply confined_existsSync|]. intros e.
  apply confined_bind; [apply confined_when, confined_mkdirSync, H|]. intros _.
  apply confined_forEach_in. intros [x n] He.
  rewrite Forall_forall in IH. specialize (IH _ He). cbn [fst snd] in *.
  destruct n as [c|ces]; confine; try below H. apply IH. intros q Hq. below H.
Qed.

Lemma confined_updateJsonFile file f indent :
  (forall q, P q -> diverge file q = true) ->
  confined P (updateJsonFile JSON_parse JSON_stringify file f indent).
Proof. intros H. unfold updateJsonFile. confine; by apply H. Qed.

Section Below.

(** The paths that [P] holds of part ways with the staging directory and
    with the transient configuration; the child processes leave them
    alone; the files that [glob] finds lie below its directory. *)
Hypothesis Hout : forall q, P q -> diverge outputDir q = true.
Hypothesis Hcfg : forall q, P q -> diverge tsconfigPath q = true.
Hypothesis Hspawn : forall cmd t q, P q -> lookup q (spawn cmd t).2 = lookup q t.
Hypothesis Hglob :
  forall t file, file ∈ glob jsOutputDir t -> exists rest, file = jsOutputDir ++ rest.

Lemma jsxName_below rest :
  exists rest', jsxName (jsOutputDir ++ rest) = outputDir ++ rest'.
Proof.
  unfold jsxName. destruct (last (jsOutputDir ++ rest)) as [name|] eqn:E.
  - destruct rest as [|x rest].
    + exists [js "js" ++ js "x"]. simpl in E. by simplify_eq.
    + eexists. cbn [jsOutputDir outputDir app removelast]. reflexivity.
  - by eexists.
Qed.

Lemma confined_processJavaScriptFiles : confined P (processJavaScriptFiles glob).
Proof.
  unfold processJavaScriptFiles. apply confined_bind; [apply confined_get|].
  intros t. apply confined_forEach_in. intros file [rest ->]%Hglob.
  unfold processJavaScriptFile. destruct (jsxName_below rest) as [rest' Hrest'].
  confine.
  - unfold jsOutputDir. below Hout.
  - rewrite Hrest'. below Hout.
Qed.

Lemma confined_run :
  confined P (run number_truthy JSON_parse JSON_stringify spawn glob cwd).
Proof.
  unfold run, convert, downstream, cleanOutput, checkDependencies,
    copyProjectStructure, updateOutputEslintConfig, createTempTsConfig,
    convertTypeScriptFiles, hasOutput, updateFileReferences, entryFiles,
    updateFileReference, replaceResourcesJs, convertOutputViteConfig,
    updateOutputBlade, removeTsConfigFiles, removeTypesDir, updatePackageJson,
    updateComposerJson, updateComponentsJson, updateReadme, removeTempFiles, cleanup.
  confine;
    try (apply confined_processJavaScriptFiles);
    try (apply confined_copyProjectFiles; intros);
    try (apply confined_copyDirectory; intros);
    try (apply confined_updateJsonFile; intros);
    try (by apply Hspawn); try (by apply Hcfg);
    try (unfold jsOutputDir; below Hout).
Qed.

End Below.

Lemma jsxName_app rest :
  rest <> [] -> exists rest', jsxName (jsOutputDir ++ rest) = jsOutputDir ++ rest'.
Proof.
  intros Hne. unfold jsxName.
  destruct (last (jsOutputDir ++ rest)) as [name|] eqn:E; [|by eexists].
  destruct rest as [|x rest]; [done|].
  eexists. cbn [jsOutputDir outputDir app removelast]. reflexivity.
Qed.

Lemma processJavaScriptFile_returns file w :
  exists w1, processJavaScriptFile file w = (Ok tt, w1) /\ execs w1 = execs w.
Proof.
  unfold processJavaScriptFile, catch. rewrite run_bind.
  unfold readFileSync. rewrite run_bind. cbn [get].
  destruct (lookup file (tree w)) as [[c|es]|] eqn:E; cbn [ret throw];
    try (by eexists).
  destruct (_ && _); [|by eexists].
  unfold renameSync. rewrite run_bind. cbn [get]. rewrite E.
  destruct (lookup (jsxName file) (tree w)) as [[]|]; try (by eexists);
    unfold update; by destruct (put _ _ _); eexists.
Qed.

End Stages.

(** X6.  The conversion does not touch the sources.  Where the child
    processes leave alone what is neither below [output] nor at
    [tsconfig.temp.json], and [glob] finds files below the directory it is
    given, a run, whatever its outcome, leaves everything that is neither
    below [output] nor at [tsconfig.temp.json] as it was. *)
Theorem run_leaves_sources_alone {number : Type} (number_truthy : number -> bool)
    (JSON_parse : jsstring -> option (json number))
    (JSON_stringify : json number -> nat -> jsstring)
    (spawn : command -> node -> result jsstring * node)
    (glob : path -> node -> list path) (cwd : jsstring) :
  (forall cmd t q,
     diverge outputDir q = true -> diverge tsconfigPath q = true ->
     lookup q (spawn cmd t).2 = lookup q t) ->
  (forall t file, file ∈ glob jsOutputDir t -> exists rest, file = jsOutputDir ++ rest) ->
  forall w q,
    diverge outputDir q = true -> diverge tsconfigPath q = true ->
    lookup q (tree (run number_truthy JSON_parse JSON_stringify spawn glob cwd w).2)
    = lookup q (tree w).
Proof.
  intros Hspawn Hglob w q H1 H2.
  apply (confined_run number_truthy JSON_parse JSON_stringify spawn glob cwd
           (fun q => diverge outputDir q = true /\ diverge tsconfigPath q = true));
    try done; try (by intros ? []).
  intros cmd t q' []. by apply Hspawn.
Qed.

(** X7.  The extension classifier returns on every world, spawns
    nothing, and changes nothing that is not below [output/js], where
    [glob] finds files below that directory. *)
Theorem processJavaScriptFiles_stays_below (glob : path -> node -> list path) (w : world) :
  (forall t file, file ∈ glob jsOutputDir t ->
     exists rest, rest <> [] /\ file = jsOutputDir ++ rest) ->
  exists t',
    processJavaScriptFiles glob w = (Ok tt, World t' (execs w)) /\
    forall q, diverge jsOutputDir q = true -> lookup q t' = lookup q (tree w).
Proof.
  intros Hglob.
  assert (confined (fun q => diverge jsOutputDir q = true) (processJavaScriptFiles glob))
    as Hconf.
  { unfold processJavaScriptFiles. apply confined_bind; [apply confined_get|].
    intros t. apply confined_forEach_in. intros file (rest & Hne & ->)%Hglob.
    unfold processJavaScriptFile. destruct (jsxName_app rest Hne) as [rest' Hrest'].
    confine; [|rewrite Hrest']; by apply diverge_app. }
  assert (forall found w, exists w1,
            forEach found processJavaScriptFile w = (Ok tt, w1) /\ execs w1 = execs w)
    as Hall.
  { clear. induction found as [|file found IH]; intros w; [by eexists|].
    rewrite forEach_cons, run_bind.
    destruct (processJavaScriptFile_returns file w) as (w1 & -> & <-). apply IH. }
  destruct (Hall (glob jsOutputDir (tree w)) w) as ([t' log] & Hrun & Hlog).
  cbn [execs] in Hlog. subst log. exists t'. split.
  - unfold processJavaScriptFiles. rewrite run_bind. cbn [get]. by rewrite Hrun.
  - intros q Hq. pose proof (Hconf w q Hq) as Hw.
    unfold processJavaScriptFiles in Hw. rewrite run_bind in Hw. cbn [get] in Hw.
    by rewrite Hrun in Hw.
Qed.
(** ** The sample [glob] and compiler *)

Section Samples.

Lemma glob_scripts_below dir t file :
  file ∈ glob_scripts dir t -> exists rest, rest <> [] /\ file = dir ++ rest.
Proof.
  unfold glob_scripts. destruct (lookup dir t) as [[c|es]|]; try (by intros ?%elem_of_nil).
  intros (rest & <- & [Hin _]%filter_In)%list_elem_of_In%in_map_iff.
  exists rest. split; [|done]. cbn [files] in Hin.
  apply in_flat_map in Hin as (e & _ & (p & <- & _)%in_map_iff). done.
Qed.

Lemma glob_scripts_missing dir t : lookup dir t = None -> glob_scripts dir t = [].
Proof. unfold glob_scripts. by intros ->. Qed.

Lemma writing_tsc_below cmd t q :
  diverge outputDir q = true -> lookup q (writing_tsc cmd t).2 = lookup q t.
Proof.
  intros Hq. destruct cmd; try done. cbn [writing_tsc snd].
  destruct (put _ _ t) as [t'|] eqn:E; [|done]. cbn [default from_option id].
  eapply lookup_put_diverge; [|done]. unfold jsOutputDir. by do 2 apply diverge_app.
Qed.

End Samples.

Lemma run_leaves_sources_alone_witness :
  lookup [js "resources"; js "js"; js "app.tsx"]
    (tree (run truthyZ braces_json flat_json writing_tsc glob_scripts (js "/app")
             (World project [])).2)
  = Some (File (js "import './pages/welcome.tsx';")).
Proof.
  rewrite (run_leaves_sources_alone truthyZ braces_json flat_json writing_tsc glob_scripts
             (js "/app")); [reflexivity| | |reflexivity|reflexivity].
  - intros cmd t q Hq _. by apply writing_tsc_below.
  - intros t file H. destruct (glob_scripts_below _ _ _ H) as (rest & _ & ->).
    by exists rest.
Defined.

Lemma processJavaScriptFiles_stays_below_witness :
  exists t',
    processJavaScriptFiles glob_scripts compiled_world
    = (Ok tt, World t' (execs compiled_world)) /\
    lookup [js "package.json"] t' = Some (File (js "{}")).
Proof.
  destruct (processJavaScriptFiles_stays_below glob_scripts compiled_world)
    as (t' & Hrun & Hframe); [apply glob_scripts_below|].
  exists t'. split; [exact Hrun|]. rewrite Hframe; reflexivity.
Defined.
(** ** What a completed conversion leaves behind *)

Section Leftovers.

Context {number : Type} (number_truthy : number -> bool).
Variable JSON_parse : jsstring -> option (json number).
Variable JSON_stringify : json number -> nat -> jsstring.
Variable glob : path -> node -> list path.

Implicit Types (p q : path) (w : world).

Lemma bind_Ok {A B} (m : M A) (k : A -> M B) w b w' :
  (m ≫= k) w = (Ok b, w') -> exists a w1, m w = (Ok a, w1) /\ k a w1 = (Ok b, w').
Proof.
  rewrite run_bind. destruct (m w) as [[a|] w1]; [|done]. intros H. by exists a, w1.
Qed.

(** Where a step is confined and returns, the world it returns has kept
    what was to be kept. *)
Lemma confined_Ok {A} (P : path -> Prop) (m : M A) w a w' q :
  confined P m -> m w = (Ok a, w') -> P q -> lookup q (tree w') = lookup q (tree w).
Proof. intros Hm Hrun Hq. specialize (Hm w q Hq). by rewrite Hrun in Hm. Qed.

Lemma run_rmSync_if_there p w w' :
  (existsSync p ≫= fun e => when e (rmSync p)) w = (Ok tt, w') ->
  lookup p (tree w') = lookup p (remove p (tree w)).
Proof.
  rewrite run_bind, run_existsSync.
  destruct (lookup p (tree w)) as [[c|es]|] eqn:E.
  - rewrite bool_decide_eq_true_2 by (by eexists). cbn [when]. unfold rmSync.
    rewrite run_bind. cbn [get]. rewrite E. unfold update. intros H. by simplify_eq.
  - rewrite bool_decide_eq_true_2 by (by eexists). cbn [when]. unfold rmSync.
    rewrite run_bind. cbn [get]. by rewrite E.
  - rewrite bool_decide_eq_false_2 by (by intros [? ?]). cbn [when ret].
    intros H. unfold ret in H. simplify_eq. by rewrite remove_absent.
Qed.

Lemma convertOutputViteConfig_removes w w' :
  convertOutputViteConfig w = (Ok tt, w') ->
  lookup (outputDir ++ [js "vite.config.ts"]) (tree w') = None.
Proof.
  unfold convertOutputViteConfig. rewrite run_bind, run_existsSync.
  destruct (lookup (outputDir ++ [js "vite.config.ts"]) (tree w)) as [n|] eqn:E.
  - rewrite bool_decide_eq_true_2 by (by eexists). cbn [when].
    intros (content & w1 & _ & (u & w2 & _ & Hrm)%bind_Ok)%bind_Ok.
    unfold rmSync in Hrm. rewrite run_bind in Hrm. cbn [get] in Hrm.
    destruct (lookup (outputDir ++ [js "vite.config.ts"]) (tree w2)) as [[c|es]|];
      try done.
    unfold update in Hrm. simplify_eq. cbn [tree]. by apply lookup_remove_eq.
  - rewrite bool_decide_eq_false_2 by (by intros [? ?]). cbn [when ret].
    intros H. unfold ret in H. by simplify_eq.
Qed.

Ltac among :=
  intros;
  match goal with
  | Hq : _ ∈ _ |- diverge _ _ = true =>
      repeat (apply elem_of_cons in Hq as [->|Hq]; [reflexivity|]);
      by apply elem_of_nil in Hq
  end.

Ltac here :=
  repeat match goal with Q := _ : list path |- _ => unfold Q; clear Q end;
  repeat first [apply list_elem_of_here | apply list_elem_of_further].

(** From a step that returns, what it keeps of the paths in [Q]. *)
Tactic Notation "carry" constr(Q) hyp(H) "as" ident(K) :=
  match type of H with
  | ?m ?w = (Ok ?a, ?w') =>
      assert (forall q, q ∈ Q -> lookup q (tree w') = lookup q (tree w)) as K
        by (intros ? ?;
            apply (confined_Ok (fun q => q ∈ Q) m w a w'); [|done..];
            first [ apply confined_updateJsonFile
                  | unfold updateOutputBlade, removeTypesDir, updateReadme, cleanup;
                    confine ];
            among)
  end.

(** X8.  When the stages that follow the compiler all return, nothing
    transient is left: no [tsconfig.temp.json] in the project or in the
    staging directory, no [output/js], no TypeScript configuration, no
    [types] directory and no [vite.config.ts] in the staging directory. *)
Theorem downstream_leaves_nothing_transient (w w' : world) :
  downstream number_truthy JSON_parse JSON_stringify glob w = (Ok tt, w') ->
  Forall (fun p => lookup p (tree w') = None)
    [ tsconfigPath;
      outputDir ++ [js "js"];
      outputDir ++ [js "tsconfig.temp.json"];
      outputDir ++ [js "tsconfig.json"];
      outputDir ++ [js "tsconfig.node.json"];
      outputDir ++ [js "resources"; js "js"; js "types"];
      outputDir ++ [js "vite.config.ts"] ].
Proof.
  unfold downstream.
  intros (? & w1 & _ & (? & w2 & _ & (? & w3 & _ & (? & w4 & Hvite &
          (? & w5 & Hblade & (? & w6 & Htsc & (? & w7 & Htypes &
          (? & w8 & Hpkg & (? & w9 & Hcomposer & (? & w10 & Hcomponents &
          (? & w11 & Hreadme & (? & w12 & Htemp & Hclean
          )%bind_Ok)%bind_Ok)%bind_Ok)%bind_Ok)%bind_Ok)%bind_Ok)%bind_Ok
          )%bind_Ok)%bind_Ok)%bind_Ok)%bind_Ok)%bind_Ok.
  repeat match goal with u : unit |- _ => destruct u end.
  apply convertOutputViteConfig_removes in Hvite.
  (* the configuration files *)
  unfold removeTsConfigFiles in Htsc. rewrite !forEach_cons in Htsc.
  apply bind_Ok in Htsc as ([] & w5a & Hjson & ([] & w5b & Hnode & Hnil)%bind_Ok).
  assert (w5b = w6) as -> by (cbv in Hnil; congruence).
  pose proof (run_rmSync_if_there _ _ _ Hjson) as Hjson'.
  pose proof (run_rmSync_if_there _ _ _ Hnode) as Hnode'.
  rewrite lookup_remove_eq in Hjson', Hnode' by done.
  (* the types directory *)
  assert (lookup (outputDir ++ [js "resources"; js "js"; js "types"]) (tree w7) = None)
    as Htypes'.
  { unfold removeTypesDir in Htypes. rewrite run_bind, run_existsSync in Htypes.
    destruct (lookup _ (tree w6)) as [n|] eqn:E.
    - rewrite bool_decide_eq_true_2 in Htypes by (by eexists). cbn [when] in Htypes.
      rewrite run_rmSyncRecursive in Htypes. simplify_eq. by apply lookup_remove_eq.
    - rewrite bool_decide_eq_false_2 in Htypes by (by intros [? ?]).
      cbn [when] in Htypes. unfold ret in Htypes. by simplify_eq. }
  (* the temporary files *)
  unfold removeTempFiles in Htemp. rewrite !forEach_cons in Htemp.
  apply bind_Ok in Htemp as ([] & w11a & Ht1 & ([] & w11b & Ht2 & Hnil')%bind_Ok).
  assert (w11b = w12) as -> by (cbv in Hnil'; congruence).
  rewrite run_removeTempFile in Ht1, Ht2.
  pose proof (run_rmSync_if_there _ _ _ Hclean) as Hclean'.
  rewrite lookup_remove_eq in Hclean' by done.
  (* the steps in between keep what is gone away *)
  set (Q4 := [outputDir ++ [js "vite.config.ts"]]).
  set (Q6 := (outputDir ++ [js "tsconfig.json"])
               :: (outputDir ++ [js "tsconfig.node.json"]) :: Q4).
  set (Q7 := (outputDir ++ [js "resources"; js "js"; js "types"]) :: Q6).
  set (Q12 := (outputDir ++ [js "js"]) :: (outputDir ++ [js "tsconfig.temp.json"]) :: Q7).
  carry Q4 Hblade as K5. carry Q4 Hjson as K5a. carry Q4 Hnode as K6.
  carry [outputDir ++ [js "tsconfig.json"]] Hnode as K6j.
  carry Q6 Htypes as K7.
  carry Q7 Hpkg as K8. carry Q7 Hcomposer as K9. carry Q7 Hcomponents as K10.
  carry Q7 Hreadme as K11.
  assert (forall q, q ∈ Q7 -> lookup q (tree w12) = lookup q (tree w11)) as K12.
  { intros q Hq. simplify_eq. cbn [tree].
    assert (diverge (outputDir ++ [js "js"]) q = true
            /\ diverge (outputDir ++ [js "tsconfig.temp.json"]) q = true) as [D1 D2].
    { revert q Hq. apply Forall_forall. by repeat constructor. }
    by rewrite !lookup_remove_diverge. }
  carry Q12 Hclean as K13.
  assert (lookup (outputDir ++ [js "js"]) (tree w12) = None
          /\ lookup (outputDir ++ [js "tsconfig.temp.json"]) (tree w12) = None) as [G1 G2].
  { simplify_eq. cbn [tree]. split.
    - by apply lookup_remove_eq.
    - rewrite lookup_remove_diverge by done. by apply lookup_remove_eq. }
  repeat constructor.
  - done.
  - by rewrite K13 by here.
  - by rewrite K13 by here.
  - by rewrite K13, K12, K11, K10, K9, K8, K7, K6j by here.
  - by rewrite K13, K12, K11, K10, K9, K8, K7 by here.
  - by rewrite K13, K12, K11, K10, K9, K8 by here.
  - by rewrite K13, K12, K11, K10, K9, K8, K7, K6, K5a, K5 by here.
Qed.

End Leftovers.
Lemma downstream_leaves_nothing_transient_witness :
  downstream truthyZ braces_json flat_json glob_scripts compiled_world
  = (Ok tt, converted_world) /\
  lookup (outputDir ++ [js "resources"; js "js"; js "app.jsx"]) (tree converted_world)
  = Some (File (js "export const a = <b>ok</b>;")) /\
  Forall (fun p => lookup p (tree converted_world) = None)
    [ tsconfigPath;
      outputDir ++ [js "js"];
      outputDir ++ [js "tsconfig.temp.json"];
      outputDir ++ [js "tsconfig.json"];
      outputDir ++ [js "tsconfig.node.json"];
      outputDir ++ [js "resources"; js "js"; js "types"];
      outputDir ++ [js "vite.config.ts"] ].
Proof.
  assert (downstream truthyZ braces_json flat_json glob_scripts compiled_world
          = (Ok tt, converted_world)) as Hrun by (vm_compute; reflexivity).
  split; [exact Hrun|]. split; [reflexivity|].
  exact (downstream_leaves_nothing_transient truthyZ braces_json flat_json glob_scripts
           compiled_world converted_world Hrun).
Defined.
(** ** Patterns whose matches start with a mark *)

Section Marked.

(** Every match of [m] starts with the unit [a] and holds no other [a];
    whether [m] matches depends on the matched text only; the replacement
    starts with [a], holds no other [a], and starts no match. *)
Variables (m : matcher) (a : N) (r' : jsstring).
Hypothesis Hprev : forall prev prev' s, m prev s = m prev' s.
Hypothesis Hmark :
  forall prev s n, m prev s = Some n ->
    (n <= length s)%nat /\ exists u, take n s = a :: u /\ existsb (N.eqb a) u = false.
Hypothesis Hlocal :
  forall prev s s' n, m prev s = Some n -> take n s' = take n s -> m prev s' = Some n.
Hypothesis Hr' : existsb (N.eqb a) r' = false.
Hypothesis Hr : forall prev x, m prev (a :: r' ++ x) = None.

Local Abbreviation G := (gsub m (fun _ => a :: r')).

Lemma marked_Some prev s n :
  m prev s = Some n ->
  exists k t, n = S k /\ s = a :: t /\ (S k <= length s)%nat.
Proof.
  intros H. destruct (Hmark _ _ _ H) as (Hn & u & Hu & _).
  destruct n as [|k]; [by rewrite take_0 in Hu|].
  destruct s as [|c t]; [done|]. simpl in Hu. injection Hu as -> _. by exists k, t.
Qed.

Lemma marked_other prev c t : existsb (N.eqb a) [c] = false -> m prev (c :: t) = None.
Proof.
  intros Hc. destruct (m prev (c :: t)) as [n|] eqn:E; [|done].
  apply marked_Some in E as (k & t' & _ & Heq & _). injection Heq as -> _.
  simpl in Hc. by rewrite N.eqb_refl in Hc.
Qed.

(** Text without the mark that the result starts with is text that the
    input starts with. *)
Lemma take_gsub_marked (u : jsstring) prev t :
  existsb (N.eqb a) u = false ->
  take (length u) (G prev 0%nat t) = u -> take (length u) t = u.
Proof.
  revert prev t. induction u as [|d u IH]; intros prev t Hu H; [done|].
  simpl in Hu. apply orb_false_iff in Hu as [Hd Hu].
  destruct (m prev t) as [n|] eqn:E.
  - apply marked_Some in E as H'. destruct H' as (k & t' & -> & -> & Hk).
    rewrite (gsub_match _ _ _ k) in H by done. simpl in H. injection H as <- _.
    by rewrite N.eqb_refl in Hd.
  - destruct t as [|c t]; [simpl in H; by rewrite E in H|].
    rewrite gsub_nomatch in H by done. simpl in *. injection H as -> H.
    f_equal. by eapply IH.
Qed.

Lemma nomatch_marked_block prev prev' x :
  nomatch m prev' x -> nomatch m prev ((a :: r') ++ x).
Proof.
  intros Hx a0 b Heq. apply app_eq_inv in Heq as [(k & Hk & ->)|(k & -> & Hk)].
  - destruct a0 as [|c a0].
    + simpl in Hk. subst k. apply Hr.
    + simpl in Hk. injection Hk as _ Hk. destruct k as [|d k].
      * rewrite (Hprev _ prev'). by apply (Hx [] x).
      * apply marked_other. simpl. rewrite orb_false_r.
        pose proof Hr' as H. rewrite Hk, existsb_app in H.
        apply orb_false_iff in H as [_ H]. simpl in H.
        by apply orb_false_iff in H as [H _].
  - rewrite (Hprev _ (prev_after prev' k)). by apply Hx.
Qed.

(** After the replacement the pattern matches nowhere. *)
Lemma nomatch_gsub_marked prev s : nomatch m prev (G prev 0%nat s).
Proof.
  revert prev. induction s as [s IH] using (induction_ltof1 _ (@length N)).
  unfold ltof in IH. intros prev. destruct (m prev s) as [n|] eqn:E.
  - apply marked_Some in E as H. destruct H as (k & t & -> & -> & Hk).
    rewrite (gsub_match _ _ _ k) by done.
    eapply nomatch_marked_block, IH. rewrite length_drop. lia.
  - destruct s as [|c t]; [simpl; rewrite E; by apply nomatch_nil|].
    rewrite gsub_nomatch by done. apply nomatch_cons. split; [|apply IH; simpl; lia].
    destruct (m prev (c :: G (Some c) 0%nat t)) as [n|] eqn:E'; [|done].
    destruct (Hmark _ _ _ E') as (Hn & u & Hu & Hau).
    destruct n as [|k]; [by rewrite take_0 in Hu|]. simpl in Hu, Hn.
    injection Hu as -> Hu.
    assert (length u = k) as Hlen.
    { apply (f_equal length) in Hu. rewrite length_take in Hu. lia. }
    subst k. pose proof Hu as Hu'. apply take_gsub_marked in Hu'; [|done].
    rewrite (Hlocal _ _ (a :: t) _ E') in E; [done|]. simpl. by rewrite Hu, Hu'.
Qed.

Lemma gsub_marked_idem s : G None 0%nat (G None 0%nat s) = G None 0%nat s.
Proof. apply gsub_nomatch_id, nomatch_gsub_marked. Qed.

End Marked.
(** ** The view template *)

Section Blade.

Implicit Types (s content ws after : jsstring) (prev : option N).

Lemma re_blade_inv prev s n :
  re_blade prev s = Some n ->
  exists ws rest,
    s = blade_head ++ ws ++ blade_tail ++ rest /\
    Forall (fun c => re_space c = true) ws /\
    n = length (blade_head ++ ws ++ blade_tail).
Proof.
  unfold re_blade, matched. intros H.
  destruct (strip blade_head s) as [s1|] eqn:E1; [|done]. cbn [mbind option_bind] in H.
  destruct (strip blade_tail (spaces s1)) as [s2|] eqn:E2; [|done].
  cbn [mbind option_bind] in H. apply strip_inv in E1, E2.
  exists (span re_space s1).1, s2. split_and!.
  - rewrite E1. f_equal. rewrite <- (span_app re_space s1) at 1. f_equal. exact E2.
  - apply span_fst_Forall.
  - injection H as <-. rewrite E1 at 1. rewrite <- (span_app re_space s1) at 1.
    unfold spaces in E2. rewrite E2. rewrite !length_app. lia.
Qed.

Lemma re_blade_at prev ws rest :
  Forall (fun c => re_space c = true) ws ->
  re_blade prev (blade_head ++ ws ++ blade_tail ++ rest)
  = Some (length (blade_head ++ ws ++ blade_tail)).
Proof.
  intros Hws. unfold re_blade, matched. rewrite strip_app. cbn [mbind option_bind].
  change (blade_tail ++ rest) with (dquote :: (drop 1 blade_tail ++ rest)).
  rewrite spaces_stop by done.
  change (dquote :: (drop 1 blade_tail ++ rest)) with (blade_tail ++ rest).
  rewrite strip_app. cbn [mbind option_bind]. f_equal. rewrite !length_app. lia.
Qed.

Lemma re_blade_mark prev s n :
  re_blade prev s = Some n ->
  (n <= length s)%nat /\
  exists u, take n s = 64 :: u /\ existsb (N.eqb 64) u = false.
Proof.
  intros (ws & rest & -> & Hws & ->)%re_blade_inv. split.
  { rewrite !length_app. lia. }
  exists (drop 1 blade_head ++ ws ++ blade_tail). split.
  - rewrite !app_assoc, take_app_length. by rewrite <- !app_assoc.
  - rewrite !existsb_app. rewrite !orb_false_iff. split_and!; [done| |done].
    induction Hws as [|c ws Hc _ IH]; [done|]. simpl. rewrite IH, orb_false_r.
    destruct (64 =? c) eqn:Ec; [|done]. by apply N.eqb_eq in Ec as <-.
Qed.

Lemma re_blade_local prev s s' n :
  re_blade prev s = Some n -> take n s' = take n s -> re_blade prev s' = Some n.
Proof.
  intros (ws & rest & -> & Hws & ->)%re_blade_inv Htake.
  rewrite !app_assoc, take_app_length in Htake.
  rewrite <- (take_drop (length ((blade_head ++ ws) ++ blade_tail)) s'), Htake.
  rewrite <- !app_assoc. by apply re_blade_at.
Qed.

Lemma re_blade_new prev x : re_blade prev (blade_new ++ x) = None.
Proof. unfold re_blade, strip. by rewrite clash_app. Qed.

Lemma re_blade_output prev x : re_blade prev (blade_output ++ x) = None.
Proof. unfold re_blade, strip. by rewrite clash_app. Qed.

Lemma gsub_blade_prev (f : jsstring -> jsstring) prev prev' k s :
  gsub re_blade f prev k s = gsub re_blade f prev' k s.
Proof. by destruct s. Qed.

(** No match starts before a directive and runs into it: a match holds
    one [@] only, its first unit. *)
Lemma re_blade_before c before rest :
  re_blade None (c :: before) = None ->
  re_blade None ((c :: before) ++ 64 :: rest) = None.
Proof.
  intros Hno. destruct (re_blade None ((c :: before) ++ 64 :: rest)) as [n|] eqn:E; [|done].
  destruct (re_blade_mark _ _ _ E) as (Hn & u & Hu & Hau).
  destruct (decide (n <= length (c :: before))%nat) as [Hle|Hgt].
  - rewrite (re_blade_local _ _ (c :: before) _ E) in Hno; [done|].
    by rewrite take_app_le.
  - rewrite take_app_ge in Hu by lia.
    destruct (n - length (c :: before))%nat as [|k] eqn:Ek; [lia|].
    cbn [take app] in Hu. injection Hu as _ <-.
    rewrite existsb_app in Hau. apply orb_false_iff in Hau as [_ Hau].
    simpl in Hau. done.
Qed.

(** X9.  The rewrite of the view template puts the new directive where
    an old one stands, wherever that is in the text and with any white
    space between its two arguments: the text before the leftmost
    directive is kept as it is, the directive is replaced, and the rest
    is rewritten in the same way.  It leaves no text that its pattern
    matches, so that a second rewrite changes nothing; and it returns a
    text without the directive as it is.  The last three equations spell
    out the two pieces of the old directive and the new one. *)
Theorem rewriteBlade_settles (content : jsstring) :
  nomatch re_blade None (rewriteBlade content) /\
  rewriteBlade (rewriteBlade content) = rewriteBlade content /\
  (nomatch re_blade None content -> rewriteBlade content = content) /\
  (forall before ws after,
     nomatch re_blade None before ->
     Forall (fun c => re_space c = true) ws ->
     rewriteBlade (before ++ blade_head ++ ws ++ blade_tail ++ after)
     = before ++ blade_new ++ rewriteBlade after) /\
  blade_head = js "@vite(['resources/js/app.tsx'," /\
  blade_tail
  = dquote :: js "resources/js/pages/{$page['component']}.tsx" ++ dquote :: js "])" /\
  blade_new
  = js "@vite(['resources/js/app.jsx', " ++ dquote
      :: js "resources/js/pages/{$page['component']}.jsx" ++ dquote :: js "])".
Proof.
  assert (forall s, nomatch re_blade None (rewriteBlade s)) as Hno.
  { intros s. unfold rewriteBlade, replaceAll.
    apply (nomatch_gsub_marked re_blade 64 (drop 1 blade_new));
      [done | apply re_blade_mark | apply re_blade_local | done |].
    intros prev x. apply (re_blade_new prev x). }
  split_and!.
  - apply Hno.
  - apply gsub_nomatch_id, Hno.
  - apply gsub_nomatch_id.
  - intros before ws after Hbefore Hws. unfold rewriteBlade, replaceAll.
    induction before as [|c before IH].
    + cbn [app]. pose proof (re_blade_at None ws after Hws) as Hat.
      destruct (length (blade_head ++ ws ++ blade_tail)) as [|k] eqn:Ek.
      { by rewrite !length_app in Ek. }
      rewrite (gsub_match _ _ _ k) by (done || (rewrite <- Ek, !length_app; lia)).
      rewrite <- Ek. rewrite !app_assoc, drop_app_length. f_equal.
      by destruct after.
    + apply nomatch_cons in Hbefore as [Hc Hbefore].
      change (blade_head ++ ws ++ blade_tail ++ after)
        with (64 :: drop 1 blade_head ++ ws ++ blade_tail ++ after).
      rewrite <- !app_comm_cons.
      rewrite gsub_nomatch by (by apply (re_blade_before c before)).
      f_equal.
      rewrite (gsub_blade_prev _ (Some c) None). apply IH.
      intros a b Hab. apply (Hbefore a b Hab).
  - reflexivity.
  - reflexivity.
  - reflexivity.
Qed.

End Blade.
Lemma rewriteBlade_settles_witness :
  rewriteBlade (js "<head>" ++ blade_head ++ js " " ++ blade_tail ++ js "</head>")
  = js "<head>" ++ blade_new ++ js "</head>" /\
  rewriteBlade blade_new = blade_new.
Proof.
  destruct (rewriteBlade_settles []) as (_ & _ & _ & Hat & _).
  destruct (rewriteBlade_settles (blade_head ++ js " " ++ blade_tail))
    as (_ & Hagain & _).
  split.
  - rewrite (Hat (js "<head>") (js " ") (js "</head>")); [reflexivity | | repeat constructor].
    intros a b Hab.
    assert (b = drop (length a) (js "<head>")) as ->
      by (by rewrite Hab, drop_app_length).
    by destruct (length a) as [|[|[|[|[|[|[|n]]]]]]].
  - change blade_new with (rewriteBlade (blade_head ++ js " " ++ blade_tail)) at 1 2.
    exact Hagain.
Defined.
(** ** The bundler configuration, rewritten *)

(** X10.  Whatever the bundler configuration holds, its rewrite holds
    no [__dirname], neither of the two TypeScript entry paths, and no
    blank line that a line feed ends: the pattern of the last
    replacement matches nowhere in it. *)
Theorem rewriteViteConfig_clean (content : jsstring) :
  includes (js "__dirname") (rewriteViteConfig content) = false /\
  includes (js "resources/js/app.tsx") (rewriteViteConfig content) = false /\
  includes (js "resources/js/ssr.tsx") (rewriteViteConfig content) = false /\
  nomatch re_blank_line None (rewriteViteConfig content).
Proof.
  split_and!.
  - apply fixDirname_no_dirname.
  - apply source_path_fixDirname, source_path_stripTypes; by left.
  - apply source_path_fixDirname, source_path_stripTypes; by right.
  - apply fixDirname_nomatch_blank, removeBlank_nomatch.
Qed.
(** ** The manifests *)

Section Manifests.

Context {number : Type} (number_truthy : number -> bool).
Variable JSON_parse : jsstring -> option (json number).
Variable JSON_stringify : json number -> nat -> jsstring.

Implicit Types (fs : fields number) (k key : jsstring) (v : json number) (w : world).

Lemma setField_keys k v fs : is_Some (field k fs) -> (setField k v fs).*1 = fs.*1.
Proof.
  induction fs as [|[k' u] fs IH]; cbn [field setField]; [by intros [? ?]|].
  destruct (decide (k = k')) as [->|Hne]; [done|]. intros H.
  rewrite !fmap_cons. f_equal. by apply IH.
Qed.

Lemma setField_keys_new k v fs : field k fs = None -> (setField k v fs).*1 = fs.*1 ++ [k].
Proof.
  induction fs as [|[k' u] fs IH]; cbn [field setField]; [done|].
  destruct (decide (k = k')) as [->|Hne]; [done|]. intros H.
  rewrite !fmap_cons. cbn [app]. f_equal. by apply IH.
Qed.

Lemma updateName_keys fs fs1 : updateName number_truthy fs = Ok fs1 -> fs1.*1 = fs.*1.
Proof.
  unfold updateName. intros H.
  repeat case_match; simplify_eq; try done; by apply setField_keys.
Qed.

Lemma updateDescription_keys fs fs1 :
  updateDescription number_truthy fs = Ok fs1 -> fs1.*1 = fs.*1.
Proof.
  unfold updateDescription. intros H.
  repeat case_match; simplify_eq; try done; by apply setField_keys.
Qed.

Lemma removeTypeDependencies_keys fs : (removeTypeDependencies fs).*1 = fs.*1.
Proof.
  unfold removeTypeDependencies. repeat case_match; try done; by apply setField_keys.
Qed.

Lemma updateName_name fs fs1 s :
  updateName number_truthy fs = Ok fs1 -> field (js "name") fs = Some (JString s) ->
  field (js "name") fs1 = Some (JString (renamePackage s)).
Proof.
  unfold updateName. intros H Hs. rewrite Hs in H. cbn [truthy] in H.
  destruct (negb (bool_decide (s = []))) eqn:Es.
  - destruct (includes (js "react-starter-kit") s) eqn:Ei; simplify_eq.
    + by rewrite field_setField_eq.
    + unfold renamePackage. by rewrite replaceFirst_lit_absent.
  - simplify_eq. apply negb_false_iff, bool_decide_eq_true in Es. by subst s.
Qed.

Lemma updateDescription_description fs fs1 s :
  updateDescription number_truthy fs = Ok fs1 ->
  field (js "description") fs = Some (JString s) ->
  field (js "description") fs1 = Some (JString (rewriteDescription s)).
Proof.
  unfold updateDescription. intros H Hs. rewrite Hs in H. cbn [truthy] in H.
  destruct (negb (bool_decide (s = []))) eqn:Es; simplify_eq.
  - by rewrite field_setField_eq.
  - apply negb_false_iff, bool_decide_eq_true in Es. by subst s.
Qed.

(** X11.  The package rewrite, where it returns, adds, removes and moves
    no key of the object; it changes the values of [name], [description]
    and [devDependencies] only; a name that is a string has its first
    [react-starter-kit] replaced and a description that is a string its
    first [TypeScript]. *)
Theorem rewritePackageJson_keeps_the_rest (fs fs' : fields number) :
  rewritePackageJson number_truthy (JObject fs) = Ok (JObject fs') ->
  fs'.*1 = fs.*1 /\
  (forall k, k <> js "name" -> k <> js "description" -> k <> js "devDependencies" ->
             field k fs' = field k fs) /\
  (forall s, field (js "name") fs = Some (JString s) ->
             field (js "name") fs' = Some (JString (renamePackage s))) /\
  (forall s, field (js "description") fs = Some (JString s) ->
             field (js "description") fs' = Some (JString (rewriteDescription s))).
Proof.
  cbn [rewritePackageJson]. intros H.
  destruct (updateName number_truthy fs) as [fs1|] eqn:E1; [|done].
  destruct (updateDescription number_truthy fs1) as [fs2|] eqn:E2; [|done].
  simplify_eq. split_and!.
  - by rewrite removeTypeDependencies_keys, (updateDescription_keys _ _ E2),
      (updateName_keys _ _ E1).
  - intros k H1 H2 H3. rewrite removeTypeDependencies_field by done.
    rewrite (updateDescription_field _ _ _ _ E2) by done.
    by rewrite (updateName_field _ _ _ _ E1).
  - intros s Hs. rewrite removeTypeDependencies_field by done.
    rewrite (updateDescription_field _ _ _ _ E2) by done.
    by apply (updateName_name fs).
  - intros s Hs. rewrite removeTypeDependencies_field by done.
    apply (updateDescription_description fs1); [done|].
    by rewrite (updateName_field _ _ _ _ E1).
Qed.

(** X12.  [updateJsonFile] with an assignment, as for [composer.json]
    and [components.json]: no file, nothing done; a text that does not
    parse, or that parses to [null] or to another primitive, makes it
    throw with the file as it was; for an object the file is written with
    the key assigned, the other keys as they were; an array is written
    back as it is.  Nothing beside the file changes. *)
Theorem updateJsonFile_assigns (file : path) (key : jsstring) (v : json number)
    (indent : nat) (w : world) :
  file <> [] ->
  (lookup file (tree w) = None ->
   updateJsonFile JSON_parse JSON_stringify file (assignField key v) indent w
   = (Ok tt, w)) /\
  (forall text, lookup file (tree w) = Some (File text) ->
     match JSON_parse text with
     | Some (JObject fs) =>
         exists t',
           updateJsonFile JSON_parse JSON_stringify file (assignField key v) indent w
           = (Ok tt, World t' (execs w)) /\
           lookup file t'
           = Some (File (JSON_stringify (JObject (setField key v fs)) indent)) /\
           field key (setField key v fs) = Some v /\
           (forall k, k <> key -> field k (setField key v fs) = field k fs) /\
           (setField key v fs).*1
           = (if bool_decide (is_Some (field key fs)) then fs.*1 else fs.*1 ++ [key]) /\
           (forall q, diverge file q = true -> lookup q t' = lookup q (tree w))
     | Some (JArray items) =>
         exists t',
           updateJsonFile JSON_parse JSON_stringify file (assignField key v) indent w
           = (Ok tt, World t' (execs w)) /\
           lookup file t' = Some (File (JSON_stringify (JArray items) indent)) /\
           (forall q, diverge file q = true -> lookup q t' = lookup q (tree w))
     | _ =>
         updateJsonFile JSON_parse JSON_stringify file (assignField key v) indent w
         = (Throw, w)
     end).
Proof.
  intros Hfile. unfold updateJsonFile. split.
  - intros H. by rewrite run_bind, run_existsSync_false.
  - intros text H. rewrite run_bind, run_existsSync_true by (by eexists). cbn [when].
    rewrite run_bind, (run_readFileSync _ _ text) by done.
    destruct (JSON_parse text) as [[| | | |items|fs]|]; cbn [assignField]; try done.
    + destruct (run_writeFileSync_over file w text
                  (JSON_stringify (JArray items) indent)) as (t' & Hput & ->); [done..|].
      exists t'. split_and!; [done| |].
      * by eapply lookup_put_eq.
      * intros q Hq. by eapply lookup_put_diverge.
    + destruct (run_writeFileSync_over file w text
                  (JSON_stringify (JObject (setField key v fs)) indent))
        as (t' & Hput & ->); [done..|].
      exists t'. split_and!; [done| | | | |].
      * by eapply lookup_put_eq.
      * apply field_setField_eq.
      * intros k Hk. by apply field_setField_ne.
      * destruct (field key fs) eqn:E.
        -- rewrite bool_decide_eq_true_2 by (by eexists). apply setField_keys. by eexists.
        -- rewrite bool_decide_eq_false_2 by (by intros [? ?]). by apply setField_keys_new.
      * intros q Hq. by eapply lookup_put_diverge.
Qed.

End Manifests.
Lemma rewritePackageJson_keeps_the_rest_witness :
  exists fs',
    rewritePackageJson truthyZ (JObject example_package) = Ok (JObject fs') /\
    fs'.*1 = example_package.*1 /\
    field (js "private") fs' = Some (JBool true) /\
    field (js "name") fs' = Some (JString (js "vendor/react-jsx-starter-kit")).
Proof.
  eexists. split; [reflexivity|].
  destruct (rewritePackageJson_keeps_the_rest truthyZ example_package _ eq_refl)
    as (Hkeys & Hrest & Hname & _).
  split; [exact Hkeys|]. split.
  - rewrite Hrest; [reflexivity | by vm_compute..].
  - rewrite (Hname (js "vendor/react-starter-kit")); reflexivity.
Defined.

Lemma updateJsonFile_assigns_witness :
  updateJsonFile braces_json flat_json [js "composer.json"]
    (assignField (js "name") (JString (js "app"))) 4 (World project [])
  = (Ok tt, World project []) /\
  exists t',
    updateJsonFile braces_json flat_json [js "package.json"]
      (assignField (js "name") (JString (js "app"))) 2 (World project [])
    = (Ok tt, World t' []) /\
    lookup [js "eslint.config.js"] t' = lookup [js "eslint.config.js"] project.
Proof.
  split.
  - apply (updateJsonFile_assigns braces_json flat_json [js "composer.json"]);
      [discriminate | reflexivity].
  - destruct (updateJsonFile_assigns braces_json flat_json [js "package.json"]
                (js "name") (JString (js "app")) 2 (World project [])) as [_ H];
      [discriminate|].
    specialize (H (js "{}") eq_refl).
    change (braces_json (js "{}")) with (Some (JObject (@nil (jsstring * json Z)))) in H.
    destruct H as (t' & Hrun & _ & _ & _ & _ & Hframe).
    exists t'. split; [exact Hrun|]. apply Hframe. reflexivity.
Defined.
(** ** The checks of the self-test *)

Section Checks.

Context {number : Type}.
Variable JSON_stringify : json number -> nat -> jsstring.
Variable spawn : command -> node -> result jsstring * node.
Variable now : jsstring.

Implicit Types (w : world) (p : path).

Lemma run_checkPrerequisite check w :
  Tester.checkPrerequisite spawn check w
  = (Ok match (spawn check.1 (tree w)).1, check.2 with
        | Ok out, Some validator => validator out
        | Ok _, None => true
        | Throw, _ => false
        end,
     World (spawn check.1 (tree w)).2 (check.1 :: execs w)).
Proof.
  unfold Tester.checkPrerequisite, catch. rewrite run_bind, run_execSync.
  destruct (spawn check.1 (tree w)) as [[out|] t]; [|done]. by destruct check.2.
Qed.

(** X13.  [checkPrerequisites] runs all five probes, in their order,
    whatever the earlier ones answered, and never throws; it returns
    [true] exactly when every probe exits normally and the answer of
    Node.js passes the version check. *)
Theorem checkPrerequisites_probes_all (w : world) :
  let node := spawn NodeVersion (tree w) in
  let npm := spawn NpmVersion node.2 in
  let tsc := spawn TscVersion npm.2 in
  let prettier := spawn PrettierVersion tsc.2 in
  let git := spawn GitVersion prettier.2 in
  exists allPassed,
    Tester.checkPrerequisites spawn w
    = (Ok allPassed,
       World git.2
         (GitVersion :: PrettierVersion :: TscVersion :: NpmVersion :: NodeVersion
            :: execs w)) /\
    (allPassed = true <->
     (exists out, node.1 = Ok out /\ Tester.nodeVersionOk out = true) /\
     npm.1 <> Throw /\ tsc.1 <> Throw /\ prettier.1 <> Throw /\ git.1 <> Throw).
Proof.
  intros node npm tsc prettier git.
  unfold Tester.checkPrerequisites, Tester.allOf, Tester.prerequisites.
  rewrite run_bind, run_checkPrerequisite. cbn [fst snd tree execs]. fold node.
  rewrite run_bind, run_checkPrerequisite. cbn [fst snd tree execs]. fold npm.
  rewrite run_bind, run_checkPrerequisite. cbn [fst snd tree execs]. fold tsc.
  rewrite run_bind, run_checkPrerequisite. cbn [fst snd tree execs]. fold prettier.
  rewrite run_bind, run_checkPrerequisite. cbn [fst snd tree execs]. fold git.
  eexists. split; [reflexivity|].
  destruct node.1 as [out|]; [destruct (Tester.nodeVersionOk out) eqn:Ev|];
    destruct npm.1, tsc.1, prettier.1, git.1; cbn;
    (split; [try done; intros _; split_and!; try done; by eexists
            | intros ((out' & Hout & Hv) & ? & ? & ? & ?); try done; simplify_eq;
              congruence]).
Qed.

(** A loop of [allOf] over rounds that only read. *)
Lemma run_allOf_reads {A} (xs : list A) (round : A -> M bool) (f : A -> bool) w :
  (forall x, round x w = (Ok (f x), w)) ->
  Tester.allOf xs round w = (Ok (forallb f xs), w).
Proof.
  intros Hround. unfold Tester.allOf.
  change (forallb f xs) with (true && forallb f xs). generalize true as flag.
  induction xs as [|x xs IH]; intros flag.
  - by rewrite andb_true_r.
  - rewrite run_bind, Hround, IH. cbn [forallb]. by destruct (f x), flag.
Qed.

Lemma run_allPresent (required_files required_dirs : list path) w :
  exists present,
    Tester.allPresent required_files required_dirs w = (Ok present, w) /\
    (present = true <->
     Forall (fun f => is_Some (lookup f (tree w))) required_files /\
     Forall (fun d => exists es, lookup d (tree w) = Some (Dir es)) required_dirs).
Proof.
  unfold Tester.allPresent.
  rewrite run_bind,
    (run_allOf_reads _ _ (fun f => bool_decide (is_Some (lookup f (tree w)))))
    by (intros; apply run_existsSync).
  rewrite run_bind,
    (run_allOf_reads _ _ (fun d => match lookup d (tree w) with
                                   | Some (Dir _) => true | _ => false end)).
  - eexists. split; [reflexivity|].
    rewrite andb_true_iff, !forallb_forall, !Forall_forall. split.
    + intros [H1 H2]. split; intros x Hx; apply list_elem_of_In in Hx.
      * specialize (H1 x Hx). by apply bool_decide_eq_true in H1.
      * specialize (H2 x Hx). destruct (lookup x (tree w)) as [[|es]|]; try done.
        by eexists.
    + intros [H1 H2]. split; intros x Hx; apply list_elem_of_In in Hx.
      * by apply bool_decide_eq_true, H1.
      * by destruct (H2 x Hx) as [es ->].
  - intros d. unfold Tester.isExistingDirectory. rewrite run_bind, run_existsSync.
    unfold isDirectory.
    destruct (lookup d (tree w)) as [[|es]|] eqn:E.
    + rewrite bool_decide_eq_true_2 by (by eexists). rewrite run_bind. cbn [get].
      by rewrite E.
    + rewrite bool_decide_eq_true_2 by (by eexists). rewrite run_bind. cbn [get].
      by rewrite E.
    + by rewrite bool_decide_eq_false_2 by (by intros [? ?]).
Qed.

(** X14.  [checkProjectStructure] only reads: it returns in the world
    it was given, [true] exactly when something is at each of the six
    required file paths, be it a directory, and a directory at each of
    the four required directory paths. *)
Theorem checkProjectStructure_reads (w : world) :
  exists allExists,
    Tester.checkProjectStructure w = (Ok allExists, w) /\
    (allExists = true <->
     Forall (fun f => is_Some (lookup f (tree w)))
       [ [js "package.json"];
         [js "resources"; js "js"; js "app.tsx"];
         [js "resources"; js "js"; js "ssr.tsx"];
         [js "vite.config.ts"];
         [js "resources"; js "views"; js "app.blade.php"];
         [js "scripts"; js "run-conversion.js"] ] /\
     Forall (fun d => exists es, lookup d (tree w) = Some (Dir es))
       [ [js "resources"; js "js"; js "components"];
         [js "resources"; js "js"; js "pages"];
         [js "resources"; js "js"; js "layouts"];
         [js "resources"; js "js"; js "hooks"] ]).
Proof. apply run_allPresent. Qed.

(** X15.  [testConversion] removes the staging directory, then runs
    the conversion script on what is left.  When the script fails it
    returns [false] and checks nothing.  When the script exits normally
    it counts the files with [find], whose outcome it ignores, and
    returns [true] exactly when, in the tree that the script left,
    something is at each required output file path and a directory at
    each required output directory path. *)
Theorem testConversion_verdict (w : world) :
  let conversion := spawn RunConversion (remove Tester.outputDir (tree w)) in
  match conversion.1 with
  | Throw =>
      Tester.testConversion spawn w
      = (Ok false, World conversion.2 (RunConversion :: execs w))
  | Ok _ =>
      exists valid,
        Tester.testConversion spawn w
        = (Ok valid,
           World (spawn FindCount conversion.2).2
             (FindCount :: RunConversion :: execs w)) /\
        (valid = true <->
         Forall (fun f => is_Some (lookup f conversion.2)) Tester.requiredOutputFiles /\
         Forall (fun d => exists es, lookup d conversion.2 = Some (Dir es))
           Tester.requiredOutputDirs)
  end.
Proof.
  intros conversion. unfold Tester.testConversion.
  rewrite run_bind, run_existsSync. cbn beta iota.
  assert (when (bool_decide (is_Some (lookup Tester.outputDir (tree w))))
            (rmSyncRecursive Tester.outputDir) w
          = (Ok tt, World (remove Tester.outputDir (tree w)) (execs w))) as Hrm.
  { destruct (lookup Tester.outputDir (tree w)) eqn:E.
    - by rewrite bool_decide_eq_true_2 by (by eexists).
    - rewrite bool_decide_eq_false_2 by (by intros [? ?]). cbn [when ret].
      rewrite remove_absent by done. by destruct w. }
  rewrite run_bind, Hrm. cbn beta iota.
  rewrite run_bind. unfold Tester.runCommand, catch. rewrite run_bind, run_execSync.
  cbn [tree execs]. fold conversion.
  destruct conversion as [[out|] t'] eqn:Ec; cbn [fst snd negb]; [|done].
  unfold ret at 1. cbn beta iota zeta. cbn [negb].
  unfold Tester.verifyConversionOutput. rewrite run_bind.
  destruct (run_allPresent Tester.requiredOutputFiles Tester.requiredOutputDirs
              (World t' (RunConversion :: execs w))) as (valid & -> & Hvalid).
  exists valid. split; [|done]. rewrite run_bind. unfold catch.
  rewrite run_bind, run_execSync. cbn [tree execs].
  by destruct (spawn FindCount t') as [[?|] ?].
Qed.

End Checks.
(** ** Counting the converted files *)

Section Counting.

Implicit Types (t : node) (es items : entries) (p : path) (x ext : jsstring) (w : world).
Implicit Types (extensions : list jsstring).

Lemma files_Dir_cons es p : p ∈ files (Dir es) -> p <> [].
Proof.
  cbn [files]. rewrite list_elem_of_In, in_flat_map. intros ([x n] & _ & H).
  apply in_map_iff in H as (q & <- & _). done.
Qed.

Lemma pathEndsWith_cons ext x p : p <> [] -> pathEndsWith ext (x :: p) = pathEndsWith ext p.
Proof. unfold pathEndsWith. by destruct p. Qed.

Lemma existsb_ext {A} (f g : A -> bool) (l : list A) :
  (forall a, f a = g a) -> existsb f l = existsb g l.
Proof. intros H. induction l as [|a l IH]; [done|]. simpl. by rewrite H, IH. Qed.

Lemma length_filter_cons (f : path -> bool) x (ps : list path) :
  (forall p, p ∈ ps -> f (x :: p) = f p) ->
  length (List.filter f (List.map (cons x) ps)) = length (List.filter f ps).
Proof.
  induction ps as [|p ps IH]; intros H; [done|]. cbn [List.map List.filter].
  rewrite (H p) by (by left). destruct (f p); cbn [length]; rewrite IH; try done;
    intros q Hq; apply H; by right.
Qed.

(** [countBelow] counts the files below a directory whose name ends in
    one of the extensions. *)
Lemma countBelow_files extensions t :
  Tester.countBelow extensions t
  = match t with
    | File _ => 0%nat
    | Dir _ =>
        length (List.filter (fun p => existsb (fun ext => pathEndsWith ext p) extensions)
                  (files t))
    end.
Proof.
  induction t as [c|es IH] using node_induction; [done|].
  cbn [Tester.countBelow files]. set (f := fun p => existsb _ extensions).
  set (step := fun (count : nat) (entry : jsstring * node) => _).
  assert (forall acc, fold_left step es acc
            = (acc + length (List.filter f
                  (flat_map (fun e => List.map (cons e.1) (files e.2)) es)))%nat) as H.
  { induction es as [|[x n] es IHes]; intros acc; [simpl; lia|].
    apply Forall_cons in IH as [Hn IH]. cbn [fold_left flat_map].
    rewrite IHes by done. rewrite List.filter_app, length_app.
    unfold step. cbn [fst snd] in *. destruct n as [c|ces].
    - cbn [files List.map List.filter length]. unfold f at 2.
      change (fun ext => pathEndsWith ext [x]) with (fun ext => endsWith ext x).
      set (rest := length (List.filter f (flat_map _ es))).
      destruct (existsb (fun ext => endsWith ext x) extensions); cbn [length]; lia.
    - rewrite Hn. fold f. rewrite length_filter_cons; [lia|].
      intros p Hp. unfold f. apply files_Dir_cons in Hp.
      apply existsb_ext. intros ext. by apply pathEndsWith_cons. }
  by rewrite H.
Qed.

Lemma length_filter_or {A} (f g : A -> bool) (l : list A) :
  (forall a, g a = true -> f a = false) ->
  length (List.filter (fun a => f a || g a) l)
  = (length (List.filter f l) + length (List.filter g l))%nat.
Proof.
  intros H. induction l as [|a l IH]; [done|]. simpl.
  destruct (g a) eqn:Eg; [rewrite (H a Eg)|destruct (f a)]; simpl; lia.
Qed.

(** X16.  [countFilesRecursive] only reads.  It answers 0 for a
    directory that is not there and throws for a file; for a directory it
    answers the number of files below it, at any depth, whose name ends
    in one of the extensions; and the count for [.js] and [.jsx] is the
    sum of the two counts, no name being counted twice. *)
Theorem countFilesRecursive_counts (dir : path) extensions (w : world) :
  Tester.countFilesRecursive dir extensions w
  = match lookup dir (tree w) with
    | None => (Ok 0%nat, w)
    | Some (File _) => (Throw, w)
    | Some (Dir items) =>
        (Ok (length (List.filter
                       (fun p => existsb (fun ext => pathEndsWith ext p) extensions)
                       (files (Dir items)))), w)
    end /\
  forall t,
    Tester.countBelow [js ".js"; js ".jsx"] t
    = (Tester.countBelow [js ".js"] t + Tester.countBelow [js ".jsx"] t)%nat.
Proof.
  split.
  - unfold Tester.countFilesRecursive. rewrite run_bind, run_existsSync.
    destruct (lookup dir (tree w)) as [[c|items]|] eqn:E.
    + rewrite bool_decide_eq_true_2 by (by eexists). cbn [negb].
      rewrite run_bind. cbn [get]. by rewrite E.
    + rewrite bool_decide_eq_true_2 by (by eexists). cbn [negb].
      rewrite run_bind. cbn [get]. rewrite E. cbn [ret].
      by rewrite (countBelow_files extensions (Dir items)).
    + by rewrite bool_decide_eq_false_2 by (by intros [? ?]).
  - intros t. rewrite !countBelow_files. destruct t as [c|es]; [done|].
    rewrite <- length_filter_or.
    + f_equal. apply List.filter_ext. intros p. simpl. by rewrite !orb_false_r.
    + intros p. simpl. rewrite !orb_false_r. apply pathEndsWith_jsx_not_js.
Qed.

End Counting.
(** ** The statistics of a completed run *)

Section Stats.

Variable glob : path -> node -> list path.
Variable globSources : path -> node -> list path.

(** X17.  In [run] the statistics come after [removeTempFiles], which
    has removed [output/js], the directory whose files they count: where
    [glob] finds nothing in a directory that is not there, they report no
    JavaScript output file, whatever was converted, and at most two
    output files in all; and they change nothing. *)
Theorem generateStats_after_removeTempFiles (w : world) :
  (forall t, lookup jsOutputDir t = None -> glob jsOutputDir t = []) ->
  exists s w1,
    removeTempFiles w = (Ok tt, w1) /\
    generateStats glob globSources w1 = (Ok s, w1) /\
    jsOutputs s = 0%nat /\
    totalOutputs s = (configOutputs s + viewOutputs s)%nat /\
    (totalOutputs s <= 2)%nat.
Proof.
  intros Hglob.
  assert (exists t1, removeTempFiles w = (Ok tt, World t1 (execs w)) /\
                     lookup jsOutputDir t1 = None) as (t1 & Hrm & Hjs).
  { eexists. split.
    - unfold removeTempFiles. rewrite !forEach_cons, run_bind, run_removeTempFile.
      cbn beta iota. rewrite run_bind, run_removeTempFile. done.
    - cbn [tree]. by apply lookup_remove_eq. }
  eexists _, _. split; [exact Hrm|].
  unfold generateStats. rewrite run_bind. cbn [get tree].
  rewrite (Hglob t1 Hjs). rewrite run_bind, run_existsSync. cbn beta iota.
  rewrite run_bind, run_existsSync. cbn beta iota.
  split; [reflexivity|]. cbn [jsOutputs totalOutputs configOutputs viewOutputs length].
  split_and!; [done|lia|].
  destruct (bool_decide _), (bool_decide _); lia.
Qed.

End Stats.

(** ** What the self-test touches *)

Section TesterConfined.

Context {number : Type}.
Variable JSON_stringify : json number -> nat -> jsstring.
Variable spawn : command -> node -> result jsstring * node.
Variable now : jsstring.

Lemma confined_allOf (P : path -> Prop) {A} (xs : list A) (round : A -> M bool) :
  (forall x, confined P (round x)) -> confined P (Tester.allOf xs round).
Proof.
  intros Hround. unfold Tester.allOf. generalize true.
  induction xs as [|x xs IH]; intros flag; [apply confined_ret|].
  apply confined_bind; [apply Hround|]. intros ok. apply IH.
Qed.

(** X18.  The self-test itself removes the staging directory and writes
    the report, and nothing else: where the child processes leave alone
    what is neither below [output] nor at [workflow-test-report.json],
    so does the self-test, whatever its outcome. *)
Theorem tester_leaves_sources_alone (w : world) (q : path) :
  (forall cmd t q,
     diverge Tester.outputDir q = true -> diverge Tester.reportPath q = true ->
     lookup q (spawn cmd t).2 = lookup q t) ->
  diverge Tester.outputDir q = true -> diverge Tester.reportPath q = true ->
  lookup q (tree (Tester.main JSON_stringify spawn now w).2) = lookup q (tree w).
Proof.
  intros Hspawn H1 H2.
  assert (confined (fun q => diverge Tester.outputDir q = true /\
                             diverge Tester.reportPath q = true)
            (Tester.run JSON_stringify spawn now)) as Hrun.
  { unfold Tester.run, Tester.checkPrerequisites, Tester.checkProjectStructure,
      Tester.testConversion, Tester.testWorkflowComponents, Tester.generateReport,
      Tester.verifyConversionOutput, Tester.allPresent, Tester.runCommand.
    confine; try apply confined_allOf; confine;
      try (unfold Tester.checkPrerequisite, Tester.isExistingDirectory; confine);
      try (match goal with H : _ /\ _ |- _ => destruct H end; by auto). }
  specialize (Hrun w q (conj H1 H2)). unfold Tester.main.
  by destruct (Tester.run JSON_stringify spawn now w) as [[code|] w'].
Qed.

End TesterConfined.
Lemma generateStats_after_removeTempFiles_witness :
  exists s w1,
    removeTempFiles compiled_world = (Ok tt, w1) /\
    generateStats glob_scripts no_glob w1 = (Ok s, w1) /\
    jsOutputs s = 0%nat.
Proof.
  destruct (generateStats_after_removeTempFiles glob_scripts no_glob compiled_world)
    as (s & w1 & H1 & H2 & H3 & _); [intros t; apply glob_scripts_missing|].
  exists s, w1. split; [exact H1|]. split; [exact H2 | exact H3].
Defined.

Lemma tester_leaves_sources_alone_witness :
  lookup [js "resources"; js "js"; js "app.tsx"]
    (tree (Tester.main flat_json healthy report_time (World tester_project [])).2)
  = Some (File (js "import './pages/welcome.tsx';")).
Proof.
  rewrite (tester_leaves_sources_alone flat_json healthy report_time);
    [reflexivity | | reflexivity | reflexivity].
  intros cmd t q Hq _. destruct cmd; try reflexivity.
  destruct t as [c|es]; [reflexivity|]. destruct q as [|y q]; [discriminate|].
  cbn [healthy snd lookup]. cbn [Tester.outputDir diverge] in Hq.
  destruct (decide (js "output" = y)) as [<-|Hne]; [by destruct q|].
  by rewrite entry_lookup_put_ne.
Defined.
(** ** The two converters that [run] does not call *)

Section Legacy.

Implicit Types (p r s u content : jsstring) (w : world).

Lemma startsWith_replaceLit_clash u p r s :
  p <> [] ->
  (forall d, (d < length u)%nat -> clash (drop d u) r = true) ->
  startsWith u (replaceLit p r s) = true -> startsWith u s = true.
Proof.
  intros Hp. revert s. induction u as [|x u IH]; intros s Hu H; [done|].
  destruct (startsWith p s) eqn:E.
  - rewrite replaceLit_hit in H by done.
    rewrite clash_app in H; [done|]. apply (Hu 0%nat). simpl. lia.
  - destruct s as [|c s]; [by rewrite replaceLit_nil in H|].
    rewrite replaceLit_miss in H by done. simpl in *.
    apply andb_true_iff in H as [-> H]. simpl. apply IH; [|done].
    intros d Hd. apply (Hu (S d)). lia.
Qed.

Lemma apart_suffixes (q r : jsstring) d :
  r <> [] -> apart q r = true -> (d < length q)%nat -> clash (drop d q) r = true.
Proof.
  intros Hr [H1 H2]%andb_true_iff Hd. rewrite forallb_forall in H1, H2.
  destruct d as [|d].
  - apply (H1 0%nat), in_seq. destruct r; [done|]. simpl. lia.
  - apply H2, in_seq. lia.
Qed.

(** A global replacement by a text that stands apart from [q] brings no
    [q] about, and leaves none of its own pattern where it stands apart
    from that. *)
Lemma includes_replaceLit_kept_out (q : jsstring) p r s :
  p <> [] -> r <> [] -> apart q r = true ->
  includes q s = false -> includes q (replaceLit p r s) = false.
Proof.
  intros Hp Hr Hap.
  induction s as [s IH] using (induction_ltof1 _ (@length N)). unfold ltof in IH.
  intros H. destruct (startsWith p s) eqn:E.
  - rewrite replaceLit_hit by done.
    apply (includes_insert q [] r); [done|]. rewrite app_nil_l. apply IH.
    + pose proof (startsWith_length _ _ E). rewrite length_drop.
      destruct p; [done|]. simpl in *. lia.
    + destruct (includes q (drop (length p) s)) eqn:Ei; [|done].
      apply includes_drop in Ei. congruence.
  - destruct s as [|c s]; [by rewrite replaceLit_nil|].
    rewrite includes_cons in H. apply orb_false_iff in H as [H1 H2].
    destruct (includes q (replaceLit p r (c :: s))) eqn:Ei; [|done].
    rewrite replaceLit_miss, includes_cons in Ei by done.
    rewrite (IH s) in Ei by (done || simpl; lia). rewrite orb_false_r in Ei.
    rewrite <- replaceLit_miss in Ei by done.
    apply startsWith_replaceLit_clash in Ei; [congruence|done|].
    intros d Hd. by apply apart_suffixes.
Qed.

Lemma includes_replaceLit_gone p r s :
  p <> [] -> r <> [] -> apart p r = true -> includes p (replaceLit p r s) = false.
Proof.
  intros Hp Hr Hap.
  induction s as [s IH] using (induction_ltof1 _ (@length N)). unfold ltof in IH.
  destruct (startsWith p s) eqn:E.
  - rewrite replaceLit_hit by done.
    apply (includes_insert p [] r); [done|]. rewrite app_nil_l. apply IH.
    pose proof (startsWith_length _ _ E). rewrite length_drop.
    destruct p; [done|]. simpl in *. lia.
  - destruct s as [|c s]; [rewrite replaceLit_nil by done; by destruct p|].
    destruct (includes p (replaceLit p r (c :: s))) eqn:Ei; [|done].
    rewrite replaceLit_miss, includes_cons in Ei by done.
    rewrite (IH s) in Ei by (simpl; lia). rewrite orb_false_r in Ei.
    rewrite <- replaceLit_miss in Ei by done.
    apply startsWith_replaceLit_clash in Ei; [congruence|done|].
    intros d Hd. by apply apart_suffixes.
Qed.

(** X19.  [convertViteConfig] returns [false] and does nothing when
    there is no [vite.config.ts]; where that is a file and the staging
    directory is there, with no directory called [vite.config.js], it
    returns [true], leaves the file as it is and writes
    [output/vite.config.js], touching nothing else; what it writes holds
    neither of the two TypeScript entry paths and no blank line that a
    line feed ends. *)
Theorem convertViteConfig_converts (w : world) :
  (lookup [js "vite.config.ts"] (tree w) = None ->
   convertViteConfig w = (Ok false, w)) /\
  (forall content es,
     lookup [js "vite.config.ts"] (tree w) = Some (File content) ->
     lookup outputDir (tree w) = Some (Dir es) ->
     (forall es', entry_lookup (js "vite.config.js") es <> Some (Dir es')) ->
     exists t',
       convertViteConfig w = (Ok true, World t' (execs w)) /\
       lookup (outputDir ++ [js "vite.config.js"]) t'
       = Some (File (convertViteText content)) /\
       (forall q, diverge (outputDir ++ [js "vite.config.js"]) q = true ->
                  lookup q t' = lookup q (tree w))) /\
  (forall content,
     includes (js "resources/js/app.tsx") (convertViteText content) = false /\
     includes (js "resources/js/ssr.tsx") (convertViteText content) = false /\
     nomatch re_blank_line None (convertViteText content)).
Proof.
  split_and!.
  - intros H. unfold convertViteConfig. by rewrite run_bind, run_existsSync_false.
  - intros content es Hsrc Hout Hdir. unfold convertViteConfig.
    rewrite run_bind, run_existsSync_true by (by eexists). cbn [negb].
    rewrite run_bind, (run_readFileSync _ _ content) by done.
    assert (is_Some (put (outputDir ++ [js "vite.config.js"])
                       (File (convertViteText content)) (tree w))) as [t' Ht'].
    { rewrite (put_snoc _ _ _ _ es) by done. by apply put_exists; eexists. }
    exists t'. split_and!.
    + rewrite run_bind. unfold writeFileSync. rewrite run_bind. cbn [get].
      rewrite lookup_app, Hout. cbn [mbind option_bind lookup].
      destruct (entry_lookup (js "vite.config.js") es) as [[c|es']|] eqn:E;
        cbn [mbind option_bind lookup]; [| by destruct (Hdir es') |];
        unfold update; by rewrite Ht'.
    + by eapply lookup_put_eq.
    + intros q Hq. by eapply lookup_put_diverge.
  - intros content. unfold convertViteText.
    pose proof (source_path_solid app_tsx (or_introl eq_refl)) as [Ha1 Ha2].
    pose proof (source_path_solid ssr_tsx (or_intror eq_refl)) as [Hs1 Hs2].
    split_and!.
    + apply (includes_removeBlank app_tsx); [done..|].
      apply (includes_replaceLit_kept_out app_tsx); [done|done|by vm_compute|].
      by apply (includes_replaceLit_gone app_tsx).
    + apply (includes_removeBlank ssr_tsx); [done..|].
      by apply (includes_replaceLit_gone ssr_tsx).
    + apply removeBlank_nomatch.
Qed.

(** X20.  [convertBladeTemplate] returns [false] and does nothing when
    there is no view template; where that is a file and the staging
    directory is there, with no [views] in it yet, it returns [true],
    makes [output/views] and writes the converted template there,
    touching nothing else; what it writes holds no directive that its
    pattern matches. *)
Theorem convertBladeTemplate_converts (w : world) :
  (lookup [js "resources"; js "views"; js "app.blade.php"] (tree w) = None ->
   convertBladeTemplate w = (Ok false, w)) /\
  (forall content es,
     lookup [js "resources"; js "views"; js "app.blade.php"] (tree w)
     = Some (File content) ->
     lookup outputDir (tree w) = Some (Dir es) ->
     entry_lookup (js "views") es = None ->
     exists t',
       convertBladeTemplate w = (Ok true, World t' (execs w)) /\
       lookup (outputDir ++ [js "views"; js "app.blade.php"]) t'
       = Some (File (convertBladeText content)) /\
       (forall q, diverge (outputDir ++ [js "views"]) q = true ->
                  lookup q t' = lookup q (tree w))) /\
  (forall content, nomatch re_blade None (convertBladeText content)).
Proof.
  split_and!.
  - intros H. unfold convertBladeTemplate. by rewrite run_bind, run_existsSync_false.
  - intros content es Hsrc Hout Hviews. unfold convertBladeTemplate.
    rewrite run_bind, run_existsSync_true by (by eexists). cbn [negb].
    destruct (run_ensureDirectory_new outputDir (js "views") w es Hout Hviews)
      as (t1 & Hmk & Ht1).
    rewrite run_bind, Hmk. cbn beta iota.
    rewrite run_bind, (run_readFileSync _ _ content)
      by (cbn [tree]; by rewrite (lookup_put_diverge outputDir
            [js "resources"; js "views"; js "app.blade.php"] _ _ _ eq_refl Ht1)).
    destruct (run_writeFileSync_new (outputDir ++ [js "views"]) (js "app.blade.php")
                (convertBladeText content) (World t1 (execs w)) [])
      as (t2 & Hwr & Ht2).
    { by eapply lookup_new_entry. }
    { done. }
    cbn [tree execs] in *. exists t2. split_and!.
    + rewrite run_bind. change (outputDir ++ [js "views"] ++ [js "app.blade.php"])
        with ((outputDir ++ [js "views"]) ++ [js "app.blade.php"]).
      by rewrite Hwr.
    + change (outputDir ++ [js "views"; js "app.blade.php"])
        with ((outputDir ++ [js "views"]) ++ [js "app.blade.php"]).
      by eapply lookup_new_entry.
    + intros q Hq. rewrite (lookup_put_diverge _ _ _ _ _ Hq Ht2).
      eapply (lookup_put_entry_frame outputDir q (js "views")); [done..| |done].
      intros y Hy. rewrite entry_lookup_app.
      destruct (entry_lookup y es); [done|]. simpl. by rewrite decide_False.
  - intros content. unfold convertBladeText, replaceAll.
    apply (nomatch_gsub_marked re_blade 64 (drop 1 blade_output));
      [done | apply re_blade_mark | apply re_blade_local | done |].
    intros prev x. apply (re_blade_output prev x).
Qed.

End Legacy.
Lemma convertViteConfig_converts_witness :
  convertViteConfig entry_world = (Ok false, entry_world) /\
  exists t',
    convertViteConfig staged_world = (Ok true, World t' []) /\
    lookup (outputDir ++ [js "vite.config.js"]) t'
    = Some (File (convertViteText example_vite)) /\
    lookup [js "vite.config.ts"] t' = Some (File example_vite).
Proof.
  split.
  - apply (convertViteConfig_converts entry_world). reflexivity.
  - destruct (convertViteConfig_converts staged_world) as (_ & H & _).
    destruct (H example_vite [(js "js", Dir [])] eq_refl eq_refl) as (t' & Hrun & Hnew & Hframe);
      [discriminate|].
    exists t'. split; [exact Hrun|]. split; [exact Hnew|]. rewrite Hframe; reflexivity.
Defined.

Lemma convertBladeTemplate_converts_witness :
  convertBladeTemplate entry_world = (Ok false, entry_world) /\
  exists t',
    convertBladeTemplate staged_world = (Ok true, World t' []) /\
    lookup (outputDir ++ [js "views"; js "app.blade.php"]) t'
    = Some (File (convertBladeText (js "<title>app</title>"))).
Proof.
  split.
  - apply (convertBladeTemplate_converts entry_world). reflexivity.
  - destruct (convertBladeTemplate_converts staged_world) as (_ & H & _).
    destruct (H (js "<title>app</title>") [(js "js", Dir [])] eq_refl eq_refl eq_refl)
      as (t' & Hrun & Hnew & _).
    exists t'. split; [exact Hrun | exact Hnew].
Defined.
(** ** The workflows that reach the staging directory *)

Section Workflows.

Implicit Types (p q src dst dir : path) (t n : node) (es : entries) (x y : jsstring).
Implicit Types (w : world) (c : jsstring).

Lemma lookup_File_inv q c n : lookup q (File c) = Some n -> q = [] /\ n = File c.
Proof. destruct q; simpl; [by intros [= <-] | done]. Qed.

(** Writing a file brings no other file about. *)
Lemma put_File_only p c t t' q c' :
  put p (File c) t = Some t' -> lookup q t' = Some (File c') ->
  (q = p /\ c' = c) \/ lookup q t = Some (File c').
Proof.
  revert t t' q. induction p as [|x p IH]; intros t t' q H Hq.
  - simpl in H. simplify_eq. apply lookup_File_inv in Hq as [-> [= ->]]. by left.
  - cbn [put] in H. destruct t as [c0|es]; [done|]. destruct p as [|z p].
    + simplify_eq. destruct q as [|y q]; [done|]. cbn [lookup] in *.
      destruct (decide (x = y)) as [<-|Hne].
      * rewrite entry_lookup_put_eq in Hq. cbn [mbind option_bind] in Hq.
        apply lookup_File_inv in Hq as [-> [= ->]]. by left.
      * rewrite entry_lookup_put_ne in Hq by done. by right.
    + destruct (entry_lookup x es) as [child|] eqn:Ex; [|done].
      cbn [mbind option_bind] in H.
      destruct (put (z :: p) (File c) child) as [child'|] eqn:Ec; [|done].
      cbn [mbind option_bind] in H. simplify_eq.
      destruct q as [|y q]; [done|]. cbn [lookup] in *.
      destruct (decide (x = y)) as [<-|Hne].
      * rewrite entry_lookup_put_eq in Hq. cbn [mbind option_bind] in Hq.
        destruct (IH _ _ _ Ec Hq) as [[-> ->]|Hold]; [by left|].
        right. by rewrite Ex.
      * rewrite entry_lookup_put_ne in Hq by done. by right.
Qed.

(** Making directories brings no file about. *)
Lemma mkdirp_no_file p t t' q c :
  mkdirp p t = Some t' -> lookup q t' = Some (File c) -> lookup q t = Some (File c).
Proof.
  revert t t' q. induction p as [|x p IH]; intros t t' q H Hq.
  - destruct t; simpl in H; by simplify_eq.
  - destruct t as [c0|es]; [done|]. cbn [mkdirp] in H.
    destruct (mkdirp p (default (Dir []) (entry_lookup x es))) as [child'|] eqn:E; [|done].
    cbn [mbind option_bind] in H. simplify_eq.
    destruct q as [|y q]; [done|]. cbn [lookup] in *.
    destruct (decide (x = y)) as [<-|Hne].
    + rewrite entry_lookup_put_eq in Hq. cbn [mbind option_bind] in Hq.
      specialize (IH _ _ _ E Hq). destruct (entry_lookup x es) as [child|]; [done|].
      simpl in IH. by destruct q.
    + by rewrite entry_lookup_put_ne in Hq.
Qed.

Lemma run_ensureDirectory_Ok dir w w' :
  ensureDirectory dir w = (Ok tt, w') ->
  (forall q, diverge dir q = true -> lookup q (tree w') = lookup q (tree w)) /\
  (forall q c, lookup q (tree w') = Some (File c) -> lookup q (tree w) = Some (File c)).
Proof.
  unfold ensureDirectory. rewrite run_bind, run_existsSync.
  destruct (bool_decide _); cbn [negb when]; [unfold ret; by intros [= <-]|].
  unfold mkdirSync, update. destruct (mkdirp dir (tree w)) as [t'|] eqn:E; [|done].
  intros [= <-]. cbn [tree]. split.
  - intros q Hq. by eapply mkdirp_frame.
  - intros q c Hq. by eapply mkdirp_no_file.
Qed.

Lemma run_copyFileSync_Ok src dst w w' :
  copyFileSync src dst w = (Ok tt, w') ->
  exists c, lookup src (tree w) = Some (File c) /\
            put dst (File c) (tree w) = Some (tree w').
Proof.
  unfold copyFileSync, readFileSync, writeFileSync. rewrite !run_bind. cbn [get].
  destruct (lookup src (tree w)) as [[c|]|]; try done. unfold ret at 1.
  rewrite run_bind. cbn [get]. intros H. exists c. split; [done|].
  unfold update in H.
  destruct (lookup dst (tree w)) as [[]|]; try done;
    destruct (put dst (File c) (tree w)); by simplify_eq.
Qed.

(** The walk of [copyProjectFiles] writes nothing below a name that its
    test leaves out. *)
Lemma confined_copyProjectFiles_skips (P : path -> Prop) source target
    (excludeDirs excludeFiles : list jsstring) :
  (forall q, P q ->
     diverge target q = true \/
     exists x rest, q = target ++ x :: rest /\ kept excludeDirs excludeFiles x = false) ->
  confined P (copyProjectFiles source target excludeDirs excludeFiles).
Proof.
  intros H. destruct source as [c|es]; [apply confined_throw|].
  cbn [copyProjectFiles]. apply confined_forEach_in. intros [x n] He. cbn [fst snd].
  destruct (bool_decide (x ∈ excludeDirs) || bool_decide (x ∈ excludeFiles)) eqn:E1;
    [apply confined_ret|].
  destruct (bool_decide (x = js ".github")) eqn:E2; [apply confined_ret|].
  assert (forall q, P q -> diverge (target ++ [x]) q = true) as Hx.
  { intros q [Hq|(x' & rest & -> & Hk)]%H; [by apply diverge_app|].
    assert (x <> x') as Hne by (intros <-; unfold kept in Hk; by rewrite E1, E2 in Hk).
    clear -Hne. induction target as [|z target IH]; simpl;
      [by rewrite decide_False | by rewrite decide_True]. }
  destruct n as [c|ces].
  - by apply confined_writeFileSync.
  - apply confined_bind; [by apply confined_ensureDirectory|]. intros _.
    by apply confined_copyProjectFiles.
Qed.

(** X21.  Of [.github] the staging directory gets the allowed
    workflows only.  When [copyProjectStructure] returns in a staging
    directory that had no [.github], every file below [output/.github]
    is [workflows/lint.yml] or [workflows/tests.yml], with the content
    of the project's workflow of that name, or
    [workflows/auto-release.yml], with the content of the template. *)
Theorem copyProjectStructure_workflows (w w' : world) (q : path) (c : jsstring) :
  copyProjectStructure w = (Ok tt, w') ->
  lookup (outputDir ++ [js ".github"]) (tree w) = None ->
  lookup (outputDir ++ js ".github" :: q) (tree w') = Some (File c) ->
  (q = [js "workflows"; js "lint.yml"] /\
   lookup [js ".github"; js "workflows"; js "lint.yml"] (tree w) = Some (File c)) \/
  (q = [js "workflows"; js "tests.yml"] /\
   lookup [js ".github"; js "workflows"; js "tests.yml"] (tree w) = Some (File c)) \/
  (q = [js "workflows"; js "auto-release.yml"] /\
   lookup [js "templates"; js "workflows"; js "auto-release.yml"] (tree w)
   = Some (File c)).
Proof.
  intros Hrun Hnone. revert q c.
  set (allowed := fun (q : path) (c : jsstring) =>
    (q = [js "workflows"; js "lint.yml"] /\
     lookup [js ".github"; js "workflows"; js "lint.yml"] (tree w) = Some (File c)) \/
    (q = [js "workflows"; js "tests.yml"] /\
     lookup [js ".github"; js "workflows"; js "tests.yml"] (tree w) = Some (File c)) \/
    (q = [js "workflows"; js "auto-release.yml"] /\
     lookup [js "templates"; js "workflows"; js "auto-release.yml"] (tree w)
     = Some (File c))).
  set (Inv := fun (v : world) =>
    (forall q, diverge outputDir q = true -> lookup q (tree v) = lookup q (tree w)) /\
    (forall q c, lookup (outputDir ++ js ".github" :: q) (tree v) = Some (File c) ->
                 allowed q c)).
  change (forall q c, lookup (outputDir ++ js ".github" :: q) (tree w') = Some (File c) ->
                      allowed q c).
  (* the steps that follow the walk keep the invariant *)
  assert (forall v v', Inv v ->
            ensureDirectory (outputDir ++ [js ".github"; js "workflows"]) v = (Ok tt, v') ->
            Inv v') as Hensure.
  { intros v v' [Hsrc Hfiles] [Hframe Hno]%run_ensureDirectory_Ok. split.
    - intros q Hq. rewrite Hframe; [by apply Hsrc|]. by apply diverge_app.
    - intros q c Hq. by apply Hfiles, Hno. }
  assert (forall src name v v',
            diverge outputDir src = true ->
            (forall c, lookup src (tree w) = Some (File c) ->
                       allowed [js "workflows"; name] c) ->
            Inv v ->
            copyFileSync src (outputDir ++ [js ".github"; js "workflows"; name]) v
            = (Ok tt, v') ->
            Inv v') as Hcopy.
  { intros src name v v' Hsrc Hallowed [Hkeep Hfiles] (c0 & Hc0 & Hput)%run_copyFileSync_Ok.
    split.
    - intros q Hq. rewrite <- (Hkeep q Hq).
      eapply lookup_put_diverge; [|done]. by apply diverge_app.
    - intros q c Hq. destruct (put_File_only _ _ _ _ _ _ Hput Hq) as [[Heq ->]|Hold].
      + apply (app_inv_head outputDir) in Heq. injection Heq as ->.
        apply Hallowed. by rewrite <- (Hkeep src Hsrc).
      + by apply Hfiles. }
  assert (forall src name v v',
            diverge outputDir src = true ->
            (forall c, lookup src (tree w) = Some (File c) ->
                       allowed [js "workflows"; name] c) ->
            Inv v ->
            (existsSync src ≫= fun e =>
               when e (copyFileSync src
                         (outputDir ++ [js ".github"; js "workflows"; name]))) v
            = (Ok tt, v') ->
            Inv v') as Hcopy'.
  { intros src name v v' Hsrc Hallowed HI. rewrite run_bind, run_existsSync.
    destruct (bool_decide _); cbn [when]; [by apply Hcopy|].
    unfold ret. by intros [= <-]. }
  (* the walk *)
  unfold copyProjectStructure in Hrun.
  apply bind_Ok in Hrun as (root & w0 & Hget & Hrun). unfold get in Hget.
  injection Hget as <- <-.
  apply bind_Ok in Hrun as ([] & w1 & Hwalk & Hrun).
  assert (Inv w1) as H1.
  { assert (forall q, diverge outputDir q = true \/ (exists rest, q = outputDir ++ js ".github" :: rest) ->
              lookup q (tree w1) = lookup q (tree w)) as Hw.
    { intros q Hq.
      apply (confined_Ok
               (fun q => diverge outputDir q = true \/
                         exists rest, q = outputDir ++ js ".github" :: rest)
               _ _ _ _ q
               (confined_copyProjectFiles_skips _ (tree w) outputDir excludeDirs excludeFiles
                  (fun q Hq => match Hq with
                               | or_introl H => or_introl H
                               | or_intror (ex_intro _ rest H) =>
                                   or_intror (ex_intro _ (js ".github")
                                     (ex_intro _ rest (conj H eq_refl)))
                               end))
               Hwalk Hq). }
    split; [intros q Hq; apply Hw; by left|].
    intros q c Hq. rewrite Hw in Hq by (right; by eexists).
    change (outputDir ++ js ".github" :: q) with ((outputDir ++ [js ".github"]) ++ q) in Hq.
    by rewrite lookup_app, Hnone in Hq. }
  (* the workflows of the project *)
  apply bind_Ok in Hrun as (e & w1' & Hex & Hrun).
  rewrite run_existsSync in Hex. injection Hex as <- <-.
  apply bind_Ok in Hrun as ([] & w2 & Hproject & Hrun).
  assert (Inv w2) as H2.
  { destruct (bool_decide _); cbn [when] in Hproject;
      [|unfold ret in Hproject; by simplify_eq].
    apply bind_Ok in Hproject as ([] & v1 & Hmk & Hproject).
    rewrite !forEach_cons in Hproject.
    apply bind_Ok in Hproject as ([] & v2 & Hlint & Hproject).
    apply bind_Ok in Hproject as ([] & v3 & Htests & Hproject).
    assert (v3 = w2) as -> by (cbv in Hproject; congruence).
    refine (Hcopy' _ (js "tests.yml") _ _ _ _ _ Htests);
      [done | intros c Hc; right; by left |].
    refine (Hcopy' _ (js "lint.yml") _ _ _ _ _ Hlint);
      [done | intros c Hc; by left |].
    by eapply Hensure. }
  (* the workflow of the templates *)
  apply bind_Ok in Hrun as (e & w2' & Hex & Hrun).
  rewrite run_existsSync in Hex. injection Hex as <- <-.
  cut (Inv w'); [by intros [_ H]|]. clear Hwalk Hproject.
  destruct (bool_decide _); cbn [when] in Hrun;
    [|unfold ret in Hrun; by injection Hrun as <-].
  apply bind_Ok in Hrun as ([] & v1 & Hmk & Hrun).
  refine (Hcopy _ (js "auto-release.yml") _ _ _ _ _ Hrun);
    [done | intros c Hc; right; by right |].
  by eapply Hensure.
Qed.

End Workflows.
Lemma copyProjectStructure_workflows_witness :
  copyProjectStructure staged_world = (Ok tt, staged_copy) /\
  lookup (outputDir ++ [js ".github"; js "workflows"; js "deploy.yml"]) (tree staged_copy)
  = None /\
  lookup (outputDir ++ [js ".github"; js "workflows"; js "lint.yml"]) (tree staged_copy)
  = Some (File (js "name: lint")) /\
  lookup [js ".github"; js "workflows"; js "lint.yml"] (tree staged_world)
  = Some (File (js "name: lint")).
Proof.
  assert (copyProjectStructure staged_world = (Ok tt, staged_copy)) as Hrun
    by (vm_compute; reflexivity).
  split; [exact Hrun|]. split; [reflexivity|]. split; [reflexivity|].
  destruct (copyProjectStructure_workflows staged_world staged_copy
              [js "workflows"; js "lint.yml"] (js "name: lint") Hrun eq_refl eq_refl)
    as [[_ H]|[[H _]|[H _]]]; [exact H | discriminate H..].
Defined.
(** ** The version check of the self-test *)

Section NodeVersion.

Implicit Types (s ds rest a b : jsstring) (c d : N).

Lemma span_snd_stop (f : N -> bool) a c b :
  f c = false -> snd (span f (a ++ c :: b)) = snd (span f a) ++ c :: b.
Proof.
  intros Hc. induction a as [|x a IH]; simpl.
  - by rewrite Hc.
  - destruct (f x); [|done]. destruct (span f (a ++ c :: b)), (span f a). apply IH.
Qed.

Lemma trimEnd_stop a c b :
  re_space c = false -> trimEnd (a ++ c :: b) = a ++ c :: trimEnd b.
Proof.
  intros Hc. unfold trimEnd, trimStart. rewrite rev_app_distr. cbn [rev].
  rewrite <- app_assoc. cbn [app]. rewrite span_snd_stop by done.
  rewrite rev_app_distr. cbn [rev]. rewrite rev_involutive, <- app_assoc. done.
Qed.

Lemma span_whole (f : N -> bool) s : forallb f s = true -> span f s = (s, []).
Proof.
  induction s as [|x s IH]; [done|]. simpl. intros [-> H]%andb_true_iff.
  by rewrite IH.
Qed.

Lemma split_head sep a b :
  existsb (N.eqb sep) a = false -> head (split sep (a ++ sep :: b)) = Some a.
Proof.
  induction a as [|x a IH]; simpl.
  - by rewrite N.eqb_refl.
  - intros [Hx Ha]%orb_false_iff. rewrite N.eqb_sym, Hx.
    specialize (IH Ha). destruct (split sep (a ++ sep :: b)) as [|y ys]; simpl in *;
      by simplify_eq.
Qed.

Lemma decimal_cases c :
  48 <= c <= 57 ->
  c = 48 \/ c = 49 \/ c = 50 \/ c = 51 \/ c = 52 \/ c = 53 \/ c = 54 \/ c = 55
  \/ c = 56 \/ c = 57.
Proof. lia. Qed.

Ltac decimal c H :=
  destruct (decimal_cases c H) as [->|[->|[->|[->|[->|[->|[->|[->|[->| ->]]]]]]]]].

Lemma digit_decimal c : 48 <= c <= 57 -> Tester.digit 10 c = Some (c - 48).
Proof. intros H. decimal c H; reflexivity. Qed.

Lemma fold_decimal ds acc :
  Forall (fun c => 48 <= c <= 57) ds ->
  fold_left (fun acc c => acc * 10 + default 0 (Tester.digit 10 c)) ds acc
  = fold_left (fun acc c => acc * 10 + (c - 48)) ds acc.
Proof.
  intros Hds. revert acc. induction Hds as [|x l Hx Hl IH]; intros acc; [done|].
  cbn [fold_left]. rewrite digit_decimal by done. apply IH.
Qed.

(** On a decimal numeral [parseInt] reads the whole of it. *)
Lemma parseInt_decimal ds :
  ds <> [] -> Forall (fun c => 48 <= c <= 57) ds ->
  Tester.parseInt ds
  = Some (Z.of_N (fold_left (fun acc c => acc * 10 + (c - 48)) ds 0)).
Proof.
  intros Hne Hds.
  assert (Tester.digits 10 ds
          = Some (fold_left (fun acc c => acc * 10 + (c - 48)) ds 0)) as Hdigits.
  { unfold Tester.digits. rewrite span_whole.
    - cbn [fst]. destruct ds as [|d ds]; [done|]. f_equal. by apply fold_decimal.
    - apply forallb_forall. intros x Hx. rewrite List.Forall_forall in Hds.
      rewrite digit_decimal by (by apply Hds). by apply bool_decide_eq_true_2. }
  destruct ds as [|d ds]; [done|]. apply Forall_cons in Hds as [Hd Hds].
  unfold Tester.parseInt.
  assert (trimStart (d :: ds) = d :: ds) as ->.
  { unfold trimStart. simpl. by decimal d Hd. }
  destruct (decide (d = 48)) as [->|Hd48].
  - destruct ds as [|d2 ds]; [by rewrite Hdigits|].
    apply Forall_cons in Hds as [Hd2 Hds]. decimal d2 Hd2; by rewrite Hdigits.
  - decimal d Hd; done || by rewrite Hdigits.
Qed.

(** X22.  The Node.js check reads the major number of [v<major>.<rest>]:
    it accepts an answer of [node --version] that opens with [v], a
    decimal numeral and a dot exactly when that numeral is at least 18,
    whatever follows the dot. *)
Theorem nodeVersionOk_major (ds rest : jsstring) :
  ds <> [] -> Forall (fun c => 48 <= c <= 57) ds ->
  Tester.nodeVersionOk (js "v" ++ ds ++ js "." ++ rest)
  = (18 <=? Z.of_N (fold_left (fun acc c => acc * 10 + (c - 48)) ds 0)%N)%Z.
Proof.
  intros Hne Hds. unfold Tester.nodeVersionOk.
  assert (trim (js "v" ++ ds ++ js "." ++ rest) = 118 :: ds ++ 46 :: trimEnd rest) as ->.
  { change (js "v" ++ ds ++ js "." ++ rest) with (118 :: ds ++ 46 :: rest).
    unfold trim. change (trimStart (118 :: ds ++ 46 :: rest)) with (118 :: ds ++ 46 :: rest).
    by apply (trimEnd_stop (118 :: ds) 46 rest). }
  change (replaceFirst (lit (js "v")) (fun _ => []) (118 :: ds ++ 46 :: trimEnd rest))
    with (ds ++ 46 :: trimEnd rest).
  rewrite split_head.
  - cbn [default from_option id]. by rewrite parseInt_decimal.
  - apply not_true_is_false. intros [c [Hc Heq]]%existsb_exists.
    apply N.eqb_eq in Heq as <-. rewrite List.Forall_forall in Hds.
    apply Hds in Hc. lia.
Qed.

End NodeVersion.
Lemma nodeVersionOk_major_witness :
  Tester.nodeVersionOk (js "v" ++ js "20" ++ js "." ++ js "11.0" ++ [newline]) = true /\
  Tester.nodeVersionOk (js "v" ++ js "16" ++ js "." ++ js "20.2") = false.
Proof.
  split.
  - rewrite nodeVersionOk_major; [reflexivity | discriminate |].
    change (Forall (fun c => 48 <= c <= 57) [50; 48]).
    repeat (constructor; [lia|]). constructor.
  - rewrite nodeVersionOk_major; [reflexivity | discriminate |].
    change (Forall (fun c => 48 <= c <= 57) [49; 54]).
    repeat (constructor; [lia|]). constructor.
Defined.

(** ** The extension classifier, on the whole list *)

Section ClassifierLoop.

Implicit Types (p q file : path) (t n : node) (es : entries) (x y name : jsstring).
Implicit Types (w : world) (c original : jsstring).

(** What is in the tree after a removal was there before, and a file is
    the file it was. *)
Lemma remove_lookup_inv p q t n :
  lookup q (remove p t) = Some n ->
  exists n', lookup q t = Some n' /\ forall c, n = File c -> n' = File c.
Proof.
  revert q t n. induction p as [|x p IH]; intros q t n H.
  - by exists n.
  - cbn [remove] in H. destruct t as [c0|es]; [by exists n|]. destruct p as [|z p].
    + destruct q as [|y q]; [simpl in H; simplify_eq; by eexists|]. cbn [lookup] in *.
      destruct (decide (x = y)) as [<-|Hne].
      * by rewrite entry_lookup_remove_eq in H.
      * rewrite entry_lookup_remove_ne in H by done. by exists n.
    + destruct (entry_lookup x es) as [child|] eqn:Ex; [|by exists n].
      destruct q as [|y q]; [simpl in H; simplify_eq; by eexists|]. cbn [lookup] in *.
      destruct (decide (x = y)) as [<-|Hne].
      * rewrite entry_lookup_put_eq in H. cbn [mbind option_bind] in H.
        rewrite Ex. cbn [mbind option_bind]. by apply IH.
      * rewrite entry_lookup_put_ne in H by done. by exists n.
Qed.

(** What is in the tree after a file was written is that file, or was
    there before; and a file is the file it was. *)
Lemma put_File_inv p c t t' q n :
  put p (File c) t = Some t' -> lookup q t' = Some n ->
  (q = p /\ n = File c) \/
  exists n', lookup q t = Some n' /\ forall c', n = File c' -> n' = File c'.
Proof.
  revert t t' q n. induction p as [|x p IH]; intros t t' q n H Hq.
  - simpl in H. simplify_eq. apply lookup_File_inv in Hq as [-> ->]. by left.
  - cbn [put] in H. destruct t as [c0|es]; [done|]. destruct p as [|z p].
    + simplify_eq. destruct q as [|y q].
      { right. simpl in Hq. simplify_eq. by eexists. }
      cbn [lookup] in *. destruct (decide (x = y)) as [<-|Hne].
      * rewrite entry_lookup_put_eq in Hq. cbn [mbind option_bind] in Hq.
        apply lookup_File_inv in Hq as [-> ->]. by left.
      * rewrite entry_lookup_put_ne in Hq by done. right. by exists n.
    + destruct (entry_lookup x es) as [child|] eqn:Ex; [|done].
      cbn [mbind option_bind] in H.
      destruct (put (z :: p) (File c) child) as [child'|] eqn:Ec; [|done].
      cbn [mbind option_bind] in H. simplify_eq.
      destruct q as [|y q].
      { right. simpl in Hq. simplify_eq. by eexists. }
      cbn [lookup] in *. destruct (decide (x = y)) as [<-|Hne].
      * rewrite entry_lookup_put_eq in Hq. cbn [mbind option_bind] in Hq.
        destruct (IH _ _ _ _ Ec Hq) as [[-> ->]|Hold]; [by left|].
        right. by rewrite Ex.
      * rewrite entry_lookup_put_ne in Hq by done. right. by exists n.
Qed.

(** Two files of a tree are at paths that part ways. *)
Lemma files_diverge p q t c c' :
  lookup p t = Some (File c) -> lookup q t = Some (File c') -> p <> q ->
  diverge p q = true.
Proof.
  revert q t. induction p as [|x p IH]; intros q t Hp Hq Hne.
  - simpl in Hp. simplify_eq. apply lookup_File_inv in Hq as [-> _]. done.
  - destruct q as [|y q].
    + simpl in Hq. by simplify_eq.
    + cbn [diverge]. destruct (decide (x = y)) as [<-|Hxy]; [|done].
      destruct t as [c0|es]; [done|]. cbn [lookup] in Hp, Hq.
      destruct (entry_lookup x es) as [child|]; [|done].
      cbn [mbind option_bind] in Hp, Hq. apply (IH q child); [done..|]. congruence.
Qed.

Lemma diverge_app_head p q1 q2 : diverge (p ++ q1) (p ++ q2) = diverge q1 q2.
Proof. induction p as [|x p IH]; [done|]. simpl. by rewrite decide_True. Qed.

Lemma lookup_below_None p q t : lookup p t = None -> lookup (p ++ q) t = None.
Proof. intros H. by rewrite lookup_app, H. Qed.

(** *** The [.jsx] name *)

Lemma pathEndsWith_js_inv file :
  pathEndsWith (js ".js") file = true ->
  exists init name, file = init ++ [name] /\ endsWith (js ".js") name = true.
Proof.
  unfold pathEndsWith. destruct (last file) as [name|] eqn:E; [|done].
  intros H. exists (removelast file), name. split; [by apply last_snoc_inv | done].
Qed.

Lemma pathEndsWith_jsxName file :
  pathEndsWith (js ".js") file = true -> pathEndsWith (js ".jsx") (jsxName file) = true.
Proof.
  intros (init & name & -> & H)%pathEndsWith_js_inv. rewrite jsxName_snoc.
  unfold pathEndsWith. rewrite last_snoc. unfold endsWith in *.
  rewrite rev_app_distr. change (rev (js ".jsx")) with (120 :: rev (js ".js")).
  change (rev (js "x")) with [120]. cbn [app startsWith]. by rewrite N.eqb_refl.
Qed.

Lemma jsxName_not_js file :
  pathEndsWith (js ".js") file = true -> pathEndsWith (js ".js") (jsxName file) = false.
Proof. intros H. by apply pathEndsWith_jsx_not_js, pathEndsWith_jsxName. Qed.

Lemma jsxName_inj file file' :
  pathEndsWith (js ".js") file = true -> pathEndsWith (js ".js") file' = true ->
  jsxName file = jsxName file' -> file = file'.
Proof.
  intros (init & name & -> & _)%pathEndsWith_js_inv
         (init' & name' & -> & _)%pathEndsWith_js_inv.
  rewrite !jsxName_snoc. intros [-> H]%app_inj_tail. by apply app_inv_tail in H as ->.
Qed.

(** *** One round *)

(** The rename of a file to a name that is free. *)
Lemma rename_free init name c t :
  lookup (init ++ [name]) t = Some (File c) ->
  lookup (init ++ [name ++ js "x"]) t = None ->
  exists t1,
    put (init ++ [name ++ js "x"]) (File c) (remove (init ++ [name]) t) = Some t1 /\
    lookup (init ++ [name]) t1 = None /\
    lookup (init ++ [name ++ js "x"]) t1 = Some (File c) /\
    (forall q c', lookup q t = Some (File c') -> q <> init ++ [name] ->
                  lookup q t1 = Some (File c')) /\
    (forall q c', lookup q t1 = Some (File c') ->
                  lookup q t = Some (File c') \/ (q = init ++ [name ++ js "x"] /\ c' = c)) /\
    (forall q, lookup q t = None -> q <> init ++ [name ++ js "x"] -> lookup q t1 = None).
Proof.
  intros Hold Hnew.
  assert (name <> name ++ js "x") as Hne.
  { intros Heq. apply (f_equal length) in Heq. rewrite length_app in Heq.
    simpl in Heq. lia. }
  destruct (put_sibling init name (name ++ js "x") (File c) (File c) t Hold) as [t1 Ht1].
  exists t1. split_and!; [done| | | | |].
  - erewrite lookup_put_diverge; [|by apply diverge_last|done].
    apply lookup_remove_eq. by destruct init.
  - by eapply lookup_put_eq.
  - intros q c' Hq Hqf.
    pose proof (files_diverge _ _ _ _ _ Hold Hq (not_eq_sym Hqf)) as Hd.
    assert (diverge (init ++ [name ++ js "x"]) q = true) as Hd'.
    { apply diverge_snoc_cases in Hd as [Hd|(y & q' & -> & Hy)]; [by apply diverge_app|].
      rewrite diverge_app_head. simpl. destruct (decide (name ++ js "x" = y)) as [<-|]; [|done].
      change (init ++ (name ++ js "x") :: q') with (init ++ [name ++ js "x"] ++ q') in Hq.
      rewrite app_assoc, lookup_below_None in Hq; done. }
    rewrite (lookup_put_diverge _ _ _ _ _ Hd' Ht1).
    by rewrite lookup_remove_diverge.
  - intros q c' Hq. destruct (put_File_inv _ _ _ _ _ _ Ht1 Hq) as [[-> [= ->]]|(n' & Hn' & Hc)].
    + by right.
    + apply remove_lookup_inv in Hn' as (n'' & Hn'' & Hc'). left.
      by rewrite Hn'', (Hc' c' (Hc c' eq_refl)).
  - intros q Hq Hqn. destruct (lookup q t1) as [n|] eqn:E; [|done].
    destruct (put_File_inv _ _ _ _ _ _ Ht1 E) as [[-> _]|(n' & Hn' & _)]; [done|].
    apply remove_lookup_inv in Hn' as (n'' & Hn'' & _). congruence.
Qed.

Lemma run_processJavaScriptFile_other file w :
  (forall c, ~ marked (tree w) file c) -> processJavaScriptFile file w = (Ok tt, w).
Proof.
  intros H. unfold processJavaScriptFile, catch. rewrite run_bind.
  unfold readFileSync. rewrite run_bind. cbn [get].
  destruct (lookup file (tree w)) as [[c|es]|] eqn:E; cbn [ret throw]; try done.
  destruct (pathEndsWith (js ".js") file && looksLikeMarkup c) eqn:Hb; [|done].
  apply andb_true_iff in Hb as [? ?]. by destruct (H c).
Qed.

Lemma round_spec file w :
  (forall c, marked (tree w) file c -> lookup (jsxName file) (tree w) = None) ->
  exists t1,
    processJavaScriptFile file w = (Ok tt, World t1 (execs w)) /\
    (forall c, marked (tree w) file c ->
               lookup file t1 = None /\ lookup (jsxName file) t1 = Some (File c)) /\
    (forall q c, lookup q (tree w) = Some (File c) ->
                 ~ (q = file /\ marked (tree w) file c) -> lookup q t1 = Some (File c)) /\
    (forall q c, lookup q t1 = Some (File c) ->
                 lookup q (tree w) = Some (File c) \/
                 (marked (tree w) file c /\ q = jsxName file)) /\
    (forall q, lookup q (tree w) = None ->
               (forall c, marked (tree w) file c -> q <> jsxName file) ->
               lookup q t1 = None).
Proof.
  intros Hfree.
  destruct (lookup file (tree w)) as [[c|es]|] eqn:E.
  2,3: exists (tree w); split;
         [rewrite run_processJavaScriptFile_other;
            [by destruct w | intros c [? _]; congruence]|];
         split_and!; [intros c [? _]; congruence | done | by left | done].
  destruct (pathEndsWith (js ".js") file && looksLikeMarkup c) eqn:Hb.
  2:{ exists (tree w). split.
      - rewrite run_processJavaScriptFile_other; [by destruct w|].
        intros c' (Hc' & Hjs & Hm). simplify_eq. by rewrite Hjs, Hm in Hb.
      - split_and!; [|done|by left|done].
        intros c' (Hc' & Hjs & Hm). simplify_eq. by rewrite Hjs, Hm in Hb. }
  apply andb_true_iff in Hb as [Hjs Hm].
  assert (marked (tree w) file c) as Hmarked by done.
  specialize (Hfree c Hmarked).
  destruct (pathEndsWith_js_inv _ Hjs) as (init & name & -> & Hname).
  rewrite jsxName_snoc in *.
  destruct (rename_free init name c (tree w) E Hfree)
    as (t1 & Hput & Hgone & Hthere & Hkeep & Hback & Hnone).
  exists t1. split_and!.
  - unfold processJavaScriptFile, catch.
    rewrite run_bind, (run_readFileSync _ _ c) by done.
    rewrite Hjs, Hm. cbn [andb]. rewrite jsxName_snoc.
    unfold renameSync. rewrite run_bind. cbn [get]. rewrite E, Hfree.
    unfold update. by rewrite Hput.
  - intros c' (Hc' & _). by simplify_eq.
  - intros q c' Hq Hnot. apply Hkeep; [done|]. intros ->. apply Hnot. split; [done|].
    by simplify_eq.
  - intros q c' Hq. destruct (Hback _ _ Hq) as [?|[-> ->]]; [by left | by right].
  - intros q Hq Hnot. apply Hnone; [done|]. by apply (Hnot c).
Qed.

(** *** The loop *)

Lemma loop_spec (found : list path) w :
  (forall file c, file ∈ found -> marked (tree w) file c ->
                  lookup (jsxName file) (tree w) = None) ->
  exists t',
    forEach found processJavaScriptFile w = (Ok tt, World t' (execs w)) /\
    (forall file c, file ∈ found -> marked (tree w) file c ->
                    lookup file t' = None /\ lookup (jsxName file) t' = Some (File c)) /\
    (forall q c, lookup q (tree w) = Some (File c) ->
                 ~ (q ∈ found /\ marked (tree w) q c) -> lookup q t' = Some (File c)) /\
    (forall q c, lookup q t' = Some (File c) ->
                 lookup q (tree w) = Some (File c) \/
                 exists file, file ∈ found /\ marked (tree w) file c /\ q = jsxName file) /\
    (forall q, lookup q (tree w) = None ->
               (forall file c, file ∈ found -> marked (tree w) file c -> q <> jsxName file) ->
               lookup q t' = None).
Proof.
  revert w. induction found as [|file found IH]; intros w Hfree.
  { exists (tree w). split; [by destruct w|]. split_and!; try done.
    - by intros ? ? ?%elem_of_nil.
    - by left. }
  destruct (round_spec file w) as (t1 & Hrun & HA & HB & HC & HD).
  { intros c Hmk. apply (Hfree file c); [apply list_elem_of_here | done]. }
  set (w1 := World t1 (execs w)) in *.
  assert (forall f c, marked (tree w1) f c -> marked (tree w) f c) as Hback.
  { intros f c (Hc & Hjs & Hm). split_and!; [|done..].
    destruct (HC _ _ Hc) as [?|[(_ & Hjs' & _) ->]]; [done|].
    by rewrite jsxName_not_js in Hjs. }
  destruct (IH w1) as (t' & Hrest & IA & IB & IC & ID).
  { intros f c Hf Hmk. pose proof (Hback _ _ Hmk) as Hmk0.
    apply HD; [apply (Hfree f c); [by apply list_elem_of_further | done]|].
    intros c0 Hmk' Heq.
    apply jsxName_inj in Heq; [|by destruct Hmk0 as (_ & ? & _)|by destruct Hmk' as (_ & ? & _)].
    subst f. destruct (HA _ Hmk') as [Hgone _]. destruct Hmk as [Hc _].
    cbn [tree w1] in Hc. congruence. }
  exists t'. split_and!.
  - by rewrite forEach_cons, run_bind, Hrun.
  - intros f c Hf Hmk. destruct (decide (f = file)) as [->|Hne].
    + destruct (HA _ Hmk) as [Hgone Hthere]. pose proof Hmk as (_ & Hjs & _). split.
      * apply ID; [done|]. intros f' c' _ Hmk' Heq.
        destruct Hmk' as (_ & Hjs' & _). apply jsxName_not_js in Hjs'.
        by rewrite <- Heq, Hjs in Hjs'.
      * apply IB; [done|]. intros [_ (_ & Hjs' & _)]. by rewrite jsxName_not_js in Hjs'.
    + apply elem_of_cons in Hf as [?|Hf]; [done|]. apply IA; [done|].
      destruct Hmk as (Hc & Hjs & Hm). split_and!; [|done..].
      apply HB; [done|]. by intros [? _].
  - intros q c Hq Hnot. apply IB.
    + apply HB; [done|]. intros [-> Hmk]. apply Hnot. split; [apply list_elem_of_here | done].
    + intros [Hin Hmk]. apply Hnot. split; [by apply list_elem_of_further | by apply Hback].
  - intros q c Hq. destruct (IC _ _ Hq) as [Hq1|(f & Hf & Hmk & ->)].
    + destruct (HC _ _ Hq1) as [?|[Hmk ->]]; [by left|].
      right. exists file. split_and!; [apply list_elem_of_here | done..].
    + right. exists f. split_and!; [by apply list_elem_of_further | by apply Hback | done].
  - intros q Hq Hnot. apply ID.
    + apply HD; [done|]. intros c Hmk. apply (Hnot file c); [apply list_elem_of_here | done].
    + intros f c Hf Hmk. apply (Hnot f c); [by apply list_elem_of_further | by apply Hback].
Qed.

End ClassifierLoop.

Section ClassifierClaim.

Variable glob : path -> node -> list path.

(** C1, as the code has it.  The pattern is a [<], a word character and
    then one unit that is white space, [>] or [/]; a name that ends in
    [.jsx] does not end in [.js]; the new name is the old one with [x]
    added.

    One round of the loop, on a scanned file: a file whose name ends in
    [.js] and whose content has the pattern is renamed with its content,
    over a file that has the new name if there is one, unless a directory
    has the new name, when the round does nothing; every other file, and
    what is not a file, leaves the world as it was.

    The whole loop, where nothing has the new name of a file that is to
    be renamed: it returns and spawns nothing; every scanned file whose
    name ends in [.js] and whose content has the pattern is gone from its
    old name and stands, with its content, at the new name, which ends in
    [.jsx]; every other file of the tree, scanned or not, is where it was
    with the content it had; and no other file has appeared. *)
Theorem processJavaScriptFiles_classifies (w : world) :
  (forall original,
     looksLikeMarkup original = true <->
     exists pre c1 c2 post,
       original = pre ++ 60 :: c1 :: c2 :: post /\ re_word c1 = true /\
       (re_space c2 = true \/ c2 = 62 \/ c2 = 47)) /\
  (forall file,
     pathEndsWith (js ".jsx") file = true -> pathEndsWith (js ".js") file = false) /\
  (forall init name, jsxName (init ++ [name]) = init ++ [name ++ js "x"]) /\
  (forall file original,
     lookup file (tree w) = Some (File original) ->
     if pathEndsWith (js ".js") file && looksLikeMarkup original
     then match lookup (jsxName file) (tree w) with
          | Some (Dir _) => processJavaScriptFile file w = (Ok tt, w)
          | _ => exists w',
                   processJavaScriptFile file w = (Ok tt, w') /\
                   lookup file (tree w') = None /\
                   lookup (jsxName file) (tree w') = Some (File original)
          end
     else processJavaScriptFile file w = (Ok tt, w)) /\
  (forall file,
     (forall original, lookup file (tree w) <> Some (File original)) ->
     processJavaScriptFile file w = (Ok tt, w)) /\
  ((forall file original,
      file ∈ glob jsOutputDir (tree w) -> marked (tree w) file original ->
      lookup (jsxName file) (tree w) = None) ->
   exists t',
     processJavaScriptFiles glob w = (Ok tt, World t' (execs w)) /\
     (forall file original,
        file ∈ glob jsOutputDir (tree w) -> marked (tree w) file original ->
        lookup file t' = None /\
        lookup (jsxName file) t' = Some (File original) /\
        pathEndsWith (js ".jsx") (jsxName file) = true) /\
     (forall file original,
        lookup file (tree w) = Some (File original) ->
        ~ (file ∈ glob jsOutputDir (tree w) /\ marked (tree w) file original) ->
        lookup file t' = Some (File original)) /\
     (forall file content,
        lookup file t' = Some (File content) ->
        lookup file (tree w) = Some (File content) \/
        exists old, old ∈ glob jsOutputDir (tree w) /\ marked (tree w) old content /\
                    file = jsxName old)).
Proof.
  split_and!.
  - intros original. apply re_test_markup.
  - apply pathEndsWith_jsx_not_js.
  - apply jsxName_snoc.
  - intros file original Hfile.
    destruct (pathEndsWith (js ".js") file && looksLikeMarkup original) eqn:E.
    2:{ unfold processJavaScriptFile, catch.
        rewrite run_bind, (run_readFileSync _ _ original) by done. by rewrite E. }
    apply andb_true_iff in E as [Hjs Hm].
    destruct (pathEndsWith_js_inv _ Hjs) as (init & name & -> & Hname).
    rewrite jsxName_snoc.
    assert (name <> name ++ js "x") as Hne.
    { intros Heq. apply (f_equal length) in Heq. rewrite length_app in Heq.
      simpl in Heq. lia. }
    assert ((forall es, lookup (init ++ [name ++ js "x"]) (tree w) <> Some (Dir es)) ->
            exists w',
              processJavaScriptFile (init ++ [name]) w = (Ok tt, w') /\
              lookup (init ++ [name]) (tree w') = None /\
              lookup (init ++ [name ++ js "x"]) (tree w') = Some (File original))
      as Hrename.
    { intros Hnodir.
      destruct (run_renameSync init name (name ++ js "x") original w Hne Hfile Hnodir)
        as (w' & Hren & Hgone & Hthere).
      exists w'. split_and!; [|done..].
      unfold processJavaScriptFile, catch.
      rewrite run_bind, (run_readFileSync _ _ original) by done.
      rewrite Hjs, Hm. cbn [andb]. by rewrite jsxName_snoc, Hren. }
    destruct (lookup (init ++ [name ++ js "x"]) (tree w)) as [[c'|es]|] eqn:En;
      [by apply Hrename| |by apply Hrename].
    unfold processJavaScriptFile, catch.
    rewrite run_bind, (run_readFileSync _ _ original) by done.
    rewrite Hjs, Hm. cbn [andb]. rewrite jsxName_snoc.
    unfold renameSync. rewrite run_bind. cbn [get]. by rewrite Hfile, En.
  - intros file Hfile. apply run_processJavaScriptFile_other.
    intros c [Hc _]. by destruct (Hfile c).
  - intros Hfree.
    destruct (loop_spec (glob jsOutputDir (tree w)) w Hfree) as (t' & Hrun & HA & HB & HC & _).
    exists t'. split_and!.
    + unfold processJavaScriptFiles. rewrite run_bind. cbn [get]. exact Hrun.
    + intros file original Hin Hmk. destruct (HA _ _ Hin Hmk) as [? ?].
      split_and!; [done..|]. destruct Hmk as (_ & Hjs & _). by apply pathEndsWith_jsxName.
    + exact HB.
    + exact HC.
Qed.
End ClassifierClaim.

Lemma processJavaScriptFiles_classifies_witness :
  exists t',
    processJavaScriptFiles glob_scripts classifier_world = (Ok tt, World t' []) /\
    lookup (jsOutputDir ++ [js "Button.js"]) t' = None /\
    lookup (jsOutputDir ++ [js "Button.jsx"]) t'
    = Some (File (js "export const b = <b>ok</b>;")) /\
    lookup (jsOutputDir ++ [js "utils.js"]) t'
    = Some (File (js "export const cn = (a, b) => a + b;")).
Proof.
  destruct (processJavaScriptFiles_classifies glob_scripts classifier_world)
    as (_ & _ & _ & _ & _ & Hloop).
  destruct Hloop as (t' & Hrun & Hrenamed & Hkept & _).
  { intros file original Hin _. apply list_elem_of_In in Hin. vm_compute in Hin.
    destruct Hin as [<-|[<-|[]]]; reflexivity. }
  exists t'. split; [exact Hrun|].
  destruct (Hrenamed (jsOutputDir ++ [js "Button.js"]) (js "export const b = <b>ok</b>;"))
    as (Hgone & Hthere & _).
  { apply list_elem_of_In. vm_compute. left. reflexivity. }
  { split_and!; reflexivity. }
  split; [exact Hgone|]. split; [exact Hthere|].
  apply Hkept; [reflexivity|]. intros [_ (_ & _ & Hm)]. vm_compute in Hm. discriminate.
Defined.
